(** * Vending Stream Analytics: ingestion-and-analytics core

    A shallow embedding of the JavaScript sources of the dashboard
    (helpers, constants, storage, analytics, inventory, websocket) and the
    properties of its specification that were checked against it.

    Conventions of the embedding.
    - A JavaScript number is its exact value, a rational ([Q]), or [NaN];
      infinities are not represented, and sums, differences, products and
      quotients are exact, so that of these only what rounding keeps is
      stated.  The text of a number is that of its double.  Epoch
      milliseconds read from the clock are integers ([Z]).
    - JavaScript strings are [string]; a character is read as a code unit
      below 256.
    - Every call of [Date.now()], [Math.random()] and every outcome of a
      storage backend is an explicit argument of the operation that reads it.
    - Host facilities whose result is fixed by the browser (local calendar,
      [Date.parse], string-to-number conversion) are fields of [Host]. *)

From Stdlib Require Import ZArith QArith Qround Qabs String Ascii List Bool Lia Lqa.
From stdpp Require Import gmap strings pretty.
Import ListNotations.

Local Open Scope Z_scope.
Local Open Scope string_scope.

(** ** JavaScript values *)

Module JS.

Inductive jsnum : Type :=
| NaN
| Num (q : Q).

(** The values a decoded payload is made of, and [undefined] for what is
    absent.  An object lists each of its own properties once, in order. *)
#[warnings="-register-all"]
Inductive jsval : Type :=
| JUndefined
| JNull
| JBool (b : bool)
| JNum (n : jsnum)
| JStr (s : string)
| JArr (xs : list jsval)
| JObj (fields : list (string * jsval)).

(** [x === 0] on rationals. *)
Definition Qis0 (q : Q) : bool := (Qnum q =? 0)%Z.

(** [a < b], [a <= b] on rationals, as booleans. *)
Definition Qltb (a b : Q) : bool := negb (Qle_bool b a).
Definition Qleb (a b : Q) : bool := Qle_bool a b.

(** ToBoolean. *)
Definition truthy (v : jsval) : bool :=
  match v with
  | JUndefined | JNull => false
  | JBool b => b
  | JNum NaN => false
  | JNum (Num q) => negb (Qis0 q)
  | JStr s => negb (String.eqb s "")
  | JArr _ | JObj _ => true
  end.

Inductive jstype : Type :=
| TUndefined | TObject | TBoolean | TNumber | TString.

(** [typeof v]; [typeof null] is ['object']. *)
Definition typeof (v : jsval) : jstype :=
  match v with
  | JUndefined => TUndefined
  | JNull | JArr _ | JObj _ => TObject
  | JBool _ => TBoolean
  | JNum _ => TNumber
  | JStr _ => TString
  end.

Definition jstype_eqb (a b : jstype) : bool :=
  match a, b with
  | TUndefined, TUndefined | TObject, TObject | TBoolean, TBoolean
  | TNumber, TNumber | TString, TString => true
  | _, _ => false
  end.

Fixpoint assoc (k : string) (fs : list (string * jsval)) : option jsval :=
  match fs with
  | [] => None
  | (k', v) :: fs' => if String.eqb k k' then Some v else assoc k fs'
  end.

(** [v.k] for a value that is neither [undefined] nor [null]: own data
    properties of a decoded object; anything else has no such property. *)
Definition get (v : jsval) (k : string) : jsval :=
  match v with
  | JObj fs => match assoc k fs with Some x => x | None => JUndefined end
  | _ => JUndefined
  end.

Definition is_undefined (v : jsval) : bool :=
  match v with JUndefined => true | _ => false end.

(** [a || b] *)
Definition or_else (a b : jsval) : jsval := if truthy a then a else b.

(** *** Numbers *)

(** [isNaN(n)] *)
Definition isNaN (n : jsnum) : bool :=
  match n with NaN => true | Num _ => false end.

(** [a < b]: false as soon as one side is [NaN]. *)
Definition lt (a b : jsnum) : bool :=
  match a, b with
  | Num x, Num y => Qltb x y
  | _, _ => false
  end.

Definition le (a b : jsnum) : bool :=
  match a, b with
  | Num x, Num y => Qleb x y
  | _, _ => false
  end.

Definition sub (a b : jsnum) : jsnum :=
  match a, b with
  | Num x, Num y => Num (x - y)
  | _, _ => NaN
  end.

(** [Math.max(a, b)]: [NaN] if either argument is. *)
Definition max (a b : jsnum) : jsnum :=
  match a, b with
  | Num x, Num y => if Qleb x y then Num y else Num x
  | _, _ => NaN
  end.

(** Truncation toward zero, as an integer. *)
Definition Qtrunc (q : Q) : Z := Z.quot (Qnum q) (Zpos (Qden q)).

(** *** The text of a number *)

Definition pow2 (e : Z) : Q :=
  if (0 <=? e)%Z then inject_Z (2 ^ e) else Qinv (inject_Z (2 ^ (- e))).

Definition pow10 (e : Z) : Q :=
  if (0 <=? e)%Z then inject_Z (10 ^ e) else Qinv (inject_Z (10 ^ (- e))).

(** The integer parts of the base 2 and base 10 logarithms of a number
    above zero. *)
Definition log2_floor (q : Q) : Z :=
  let c := (Z.log2 (Qnum q) - Z.log2 (Zpos (Qden q)))%Z in
  if Qleb (pow2 c) q then c else (c - 1)%Z.

Definition log10_floor (q : Q) : Z :=
  let c := ((log2_floor q * 30103) / 100000)%Z in
  if Qleb (pow10 (c + 1)) q then (c + 1)%Z
  else if Qleb (pow10 c) q then c else (c - 1)%Z.

Definition roundHalfEven (m : Q) : Z :=
  let f := Qfloor m in
  let r := (m - inject_Z f)%Q in
  if Qltb r (1 # 2) then f
  else if Qltb (1 # 2) r then (f + 1)%Z
  else if Z.even f then f else (f + 1)%Z.

(** The Number value for a real number above zero: the nearest double,
    the one with an even significand when two are as near; 53 bits from
    2^-1022 on, multiples of 2^-1074 below. *)
Definition roundToDouble (q : Q) : Q :=
  let ulp := pow2 (Z.max (log2_floor q) (-1022) - 52) in
  (inject_Z (roundHalfEven (q / ulp)) * ulp)%Q.

(** [String(x)] writes [x] in plain decimal notation, without an
    exponent, when [x] is 0 or [1e-6 <= |x| < 1e21]. *)
Definition decimalText (q : Q) : bool :=
  Qis0 q
  || (Qleb (1 # 1000000) (Qabs q) && Qltb (Qabs q) (inject_Z (10 ^ 21))).

(** The digits in front of [String(x)], as an integer, for a number
    [x > 0] below 1e-6 or from 1e21 on.  The text has the fewest digits that
    still denote [x]: it is one digit and an exponent when the decimal with
    one digit just above [x] denotes [x], and starts with the first digit of
    [x] otherwise.  (The double next below 1e-6 is written "0.000001".) *)
Definition leadingDigit (q : Q) : Z :=
  let e := log10_floor q in
  let d := Qfloor (q / pow10 e) in
  if Qeq_bool (roundToDouble (inject_Z (d + 1) * pow10 e)%Q) q then
    if (d =? 9)%Z then (if (e + 1 =? -6)%Z then 0%Z else 1%Z) else (d + 1)%Z
  else d.

(** [parseInt(n)] for a number [n]: the integer in front of [String(n)].
    In plain decimal notation that is [n] without its fraction; in
    exponent notation it is the sign and the first digit. *)
Definition parseInt (n : jsnum) : jsnum :=
  match n with
  | NaN => NaN
  | Num q =>
      if decimalText q then Num (inject_Z (Qtrunc q))
      else Num (inject_Z (Z.sgn (Qnum q) * Z.abs (leadingDigit (Qabs q))))
  end.

(** [n || d] for numbers. *)
Definition num_or (n : jsnum) (d : Q) : Q :=
  match n with
  | NaN => d
  | Num q => if Qis0 q then d else q
  end.

(** *** Strings *)

Definition code (c : ascii) : N := N_of_ascii c.

(** White space of [\s] and of [trim] among code units below 256. *)
Definition is_space (c : ascii) : bool :=
  let n := code c in
  ((9 <=? n) && (n <=? 13) || (n =? 32) || (n =? 160))%N.

Definition is_digit (c : ascii) : bool :=
  let n := code c in ((48 <=? n) && (n <=? 57))%N.

Definition is_alpha (c : ascii) : bool :=
  let n := code c in
  ((65 <=? n) && (n <=? 90) || (97 <=? n) && (n <=? 122))%N.

Definition lower_char (c : ascii) : ascii :=
  let n := code c in
  if ((65 <=? n) && (n <=? 90)
      || (192 <=? n) && (n <=? 222) && negb (n =? 215))%N
  then ascii_of_N (n + 32) else c.

Fixpoint toLowerCase (s : string) : string :=
  match s with
  | EmptyString => EmptyString
  | String c s' => String (lower_char c) (toLowerCase s')
  end.

Fixpoint trimStart (s : string) : string :=
  match s with
  | EmptyString => EmptyString
  | String c s' => if is_space c then trimStart s' else s
  end.

Fixpoint trimEnd (s : string) : string :=
  match s with
  | EmptyString => EmptyString
  | String c s' =>
      match trimEnd s' with
      | EmptyString => if is_space c then EmptyString else String c EmptyString
      | t => String c t
      end
  end.

Definition trim (s : string) : string := trimEnd (trimStart s).

Fixpoint startsWith (p s : string) : bool :=
  match p, s with
  | EmptyString, _ => true
  | String a p', String b s' => Ascii.eqb a b && startsWith p' s'
  | String _ _, EmptyString => false
  end.

(** [s.includes(p)] *)
Fixpoint includes (s p : string) : bool :=
  startsWith p s ||
  match s with
  | EmptyString => false
  | String _ s' => includes s' p
  end.

Fixpoint forallb_str (f : ascii -> bool) (s : string) : bool :=
  match s with
  | EmptyString => true
  | String c s' => f c && forallb_str f s'
  end.

End JS.

(** ** Application constants *)

Module Constants.

Definition RECONNECT_DELAY : Z := 3000.
Definition MAX_RECONNECT_ATTEMPTS : Z := 10.
Definition HEARTBEAT_INTERVAL : Z := 30000.
Definition MAX_FEED_ITEMS : nat := 50.
Definition CACHE_EXPIRY : Z := 24 * 60 * 60 * 1000.

Record ProductInfo : Type := mkInfo
  { emoji : string; category : string; color : string }.

(** [PRODUCT_MAPPING], in the order of its object literal (which is the
    order of [Object.entries], no key being an array index). *)
Definition PRODUCT_MAPPING : list (string * ProductInfo) :=
  [ ("energy drink", mkInfo "⚡" "beverages" "#ff6b6b");
    ("soda", mkInfo "🥤" "beverages" "#4ecdc4");
    ("cola", mkInfo "🥤" "beverages" "#45b7d1");
    ("pepsi", mkInfo "🥤" "beverages" "#96ceb4");
    ("coke", mkInfo "🥤" "beverages" "#feca57");
    ("water", mkInfo "💧" "beverages" "#74b9ff");
    ("juice", mkInfo "🧃" "beverages" "#fd79a8");
    ("coffee", mkInfo "☕" "beverages" "#6c5ce7");
    ("tea", mkInfo "🍵" "beverages" "#a29bfe");
    ("chocolate", mkInfo "🍫" "snacks" "#8b4513");
    ("candy", mkInfo "🍬" "snacks" "#ff69b4");
    ("chips", mkInfo "🍿" "snacks" "#ffa500");
    ("popcorn", mkInfo "🍿" "snacks" "#ffeb3b");
    ("pretzels", mkInfo "🥨" "snacks" "#8bc34a");
    ("cookies", mkInfo "🍪" "snacks" "#795548");
    ("nuts", mkInfo "🥜" "snacks" "#ff9800");
    ("crackers", mkInfo "🍘" "snacks" "#607d8b");
    ("gum", mkInfo "🍬" "snacks" "#e91e63");
    ("sandwich", mkInfo "🥪" "food" "#ff5722");
    ("salad", mkInfo "🥗" "food" "#4caf50");
    ("fruit", mkInfo "🍎" "food" "#f44336");
    ("yogurt", mkInfo "🥛" "food" "#2196f3");
    ("protein", mkInfo "💪" "food" "#9c27b0");
    ("granola", mkInfo "🌾" "food" "#795548");
    ("default", mkInfo "🍿" "other" "#666666") ].

Definition PRODUCT_MAPPING_default : ProductInfo :=
  mkInfo "🍿" "other" "#666666".

(** The object literal inherits from [Object.prototype]; these are the
    property names every plain object answers to besides its own. *)
Definition Object_prototype_keys : list string :=
  [ "constructor"; "__defineGetter__"; "__defineSetter__"; "hasOwnProperty";
    "__lookupGetter__"; "__lookupSetter__"; "isPrototypeOf";
    "propertyIsEnumerable"; "toString"; "valueOf"; "__proto__";
    "toLocaleString" ].

Inductive CONNECTION_STATES : Type :=
| CONNECTING | CONNECTED | DISCONNECTED | RECONNECTING.

Module TIME_PERIODS.
Definition TODAY : string := "today".
Definition WEEK : string := "week".
Definition MONTH : string := "month".
Definition ALL : string := "all".
End TIME_PERIODS.

End Constants.

(** ** Host environment *)

(** What the browser fixes: the local calendar behind [Date], and the
    conversions whose grammar is the engine's.  Instants are epoch
    milliseconds. *)
Class Host : Type := {
  (** [Date.parse(s)]; [None] is [NaN]. *)
  Date_parse : string -> option Z;
  (** [Number(s)] for a string. *)
  StringToNumber : string -> JS.jsnum;
  (** [String(v)] for an array or an object. *)
  objToString : JS.jsval -> string;
  (** [new Date(t).getFullYear()], [.getMonth()], [.getDate()],
      [.getDay()], [.getHours()]. *)
  getFullYear : Z -> Z;
  getMonth : Z -> Z;
  getDate : Z -> Z;
  getDay : Z -> Z;
  getHours : Z -> Z;
  (** [new Date(y, m, d).getTime()], with month and day overflow. *)
  makeDate : Z -> Z -> Z -> Z;
  (** [new Date(t).toDateString()]. *)
  toDateString : Z -> string
}.

(** ** Helper utilities *)

Module Helpers.
Import JS Constants.

(** What [PRODUCT_MAPPING[k]] or [getProductInfo] hands back: an entry of
    the table, or a member inherited from [Object.prototype] (a function,
    or the prototype object itself), which is truthy, has none of
    [emoji], [category], [color] and no own enumerable property. *)
Inductive InfoResult : Type :=
| Entry (i : ProductInfo)
| ProtoMember.

Definition info_category (r : InfoResult) : option string :=
  match r with Entry i => Some (category i) | ProtoMember => None end.
Definition info_emoji (r : InfoResult) : option string :=
  match r with Entry i => Some (emoji i) | ProtoMember => None end.
Definition info_color (r : InfoResult) : option string :=
  match r with Entry i => Some (color i) | ProtoMember => None end.

Fixpoint own (k : string) (m : list (string * ProductInfo))
  : option ProductInfo :=
  match m with
  | [] => None
  | (k', v) :: m' => if String.eqb k k' then Some v else own k m'
  end.

(** [PRODUCT_MAPPING[k]]: own properties first, then the prototype. *)
Definition PRODUCT_MAPPING_get (k : string) : option InfoResult :=
  match own k PRODUCT_MAPPING with
  | Some i => Some (Entry i)
  | None =>
      if existsb (String.eqb k) Object_prototype_keys
      then Some ProtoMember else None
  end.

(** The loop over [Object.entries(PRODUCT_MAPPING)]. *)
Fixpoint partialMatch (product : string) (entries : list (string * ProductInfo))
  : option ProductInfo :=
  match entries with
  | [] => None
  | (key, value) :: rest =>
      if negb (String.eqb key "default") && includes product key
      then Some value
      else partialMatch product rest
  end.

Definition getProductInfo (productName : jsval) : InfoResult :=
  match productName with
  | JStr s =>
      if negb (truthy productName) then Entry PRODUCT_MAPPING_default
      else
        let product := trim (toLowerCase s) in
        match PRODUCT_MAPPING_get product with
        | Some r => r
        | None =>
            match partialMatch product PRODUCT_MAPPING with
            | Some value => Entry value
            | None => Entry PRODUCT_MAPPING_default
            end
        end
  | _ => Entry PRODUCT_MAPPING_default
  end.

(** *** extractPrice *)

(** [parseFloat(x.toFixed(2))]: two decimals, ties away from zero; from
    1e21 on, [toFixed] prints the number itself. *)
Definition toFixed2 (q : Q) : Q :=
  if Qleb (inject_Z (10 ^ 21)) (Qabs q) then q
  else
    let n := Qfloor (Qabs q * 100 + (1 # 2)) in
    if Qltb q 0 then Qmake (- n) 100 else Qmake n 100.

Definition digit_val (c : ascii) : Z := Z.of_N (code c) - 48.

(** Longest prefix of decimal digits: its value, its length, the rest. *)
Fixpoint digits (s : string) (acc : Z) (len : nat) : Z * nat * string :=
  match s with
  | String c s' =>
      if is_digit c then digits s' (acc * 10 + digit_val c) (S len)
      else (acc, len, s)
  | EmptyString => (acc, len, s)
  end.

(** [parseFloat] of the captured group (digits, an optional point, more
    digits) matched at the head of [s]. *)
Definition decimalAt (s : string) : Q :=
  let '(ip, _, rest) := digits s 0 0%nat in
  match rest with
  | String "." rest' =>
      let '(fp, k, _) := digits rest' 0 0%nat in
      Qmake (ip * 10 ^ Z.of_nat k + fp) (Z.to_pos (10 ^ Z.of_nat k))
  | _ => inject_Z ip
  end.

(** [text.match(REGEX.PRICE)]: an optional dollar sign, then the captured
    group; the group starts at the first digit of the text. *)
Fixpoint matchPrice (text : string) : option Q :=
  match text with
  | EmptyString => None
  | String c text' =>
      if is_digit c then Some (decimalAt text) else matchPrice text'
  end.

Definition extractPrice (text : jsval) : jsnum :=
  match text with
  | JNum NaN => NaN
  | JNum (Num q) => Num (toFixed2 q)
  | JStr s =>
      match matchPrice s with
      | Some q => Num q
      | None => Num 0
      end
  | _ => Num 0
  end.

(** *** calculatePercentageChange *)

Definition calculatePercentageChange (current previous : Q) : Q :=
  if Qis0 previous then (if Qltb 0 current then 100 else 0)
  else ((current - previous) / previous) * 100.

(** *** calculateStats *)

Record Stats : Type := mkStats
  { st_count : nat; st_sum : Q; st_average : Q;
    st_min : Q; st_max : Q; st_median : Q }.

Fixpoint insert_sorted (x : Q) (l : list Q) : list Q :=
  match l with
  | [] => [x]
  | y :: l' => if Qltb x y then x :: l else y :: insert_sorted x l'
  end.

(** [[...numbers].sort((a, b) => a - b)] (the sort is stable). *)
Definition sort_numbers (l : list Q) : list Q :=
  fold_left (fun acc x => insert_sorted x acc) l [].

(** [numbers.reduce((acc, val) => acc + val, 0)] *)
Definition sum_numbers (l : list Q) : Q :=
  fold_left (fun acc val => acc + val)%Q l 0%Q.

(** [sum], [average] and the median of an even count are the exact sum
    and quotients of the numbers; the source rounds each addition and
    division to a double. *)
Definition calculateStats (numbers : list Q) : Stats :=
  match numbers with
  | [] => mkStats 0 0 0 0 0 0
  | _ =>
      let sorted := sort_numbers numbers in
      let sum := sum_numbers numbers in
      let count := length numbers in
      mkStats count sum (sum / inject_Z (Z.of_nat count))
        (nth 0 sorted 0%Q)
        (nth (length sorted - 1) sorted 0%Q)
        (if Nat.even count
         then (nth (count / 2 - 1) sorted 0%Q + nth (count / 2) sorted 0%Q) / 2
         else nth (count / 2) sorted 0%Q)%Q
  end.

(** Each number is at most every later one. *)
Fixpoint ascending (l : list Q) : Prop :=
  match l with
  | [] => True
  | a :: rest => Forall (fun b => (a <= b)%Q) rest /\ ascending rest
  end.

(** *** Dates, validateSaleData, time periods *)

Section WithHost.
Context `{Host}.

(** ToNumber. *)
Definition ToNumber (v : jsval) : jsnum :=
  match v with
  | JUndefined => NaN
  | JNull => Num 0
  | JBool b => Num (if b then 1 else 0)
  | JNum n => n
  | JStr s => StringToNumber s
  | JArr _ | JObj _ => StringToNumber (objToString v)
  end.

(** TimeClip: a finite number within 8.64e15 of the epoch, truncated. *)
Definition TimeClip (n : jsnum) : option Z :=
  match n with
  | NaN => None
  | Num q =>
      if Qleb (Qabs q) (inject_Z 8640000000000000) then Some (Qtrunc q)
      else None
  end.

(** [new Date(v).getTime()]; [None] is an invalid date. *)
Definition newDate (v : jsval) : option Z :=
  match v with
  | JStr s => Date_parse s
  | JArr _ | JObj _ => Date_parse (objToString v)
  | _ => TimeClip (ToNumber v)
  end.

Definition name_char (c : ascii) : bool :=
  is_alpha c || is_digit c || is_space c
  || Ascii.eqb c "-" || Ascii.eqb c "_".

(** [REGEX.PRODUCT_NAME.test(s)]: one to fifty characters, each a letter,
    a digit, white space, a hyphen or an underscore. *)
Definition PRODUCT_NAME_test (s : string) : bool :=
  let n := String.length s in
  (1 <=? n)%nat && (n <=? 50)%nat && forallb_str name_char s.

Definition validateSaleData (sale : jsval) : list string :=
  if negb (truthy sale) || negb (jstype_eqb (typeof sale) TObject)
  then ["Sale must be an object"]
  else
    (let productName := get sale "productName" in
     if negb (truthy productName)
        || negb (jstype_eqb (typeof productName) TString)
     then ["Product name is required and must be a string"]
     else
       match productName with
       | JStr s =>
           if negb (PRODUCT_NAME_test s)
           then ["Product name contains invalid characters"] else []
       | _ => []
       end)
    ++
    (if negb (is_undefined (get sale "price")) then
       let price := extractPrice (get sale "price") in
       if isNaN price || lt price (Num 0)
       then ["Price must be a valid positive number"] else []
     else [])
    ++
    (if negb (is_undefined (get sale "timestamp")) then
       match newDate (get sale "timestamp") with
       | None => ["Timestamp must be a valid date"]
       | Some _ => []
       end
     else []).

(** [getTimePeriod(period)], read at the instant [now]: [(start, end)]. *)
Definition getTimePeriod (period : string) (now : Z) : Z * Z :=
  let today := makeDate (getFullYear now) (getMonth now) (getDate now) in
  if String.eqb period TIME_PERIODS.TODAY then (today, now)
  else if String.eqb period TIME_PERIODS.WEEK then
    (makeDate (getFullYear today) (getMonth today) (getDate today - 7), now)
  else if String.eqb period TIME_PERIODS.MONTH then
    (makeDate (getFullYear today) (getMonth today - 1) (getDate today), now)
  else (0, now).

(** [timestamp >= start && timestamp <= end] *)
Definition inWindow (timestamp : jsval) (start end_ : Z) : bool :=
  let t := ToNumber timestamp in
  le (Num (inject_Z start)) t && le t (Num (inject_Z end_)).

Definition filterByTimePeriod {A : Type} (timestampOf : A -> jsval)
  (data : list A) (period : string) (now : Z) : list A :=
  let '(start, end_) := getTimePeriod period now in
  List.filter (fun item => inWindow (timestampOf item) start end_) data.

End WithHost.

End Helpers.

(** ** Enriched sales *)

Module Sales.
Import JS.

(** An enriched sale: the own properties of the raw payload (spread
    first) and the fields [enrichSaleData] sets over them. *)
Record Sale : Type := mkSale {
  sale_raw : list (string * jsval);
  sale_id : jsval;
  sale_timestamp : jsval;
  sale_date : option string;
  sale_hour : option Z;
  sale_dayOfWeek : option Z;
  sale_weekOfYear : option Z;
  sale_month : option Z;
  sale_year : option Z;
  sale_price : Q;
  sale_category : option string;
  sale_emoji : option string;
  sale_color : option string
}.

(** [sale.productName]: untouched by enrichment, so the raw one. *)
Definition sale_productName (s : Sale) : jsval :=
  match assoc "productName" (sale_raw s) with
  | Some v => v
  | None => JUndefined
  end.

(** [x || 0] for a finite number. *)
Definition Qor0 (q : Q) : Q := if Qis0 q then 0%Q else q.

End Sales.

(** ** Storage manager *)

Module Storage.
Import JS Constants Sales.

(** What [storage.addSale] writes: the sale with [id], [timestamp] and
    [date] set over it. *)
Record StoredSale : Type := mkStored {
  stored_sale : Sale;
  stored_id : Q;
  stored_timestamp : jsval;
  stored_date : option string
}.

(** [db] is the ['sales'] object store once the database is open;
    [localSales] is the value under [STORAGE_KEYS.SALES_DATA], [None] when
    the key is absent. *)
Record StorageManager : Type := mkStorage {
  isLocalStorageSupported : bool;
  isIndexedDBSupported : bool;
  db : option (list StoredSale);
  localSales : option (list StoredSale)
}.

(** How one [localStorage.setItem] ends. *)
Inductive SetItemOutcome : Type :=
| SetOk
| SetQuotaExceeded
| SetOtherError.

(** The backends' answers during one operation: whether the IndexedDB
    request succeeds, and how the successive [localStorage.setItem] calls
    end; once the list is used up every further call exceeds the quota. *)
Record StorageEnv : Type := mkEnv {
  idbAddOk : bool;
  lsWrites : list SetItemOutcome
}.

Definition getItem_sales (st : StorageManager) : list StoredSale :=
  if isLocalStorageSupported st then
    match localSales st with
    | Some l => l
    | None => []
    end
  else [].

Definition write_sales (st : StorageManager) (value : list StoredSale)
  : StorageManager :=
  mkStorage (isLocalStorageSupported st) (isIndexedDBSupported st)
    (db st) (Some value).

(** [l.slice(-n)] *)
Definition lastn {A : Type} (n : nat) (l : list A) : list A :=
  List.skipn (length l - n) l.

(** [setItem(STORAGE_KEYS.SALES_DATA, value)], with the quota handler it
    calls.  [None]: the handler calls back into [setItem] without end and
    the call leaves by a [RangeError]. *)
Fixpoint setItem_sales (outcomes : list SetItemOutcome) (st : StorageManager)
  (value : list StoredSale) : option (StorageManager * bool) :=
  if negb (isLocalStorageSupported st) then Some (st, false)
  else
    match outcomes with
    | SetOk :: _ => Some (write_sales st value, true)
    | SetOtherError :: _ => Some (st, false)
    | SetQuotaExceeded :: rest =>
        let salesData := getItem_sales st in
        if (100 <? length salesData)%nat then
          match setItem_sales rest st (lastn 50 salesData) with
          | Some (st', _) => Some (st', false)
          | None => None
          end
        else Some (st, false)
    | [] =>
        if (100 <? length (getItem_sales st))%nat then None
        else Some (st, false)
    end.

Section WithHost.
Context `{Host}.

(** [storage.addSale(sale)] at instant [now], [rnd] being [Math.random()].
    [None]: the call throws. *)
Definition addSale (st : StorageManager) (sale : Sale) (now : Z) (rnd : Q)
  (env : StorageEnv) : option (StorageManager * bool) :=
  let timestamp := or_else (sale_timestamp sale) (JNum (Num (inject_Z now))) in
  let saleData :=
    mkStored sale (inject_Z now + rnd) timestamp
      (match Helpers.newDate timestamp with
       | Some t => Some (toDateString t)
       | None => None
       end) in
  let fallback :=
    let salesData := (getItem_sales st ++ [saleData])%list in
    let salesData :=
      if (MAX_FEED_ITEMS * 2 <? length salesData)%nat
      then lastn MAX_FEED_ITEMS salesData else salesData in
    setItem_sales (lsWrites env) st salesData in
  if isIndexedDBSupported st then
    match db st with
    | Some store =>
        if idbAddOk env then
          Some (mkStorage (isLocalStorageSupported st)
                  (isIndexedDBSupported st) (Some (store ++ [saleData])%list)
                  (localSales st), true)
        else fallback
    | None => fallback
    end
  else fallback.

(** The record [addSale] builds for [sale]. *)
Definition saleData (sale : Sale) (now : Z) (rnd : Q) : StoredSale :=
  let timestamp := or_else (sale_timestamp sale) (JNum (Num (inject_Z now))) in
  mkStored sale (inject_Z now + rnd) timestamp
    (match Helpers.newDate timestamp with
     | Some t => Some (toDateString t)
     | None => None
     end).

End WithHost.

(** The IndexedDB store does not take the sale: the backend is missing,
    the database is not open, or the request fails. *)
Definition falls_back (st : StorageManager) (env : StorageEnv) : Prop :=
  isIndexedDBSupported st = false \/ db st = None \/ idbAddOk env = false.

End Storage.

(** ** Analytics manager *)

Module Analytics.
Import JS Constants Sales Helpers.

Record Change : Type := mkChange
  { current : Q; previous : Q; change : Q }.

Record Comparison : Type := mkComparison
  { cmp_sales : Change; cmp_revenue : Change; cmp_averagePurchase : Change }.

(** The presentation-facing fields of a snapshot ([topProducts],
    [topCategories], [hourlyDistribution], [dailyDistribution],
    [timeSeriesData], [productStats], [categoryStats], [insights]) are
    computed from the filtered data and the period alone; they are kept as
    one component, [emptyView] being their initial value. *)
Class Presentation : Type := {
  View : Type;
  emptyView : View;
  deriveView : list Sale -> string -> View
}.

Section Engine.
Context `{Host} `{Presentation}.

Record Snapshot : Type := mkSnapshot {
  period : string;
  totalSales : nat;
  totalRevenue : Q;
  averagePurchase : Q;
  minPurchase : option Q;
  maxPurchase : option Q;
  medianPurchase : option Q;
  view : View;
  comparisonToPrevious : option Comparison
}.

Record CacheEntry : Type := mkEntry
  { data : Snapshot; timestamp : Z }.

Record AnalyticsManager : Type := mkManager {
  salesData : list Sale;
  cache : gmap string CacheEntry;
  cacheExpiry : Z;
  lastUpdate : Z;
  storage : Storage.StorageManager
}.

(** [new AnalyticsManager()], writing through [storage]. *)
Definition new_manager (storage : Storage.StorageManager) : AnalyticsManager :=
  mkManager [] ∅ CACHE_EXPIRY 0 storage.

(** What one [addSale] reads from its environment: the clock, the
    identifier [generateId('sale')] makes, [Math.random()] as drawn by the
    storage manager, and the answers of the storage backends. *)
Record AddEnv : Type := mkAddEnv {
  env_now : Z;
  env_freshId : string;
  env_random : Q;
  env_storage : Storage.StorageEnv
}.

Definition day_ms : Z := 24 * 60 * 60 * 1000.

Definition getWeekOfYear (t : Z) : Z :=
  let yearStart := makeDate (getFullYear t) 0 1 in
  let weekStart := yearStart + (7 - getDay yearStart) * day_ms in
  let daysSinceWeekStart := (t - weekStart) / day_ms in
  daysSinceWeekStart / 7 + 1.

Definition own_properties (v : jsval) : list (string * jsval) :=
  match v with
  | JObj fs => fs
  | _ => []
  end.

Definition enrichSaleData (sale : jsval) (now : Z) (freshId : string) : Sale :=
  let timestamp := or_else (get sale "timestamp") (JNum (Num (inject_Z now))) in
  let date := newDate timestamp in
  let productInfo := getProductInfo (get sale "productName") in
  mkSale
    (own_properties sale)
    (or_else (get sale "id") (JStr freshId))
    timestamp
    (option_map toDateString date)
    (option_map getHours date)
    (option_map getDay date)
    (option_map getWeekOfYear date)
    (option_map getMonth date)
    (option_map getFullYear date)
    (num_or (extractPrice (get sale "price")) 0)
    (info_category productInfo)
    (info_emoji productInfo)
    (info_color productInfo).

Definition invalidateCache (m : AnalyticsManager) : AnalyticsManager :=
  mkManager (salesData m) ∅ (cacheExpiry m) (lastUpdate m) (storage m).

(** [addSale] up to its [await]: [None] when validation rejects the
    sale, otherwise the manager with the sale in front of the working set
    and the answer of [storage.addSale] ([None]: it threw). *)
Definition addSale_start (m : AnalyticsManager) (sale : jsval) (env : AddEnv)
  : option (AnalyticsManager * option bool) :=
  match validateSaleData sale with
  | _ :: _ => None
  | [] =>
      let enrichedSale := enrichSaleData sale (env_now env) (env_freshId env) in
      let salesData' := enrichedSale :: salesData m in
      match Storage.addSale (storage m) enrichedSale (env_now env)
              (env_random env) (env_storage env) with
      | Some (storage', ok) =>
          Some (mkManager salesData' (cache m) (cacheExpiry m)
                  (lastUpdate m) storage', Some ok)
      | None =>
          Some (mkManager salesData' (cache m) (cacheExpiry m)
                  (lastUpdate m) (storage m), None)
      end
  end.

(** [addSale] from its [await] on. *)
Definition addSale_resume (m : AnalyticsManager) (persisted : option bool)
  : AnalyticsManager * bool :=
  match persisted with
  | Some _ => (invalidateCache m, true)
  | None => (m, false)
  end.

Definition addSale (m : AnalyticsManager) (sale : jsval) (env : AddEnv)
  : AnalyticsManager * bool :=
  match addSale_start m sale env with
  | None => (m, false)
  | Some (m', persisted) => addSale_resume m' persisted
  end.

Definition calculateBasicStats (data : list Sale) : nat * Q * Q :=
  let count := length data in
  let revenue :=
    fold_left (fun sum sale => sum + Qor0 (sale_price sale))%Q data 0%Q in
  let average :=
    if (0 <? count)%nat then (revenue / inject_Z (Z.of_nat count))%Q else 0%Q in
  (count, revenue, average).

(** The local midnight of the day before is taken directly; the source
    goes through the same instant of the day before. *)
Definition getPreviousPeriodData (m : AnalyticsManager) (period : string)
  (now : Z) : list Sale :=
  let between startTime endTime :=
    List.filter
      (fun sale =>
         let t := ToNumber (sale_timestamp sale) in
         le (Num (inject_Z startTime)) t && lt t (Num (inject_Z endTime)))
      (salesData m) in
  if String.eqb period TIME_PERIODS.TODAY then
    let yesterday :=
      makeDate (getFullYear now) (getMonth now) (getDate now - 1) in
    let startTime :=
      makeDate (getFullYear yesterday) (getMonth yesterday)
        (getDate yesterday) in
    between startTime (startTime + day_ms)
  else if String.eqb period TIME_PERIODS.WEEK then
    let endTime := now - 7 * day_ms in
    between (endTime - 7 * day_ms) endTime
  else if String.eqb period TIME_PERIODS.MONTH then
    let endTime := now - 30 * day_ms in
    between (endTime - 30 * day_ms) endTime
  else [].

Definition compare (current previous : Q) : Change :=
  mkChange current previous (calculatePercentageChange current previous).

Definition getComparisonToPrevious (m : AnalyticsManager) (period : string)
  (now : Z) : option Comparison :=
  let currentData := filterByTimePeriod sale_timestamp (salesData m) period now in
  let previousPeriodData := getPreviousPeriodData m period now in
  match previousPeriodData with
  | [] => None
  | _ =>
      let '(ccount, crevenue, caverage) := calculateBasicStats currentData in
      let '(pcount, prevenue, paverage) :=
        calculateBasicStats previousPeriodData in
      Some (mkComparison
              (compare (inject_Z (Z.of_nat ccount)) (inject_Z (Z.of_nat pcount)))
              (compare crevenue prevenue)
              (compare caverage paverage))
  end.

Definition calculateAnalytics (m : AnalyticsManager) (data : list Sale)
  (period : string) (now : Z) : Snapshot :=
  match data with
  | [] => mkSnapshot period 0 0 0 None None None emptyView None
  | _ =>
      let prices := map (fun sale => Qor0 (sale_price sale)) data in
      let stats := calculateStats prices in
      mkSnapshot period (length data)
        (st_sum stats) (st_average stats)
        (Some (st_min stats)) (Some (st_max stats)) (Some (st_median stats))
        (deriveView data period)
        (getComparisonToPrevious m period now)
  end.

Definition cacheKey (period : string) : string := "analytics_" ++ period.

Definition getAnalytics (m : AnalyticsManager) (period : string)
  (useCache : bool) (now : Z) : AnalyticsManager * Snapshot :=
  let fresh :=
    let filteredData :=
      filterByTimePeriod sale_timestamp (salesData m) period now in
    let analytics := calculateAnalytics m filteredData period now in
    (mkManager (salesData m)
       (<[cacheKey period := mkEntry analytics now]> (cache m))
       (cacheExpiry m) (lastUpdate m) (storage m),
     analytics) in
  if useCache then
    match cache m !! cacheKey period with
    | Some cached =>
        if (now - timestamp cached <? cacheExpiry m)%Z then (m, data cached)
        else fresh
    | None => fresh
    end
  else fresh.

(** Sales handed to [addSale] one after the other, each call run to its
    end before the next. *)
Definition ingest (m : AnalyticsManager) (events : list (jsval * AddEnv))
  : AnalyticsManager :=
  fold_left (fun acc event => fst (addSale acc (fst event) (snd event)))
    events m.

(** The price [enrichSaleData] gives the sale of an event. *)
Definition enrichedPrice (event : jsval * AddEnv) : Q :=
  sale_price
    (enrichSaleData (fst event) (env_now (snd event)) (env_freshId (snd event))).

(** The timestamp of the payload is absent, or a number from the epoch
    on and not after [now]. *)
Definition timely (sale : jsval) (now : Z) : Prop :=
  get sale "timestamp" = JUndefined
  \/ exists q : Q,
      get sale "timestamp" = JNum (Num q)
      /\ (0 <= q)%Q /\ (q <= inject_Z now)%Q.

(** An event whose payload passes validation, whose timestamp is
    [timely], and which is ingested at an instant from the epoch on and not
    after [now]. *)
Definition acceptable (now : Z) (event : jsval * AddEnv) : Prop :=
  validateSaleData (fst event) = []
  /\ timely (fst event) now
  /\ (0 <= env_now (snd event) <= now)%Z.

(** *** Reads beside [getAnalytics] *)

Record RealTimeStats : Type := mkRealTime {
  rt_totalSales : nat;
  rt_salesLast24Hours : nat;
  rt_salesLastHour : nat;
  rt_totalRevenue : Q;
  rt_revenueLast24Hours : Q;
  rt_lastSaleTime : option jsval;
  rt_isActive : bool
}.

(** [now - sale.timestamp < span] *)
Definition within (now span : Z) (sale : Sale) : bool :=
  lt (sub (Num (inject_Z now)) (ToNumber (sale_timestamp sale)))
    (Num (inject_Z span)).

(** [data.reduce((sum, sale) => sum + (sale.price || 0), 0)] *)
Definition revenue (data : list Sale) : Q :=
  fold_left (fun sum sale => sum + Qor0 (sale_price sale))%Q data 0%Q.

Definition getRealTimeStats (m : AnalyticsManager) (now : Z) : RealTimeStats :=
  let last24Hours := List.filter (within now (24 * 60 * 60 * 1000)) (salesData m) in
  let lastHour := List.filter (within now (60 * 60 * 1000)) (salesData m) in
  mkRealTime (length (salesData m)) (length last24Hours) (length lastHour)
    (revenue (salesData m)) (revenue last24Hours)
    (match salesData m with
     | sale :: _ => Some (sale_timestamp sale)
     | [] => None
     end)
    (0 <? length lastHour)%nat.

(** [clearExpiredCache()] at instant [now]: an entry goes when
    [now - value.timestamp > this.cacheExpiry]. *)
Definition clearExpiredCache (m : AnalyticsManager) (now : Z) : AnalyticsManager :=
  mkManager (salesData m)
    (filter (fun kv : string * CacheEntry =>
               (now - timestamp (snd kv) <= cacheExpiry m)%Z) (cache m))
    (cacheExpiry m) (lastUpdate m) (storage m).

(** Every sale of the list has a price that is not negative. *)
Definition prices_not_negative (l : list Sale) : Prop :=
  Forall (fun sale => (0 <= sale_price sale)%Q) l.

End Engine.

(** The percent change reported in a comparison block. *)
Definition percent_rule (c : Change) : Prop :=
  ((previous c == 0)%Q -> (0 < current c)%Q -> change c = 100%Q)
  /\ ((previous c == 0)%Q -> ~ (0 < current c)%Q -> change c = 0%Q)
  /\ (~ (previous c == 0)%Q ->
      change c = ((current c - previous c) / previous c * 100)%Q).

End Analytics.

(** ** Inventory manager *)

Module Inventory.
Import JS Constants Helpers.

Record Product : Type := mkProduct {
  id : string;
  name : string;
  currentStock : jsnum;
  minStock : jsnum;
  maxStock : jsnum;
  price : jsnum;
  category : string;
  supplier : string;
  lastRestocked : Z;
  lastUpdated : Z;
  isActive : bool;
  totalSales : jsnum;
  emoji : option string;
  color : option string
}.

(** The argument of [addProduct]; [None] is an absent property. *)
Record ProductData : Type := mkData {
  pd_id : option string;
  pd_name : jsval;
  pd_currentStock : option jsnum;
  pd_minStock : option jsnum;
  pd_maxStock : option jsnum;
  pd_price : option jsnum;
  pd_category : option string;
  pd_supplier : option string;
  pd_lastRestocked : option Z;
  pd_isActive : option bool;
  pd_totalSales : option jsnum
}.

(** The notifications the manager raises, by kind and subject (their
    wording is the notification layer's). *)
Inductive Notification : Type :=
| ProductAdded (product : string)
| AddProductFailed
| UpdateStockFailed
| OutOfStockAlert (product : string)
| LowStockAlert (product : string) (stock : jsnum).

(** [inventory] is the [Map], in insertion order; [saved] is what
    [saveInventoryData] last wrote; [shown] lists the notifications
    raised, oldest first. *)
Record InventoryManager : Type := mkInventory {
  inventory : list (string * Product);
  stockAlerts : gmap string Z;
  lowStockThreshold : Q;
  outOfStockThreshold : Q;
  autoTrackEnabled : bool;
  saved : option (list Product);
  shown : list Notification
}.

(** What one operation reads from its environment: the clock, the
    identifier [generateId('product')] makes, the [lowStockAlerts]
    setting, and whether the write to storage succeeds. *)
Record InvEnv : Type := mkInvEnv {
  inv_now : Z;
  inv_freshId : string;
  inv_lowStockAlerts : bool;
  inv_saveOk : bool
}.

Definition new_inventory : InventoryManager :=
  mkInventory [] ∅ 5 0 true None [].

Fixpoint map_get (k : string) (m : list (string * Product)) : option Product :=
  match m with
  | [] => None
  | (k', v) :: m' => if String.eqb k k' then Some v else map_get k m'
  end.

(** [Map.prototype.set]: in place for a known key, at the end otherwise. *)
Fixpoint map_set (k : string) (v : Product) (m : list (string * Product))
  : list (string * Product) :=
  match m with
  | [] => [(k, v)]
  | (k', v') :: m' =>
      if String.eqb k k' then (k, v) :: m' else (k', v') :: map_set k v m'
  end.

Definition values (m : list (string * Product)) : list Product := map snd m.

Definition with_inventory (st : InventoryManager)
  (inv : list (string * Product)) : InventoryManager :=
  mkInventory inv (stockAlerts st) (lowStockThreshold st)
    (outOfStockThreshold st) (autoTrackEnabled st) (saved st) (shown st).

Definition notify (st : InventoryManager) (n : Notification) : InventoryManager :=
  mkInventory (inventory st) (stockAlerts st) (lowStockThreshold st)
    (outOfStockThreshold st) (autoTrackEnabled st) (saved st)
    (shown st ++ [n])%list.

Definition saveInventoryData (st : InventoryManager) (env : InvEnv)
  : InventoryManager :=
  if inv_saveOk env then
    mkInventory (inventory st) (stockAlerts st) (lowStockThreshold st)
      (outOfStockThreshold st) (autoTrackEnabled st)
      (Some (values (inventory st))) (shown st)
  else st.

Definition set_alert (st : InventoryManager) (k : string) (t : Z)
  : InventoryManager :=
  mkInventory (inventory st) (<[k := t]> (stockAlerts st))
    (lowStockThreshold st) (outOfStockThreshold st) (autoTrackEnabled st)
    (saved st) (shown st).

Definition alertCooldown : Z := 30 * 60 * 1000.

Definition checkStockLevel (st : InventoryManager) (product : Product)
  (env : InvEnv) : InventoryManager :=
  if negb (inv_lowStockAlerts env) then st
  else
    let recently :=
      match stockAlerts st !! id product with
      | Some lastAlert =>
          negb (lastAlert =? 0)%Z && (inv_now env - lastAlert <? alertCooldown)%Z
      | None => false
      end in
    if recently then st
    else if le (currentStock product) (Num (outOfStockThreshold st)) then
      set_alert (notify st (OutOfStockAlert (name product)))
        (id product) (inv_now env)
    else if le (currentStock product)
              (Num (num_or (minStock product) (lowStockThreshold st))) then
      set_alert (notify st (LowStockAlert (name product) (currentStock product)))
        (id product) (inv_now env)
    else st.

Definition is_blank (s : string) : bool :=
  (String.length (trim s) =? 0)%nat.

Definition validateProductData (product : Product) : list string :=
  (if negb (truthy (JStr (name product))) || is_blank (name product)
   then ["Product name is required"] else [])
  ++ (if lt (currentStock product) (Num 0)
      then ["Current stock cannot be negative"] else [])
  ++ (if lt (price product) (Num 0)
      then ["Price cannot be negative"] else [])
  ++ (if lt (minStock product) (Num 0)
      then ["Minimum stock cannot be negative"] else []).

Definition opt_parseInt (x : option jsnum) : jsnum :=
  match x with Some n => parseInt n | None => NaN end.

(** [parseFloat(x)] for a number or an absent property. *)
Definition opt_parseFloat (x : option jsnum) : jsnum :=
  match x with Some n => n | None => NaN end.

Definition str_or (x : option string) (d : string) : string :=
  match x with
  | Some s => if String.eqb s "" then d else s
  | None => d
  end.

(** The object literal of [addProduct]: the listed properties, then the
    spread of [getProductInfo(productData.name)] over them.  [None] when
    the name is not a string, for which validation throws or rejects. *)
Definition build_product (st : InventoryManager) (productData : ProductData)
  (env : InvEnv) : option Product :=
  match pd_name productData with
  | JStr n =>
      let info := getProductInfo (pd_name productData) in
      Some (mkProduct
        (str_or (pd_id productData) (inv_freshId env))
        n
        (Num (num_or (opt_parseInt (pd_currentStock productData)) 0))
        (Num (num_or (opt_parseInt (pd_minStock productData))
                (lowStockThreshold st)))
        (Num (num_or (opt_parseInt (pd_maxStock productData)) 100))
        (Num (num_or (opt_parseFloat (pd_price productData)) 0))
        (match info with
         | Entry i => Constants.category i
         | ProtoMember => str_or (pd_category productData) "other"
         end)
        (str_or (pd_supplier productData) "")
        (match pd_lastRestocked productData with
         | Some t => if (t =? 0)%Z then inv_now env else t
         | None => inv_now env
         end)
        (inv_now env)
        (match pd_isActive productData with
         | Some false => false
         | _ => true
         end)
        (match pd_totalSales productData with
         | Some n => Num (num_or n 0)
         | None => Num 0
         end)
        (info_emoji info)
        (info_color info))
  | _ => None
  end.

Definition addProduct (st : InventoryManager) (productData : ProductData)
  (env : InvEnv) : InventoryManager * option Product :=
  let failed := (notify st AddProductFailed, None) in
  match build_product st productData env with
  | None => failed
  | Some product =>
      match validateProductData product with
      | _ :: _ => failed
      | [] =>
          let st1 := with_inventory st (map_set (id product) product (inventory st)) in
          let st2 := saveInventoryData st1 env in
          let st3 := checkStockLevel st2 product env in
          (notify st3 (ProductAdded (name product)), Some product)
      end
  end.

Definition updateStock (st : InventoryManager) (productId : string)
  (newStock : jsnum) (reason : string) (env : InvEnv)
  : InventoryManager * option Product :=
  match map_get productId (inventory st) with
  | None =>
      (notify st UpdateStockFailed, None)
  | Some product =>
      let previousStock := currentStock product in
      let stockChange := sub newStock previousStock in
      let product' :=
        mkProduct (id product) (name product)
          (max (Num 0) (parseInt newStock))
          (minStock product) (maxStock product) (price product)
          (category product) (supplier product)
          (if lt (Num 0) stockChange && String.eqb reason "restock"
           then inv_now env else lastRestocked product)
          (inv_now env)
          (isActive product) (totalSales product)
          (emoji product) (color product) in
      let st1 := with_inventory st (map_set productId product' (inventory st)) in
      let st2 := saveInventoryData st1 env in
      let st3 := checkStockLevel st2 product' env in
      (st3, Some product')
  end.

(** [findProductByName]: the entry of the map that is found. *)
Definition findProductByName (st : InventoryManager) (productName : string)
  : option (string * Product) :=
  let normalizedName := trim (toLowerCase productName) in
  match
    List.find
      (fun kv => String.eqb (trim (toLowerCase (name (snd kv)))) normalizedName)
      (inventory st)
  with
  | Some kv => Some kv
  | None =>
      List.find
        (fun kv =>
           includes (toLowerCase (name (snd kv))) normalizedName
           || includes normalizedName (toLowerCase (name (snd kv))))
        (inventory st)
  end.

Definition add1 (n : jsnum) : jsnum :=
  match n with
  | NaN => NaN
  | Num q => Num (q + 1)
  end.

(** [handleSaleEvent(saleData)]; a product name that is truthy and not a
    string makes [findProductByName] throw, before any change. *)
Definition handleSaleEvent (st : InventoryManager) (saleData : jsval)
  (env : InvEnv) : InventoryManager :=
  let productName := get saleData "productName" in
  if negb (truthy productName) then st
  else
    match productName with
    | JStr pn =>
        match findProductByName st pn with
        | Some (key, product) =>
            let newStock := max (Num 0) (sub (currentStock product) (Num 1)) in
            let product' :=
              mkProduct (id product) (name product) (currentStock product)
                (minStock product) (maxStock product) (price product)
                (category product) (supplier product)
                (lastRestocked product) (lastUpdated product)
                (isActive product)
                (add1 (Num (num_or (totalSales product) 0)))
                (emoji product) (color product) in
            let st1 := with_inventory st (map_set key product' (inventory st)) in
            fst (updateStock st1 (id product) newStock "sale" env)
        | None =>
            if autoTrackEnabled st then
              fst (addProduct st
                     (mkData None productName (Some (Num 0)) None None
                        (Some (Num (num_or (extractPrice (get saleData "price")) 0)))
                        (info_category (getProductInfo productName))
                        None None None None)
                     env)
            else st
        end
    | _ => st
    end.

(** What the owner and the event bus ask of the manager. *)
Inductive Op : Type :=
| SaleEvent (saleData : jsval)
| UpdateStock (productId : string) (newStock : jsnum) (reason : string)
| AddProduct (productData : ProductData).

Definition apply (st : InventoryManager) (op : Op) (env : InvEnv)
  : InventoryManager :=
  match op with
  | SaleEvent saleData => handleSaleEvent st saleData env
  | UpdateStock productId newStock reason =>
      fst (updateStock st productId newStock reason env)
  | AddProduct productData => fst (addProduct st productData env)
  end.

Definition run (st : InventoryManager) (ops : list (Op * InvEnv))
  : InventoryManager :=
  fold_left (fun acc o => apply acc (fst o) (snd o)) ops st.

(** [n < 0] does not hold. *)
Definition not_negative (n : jsnum) : Prop := lt n (Num 0) = false.

Definition stocks_not_negative (st : InventoryManager) : Prop :=
  Forall (fun kv => not_negative (currentStock (snd kv))) (inventory st).

(** *** Removal, stock levels, statistics, import and search *)

(** [Map.prototype.delete] *)
Definition map_delete (k : string) (m : list (string * Product))
  : list (string * Product) :=
  List.filter (fun kv => negb (String.eqb k (fst kv))) m.

(** What [removeProduct] and [importInventory] show; it is returned
    beside their result. *)
Inductive Notice : Type :=
| ProductRemoved (product : string)
| RemoveProductFailed
| InventoryImported
| ImportFailed.

Definition removeProduct (st : InventoryManager) (productId : string)
  (env : InvEnv) : InventoryManager * bool * Notice :=
  match map_get productId (inventory st) with
  | None => (st, false, RemoveProductFailed)
  | Some product =>
      let st1 :=
        mkInventory (map_delete productId (inventory st))
          (delete productId (stockAlerts st))
          (lowStockThreshold st) (outOfStockThreshold st)
          (autoTrackEnabled st) (saved st) (shown st) in
      (saveInventoryData st1 env, true, ProductRemoved (name product))
  end.

Definition getStockLevel (st : InventoryManager) (product : Product) : string :=
  if le (currentStock product) (Num (outOfStockThreshold st)) then "out"
  else if le (currentStock product)
            (Num (num_or (minStock product) (lowStockThreshold st)))
  then "low"
  else "normal".

(** [a + b] and [a * b] on numbers. *)
Definition num_add (a b : jsnum) : jsnum :=
  match a, b with
  | Num x, Num y => Num (x + y)
  | _, _ => NaN
  end.

Definition num_mul (a b : jsnum) : jsnum :=
  match a, b with
  | Num x, Num y => Num (x * y)
  | _, _ => NaN
  end.

(** A value of the [categories] object: a count, or the text that
    [member + 1] is once the key names a member inherited from
    [Object.prototype]. *)
Inductive Tally : Type :=
| Count (n : nat)
| Text.

(** [categories[c] = (categories[c] || 0) + 1]; an assignment to
    [__proto__] of a value that is not an object changes nothing. *)
Definition tally (categories : gmap string Tally) (c : string)
  : gmap string Tally :=
  match categories !! c with
  | Some (Count n) => <[c := Count (S n)]> categories
  | Some Text => categories
  | None =>
      if existsb (String.eqb c) Object_prototype_keys then
        if String.eqb c "__proto__" then categories
        else <[c := Text]> categories
      else <[c := Count 1]> categories
  end.

Record InventoryStats : Type := mkInventoryStats {
  totalProducts : nat;
  totalStock : jsnum;
  totalValue : jsnum;
  lowStockCount : nat;
  outOfStockCount : nat;
  lowStockProducts : list (string * jsnum * jsnum);
  outOfStockProducts : list string;
  categories : gmap string Tally;
  (** [Math.max(...)] of the update stamps; [None] is [-Infinity]. *)
  stats_lastUpdated : option Z
}.

Definition is_low (st : InventoryManager) (p : Product) : bool :=
  le (currentStock p) (Num (num_or (minStock p) (lowStockThreshold st))).

Definition is_out (st : InventoryManager) (p : Product) : bool :=
  le (currentStock p) (Num (outOfStockThreshold st)).

Definition getInventoryStats (st : InventoryManager) : InventoryStats :=
  let products := List.filter isActive (values (inventory st)) in
  let lowStock := List.filter (is_low st) products in
  let outOfStock := List.filter (is_out st) products in
  mkInventoryStats
    (length products)
    (fold_left (fun sum p => num_add sum (currentStock p)) products (Num 0))
    (fold_left (fun sum p => num_add sum (num_mul (currentStock p) (price p)))
       products (Num 0))
    (length lowStock)
    (length outOfStock)
    (map (fun p => (name p, currentStock p, minStock p)) lowStock)
    (map name outOfStock)
    (fold_left (fun acc p => tally acc (category p)) products ∅)
    (fold_left
       (fun acc p =>
          match acc with
          | Some t => Some (Z.max t (lastUpdated p))
          | None => Some (lastUpdated p)
          end)
       products None).

(** [exportInventory()] at instant [now], the instant standing for its
    ISO text. *)
Definition exportInventory (st : InventoryManager) (now : Z)
  : list Product * InventoryStats * Z :=
  (values (inventory st), getInventoryStats st, now).

Definition restamp (p : Product) (t : Z) : Product :=
  mkProduct (id p) (name p) (currentStock p) (minStock p) (maxStock p)
    (price p) (category p) (supplier p) (lastRestocked p) t
    (isActive p) (totalSales p) (emoji p) (color p).

(** [product.id || product.name] *)
Definition import_key (p : Product) : string :=
  if String.eqb (id p) "" then name p else id p.

(** The loop of [importInventory] from the record numbered [i] on,
    [clock i] being what [Date.now()] returns at that record. *)
Fixpoint import_records (records : list Product) (clock : nat -> Z) (i : nat)
  (inv : list (string * Product)) : list (string * Product) :=
  match records with
  | [] => inv
  | p :: rest =>
      import_records rest clock (S i)
        (map_set (import_key p) (restamp p (clock i)) inv)
  end.

(** [importInventory(data)] for [data.inventory] an array of product
    records, [None] standing for anything else. *)
Definition importInventory (st : InventoryManager)
  (data : option (list Product)) (clock : nat -> Z) (env : InvEnv)
  : InventoryManager * bool * Notice :=
  match data with
  | Some records =>
      let st1 := with_inventory st (import_records records clock 0 []) in
      (saveInventoryData st1 env, true, InventoryImported)
  | None => (st, false, ImportFailed)
  end.

Definition searchProducts (st : InventoryManager) (query : string)
  : list Product :=
  let normalizedQuery := trim (toLowerCase query) in
  List.filter
    (fun product =>
       includes (toLowerCase (name product)) normalizedQuery
       || includes (toLowerCase (category product)) normalizedQuery)
    (values (inventory st)).

(** Every record is stored under its own identifier, and no identifier
    is used twice. *)
Definition keyed (inv : list (string * Product)) : Prop :=
  Forall (fun kv => id (snd kv) = fst kv) inv /\ NoDup (map fst inv).

(** The name as the exact comparison of [findProductByName] reads it. *)
Definition normalized (s : string) : string := trim (toLowerCase s).

(** The alerts among the notifications raised. *)
Definition is_alert (n : Notification) : bool :=
  match n with
  | OutOfStockAlert _ | LowStockAlert _ _ => true
  | _ => false
  end.

Definition alerts (st : InventoryManager) : list Notification :=
  List.filter is_alert (shown st).

End Inventory.

(** ** WebSocket manager *)

Module WebSocket.
Import JS Constants Helpers.

Inductive ReadyState : Type :=
| SOCK_CONNECTING | SOCK_OPEN | SOCK_CLOSING | SOCK_CLOSED.

(** The callbacks the manager hands to [setTimeout] and [setInterval]. *)
Inductive TimerKind : Type :=
| ConnectionTimeout
| ReconnectTimer
| HeartbeatInterval
| DeferredConnect.

Record Timer : Type := mkTimer
  { timer_id : nat; timer_kind : TimerKind; timer_delay : Q }.

(** The events dispatched to subscribers. *)
Inductive Emitted : Type :=
| StateChange (state previousState : CONNECTION_STATES)
| Message (data : jsval) (raw : string) (timestamp : Z)
| Connected
| ErrorEvent
| Close
| MaxReconnectAttemptsReached.

(** The manager's fields, then its surroundings: the sockets made so far
    (a socket's handle is its index), the timers still pending, the next
    timer identifier, the events dispatched and the frames sent, oldest
    first. *)
Record World : Type := mkWorld {
  url : string;
  ws : option nat;
  connectionState : CONNECTION_STATES;
  reconnectAttempts : nat;
  maxReconnectAttempts : nat;
  reconnectDelay : Q;
  heartbeatInterval : option nat;
  heartbeatTimer : option nat;
  connectionTimeout : option nat;
  messageQueue : list jsval;
  isManualClose : bool;
  sockets : list ReadyState;
  timers : list Timer;
  nextTimer : nat;
  emitted : list Emitted;
  sent : list (nat * jsval)
}.

(** What a step reads from its environment: the clock, [Math.random()],
    and whether [new WebSocket(url)] throws. *)
Record Ctx : Type := mkCtx {
  at_now : Z;
  at_random : Q;
  at_ctorThrows : bool
}.

(** [new WebSocketManager(url)] with the given policy. *)
Definition new_world (url : string) (maxAttempts : nat) (delay : Q) : World :=
  mkWorld url None DISCONNECTED 0 maxAttempts delay None None None [] false
    [] [] 1 [] [].

Definition state_eqb (a b : CONNECTION_STATES) : bool :=
  match a, b with
  | CONNECTING, CONNECTING | CONNECTED, CONNECTED
  | DISCONNECTED, DISCONNECTED | RECONNECTING, RECONNECTING => true
  | _, _ => false
  end.

Definition ready_eqb (a b : ReadyState) : bool :=
  match a, b with
  | SOCK_CONNECTING, SOCK_CONNECTING | SOCK_OPEN, SOCK_OPEN
  | SOCK_CLOSING, SOCK_CLOSING | SOCK_CLOSED, SOCK_CLOSED => true
  | _, _ => false
  end.

(** *** Field updates *)

Definition set_ws (w : World) (x : option nat) : World :=
  mkWorld (url w) x (connectionState w) (reconnectAttempts w)
    (maxReconnectAttempts w) (reconnectDelay w) (heartbeatInterval w)
    (heartbeatTimer w) (connectionTimeout w) (messageQueue w)
    (isManualClose w) (sockets w) (timers w) (nextTimer w) (emitted w) (sent w).

Definition set_state (w : World) (x : CONNECTION_STATES) : World :=
  mkWorld (url w) (ws w) x (reconnectAttempts w)
    (maxReconnectAttempts w) (reconnectDelay w) (heartbeatInterval w)
    (heartbeatTimer w) (connectionTimeout w) (messageQueue w)
    (isManualClose w) (sockets w) (timers w) (nextTimer w) (emitted w) (sent w).

Definition set_attempts (w : World) (x : nat) : World :=
  mkWorld (url w) (ws w) (connectionState w) x
    (maxReconnectAttempts w) (reconnectDelay w) (heartbeatInterval w)
    (heartbeatTimer w) (connectionTimeout w) (messageQueue w)
    (isManualClose w) (sockets w) (timers w) (nextTimer w) (emitted w) (sent w).

Definition set_heartbeatInterval (w : World) (x : option nat) : World :=
  mkWorld (url w) (ws w) (connectionState w) (reconnectAttempts w)
    (maxReconnectAttempts w) (reconnectDelay w) x
    (heartbeatTimer w) (connectionTimeout w) (messageQueue w)
    (isManualClose w) (sockets w) (timers w) (nextTimer w) (emitted w) (sent w).

Definition set_heartbeatTimer (w : World) (x : option nat) : World :=
  mkWorld (url w) (ws w) (connectionState w) (reconnectAttempts w)
    (maxReconnectAttempts w) (reconnectDelay w) (heartbeatInterval w)
    x (connectionTimeout w) (messageQueue w)
    (isManualClose w) (sockets w) (timers w) (nextTimer w) (emitted w) (sent w).

Definition set_connectionTimeout (w : World) (x : option nat) : World :=
  mkWorld (url w) (ws w) (connectionState w) (reconnectAttempts w)
    (maxReconnectAttempts w) (reconnectDelay w) (heartbeatInterval w)
    (heartbeatTimer w) x (messageQueue w)
    (isManualClose w) (sockets w) (timers w) (nextTimer w) (emitted w) (sent w).

Definition set_messageQueue (w : World) (x : list jsval) : World :=
  mkWorld (url w) (ws w) (connectionState w) (reconnectAttempts w)
    (maxReconnectAttempts w) (reconnectDelay w) (heartbeatInterval w)
    (heartbeatTimer w) (connectionTimeout w) x
    (isManualClose w) (sockets w) (timers w) (nextTimer w) (emitted w) (sent w).

Definition set_isManualClose (w : World) (x : bool) : World :=
  mkWorld (url w) (ws w) (connectionState w) (reconnectAttempts w)
    (maxReconnectAttempts w) (reconnectDelay w) (heartbeatInterval w)
    (heartbeatTimer w) (connectionTimeout w) (messageQueue w)
    x (sockets w) (timers w) (nextTimer w) (emitted w) (sent w).

Definition set_sockets (w : World) (x : list ReadyState) : World :=
  mkWorld (url w) (ws w) (connectionState w) (reconnectAttempts w)
    (maxReconnectAttempts w) (reconnectDelay w) (heartbeatInterval w)
    (heartbeatTimer w) (connectionTimeout w) (messageQueue w)
    (isManualClose w) x (timers w) (nextTimer w) (emitted w) (sent w).

Definition set_timers (w : World) (x : list Timer) (next : nat) : World :=
  mkWorld (url w) (ws w) (connectionState w) (reconnectAttempts w)
    (maxReconnectAttempts w) (reconnectDelay w) (heartbeatInterval w)
    (heartbeatTimer w) (connectionTimeout w) (messageQueue w)
    (isManualClose w) (sockets w) x next (emitted w) (sent w).

Definition set_url (w : World) (x : string) : World :=
  mkWorld x (ws w) (connectionState w) (reconnectAttempts w)
    (maxReconnectAttempts w) (reconnectDelay w) (heartbeatInterval w)
    (heartbeatTimer w) (connectionTimeout w) (messageQueue w)
    (isManualClose w) (sockets w) (timers w) (nextTimer w) (emitted w) (sent w).

(** [dispatchEvent] *)
Definition emit (w : World) (e : Emitted) : World :=
  mkWorld (url w) (ws w) (connectionState w) (reconnectAttempts w)
    (maxReconnectAttempts w) (reconnectDelay w) (heartbeatInterval w)
    (heartbeatTimer w) (connectionTimeout w) (messageQueue w)
    (isManualClose w) (sockets w) (timers w) (nextTimer w)
    (emitted w ++ [e])%list (sent w).

Definition transmit (w : World) (h : nat) (frame : jsval) : World :=
  mkWorld (url w) (ws w) (connectionState w) (reconnectAttempts w)
    (maxReconnectAttempts w) (reconnectDelay w) (heartbeatInterval w)
    (heartbeatTimer w) (connectionTimeout w) (messageQueue w)
    (isManualClose w) (sockets w) (timers w) (nextTimer w) (emitted w)
    (sent w ++ [(h, frame)])%list.

(** *** Timers and sockets *)

(** [setTimeout] and [setInterval]: the identifier returned is fresh. *)
Definition schedule (w : World) (kind : TimerKind) (delay : Q) : World * nat :=
  (set_timers w (timers w ++ [mkTimer (nextTimer w) kind delay])%list
     (S (nextTimer w)),
   nextTimer w).

(** [clearTimeout] and [clearInterval] *)
Definition cancel (w : World) (i : nat) : World :=
  set_timers w
    (List.filter (fun t => negb (Nat.eqb (timer_id t) i)) (timers w))
    (nextTimer w).

Definition readyState (w : World) (h : nat) : ReadyState :=
  nth h (sockets w) SOCK_CLOSED.

Fixpoint update_nth {A : Type} (n : nat) (x : A) (l : list A) : list A :=
  match l, n with
  | [], _ => []
  | _ :: l', O => x :: l'
  | y :: l', S n' => y :: update_nth n' x l'
  end.

(** [socket.close()]: a socket that is connecting or open starts closing. *)
Definition close_socket (w : World) (h : nat) : World :=
  match readyState w h with
  | SOCK_CONNECTING | SOCK_OPEN =>
      set_sockets w (update_nth h SOCK_CLOSING (sockets w))
  | _ => w
  end.

Definition ws_is (w : World) (r : ReadyState) : bool :=
  match ws w with
  | Some h => ready_eqb (readyState w h) r
  | None => false
  end.

(** *** Methods *)

Definition setConnectionState (w : World) (state : CONNECTION_STATES) : World :=
  if state_eqb (connectionState w) state then w
  else emit (set_state w state) (StateChange state (connectionState w)).

Definition stopHeartbeat (w : World) : World :=
  let w1 :=
    match heartbeatInterval w with
    | Some i => set_heartbeatInterval (cancel w i) None
    | None => w
    end in
  match heartbeatTimer w1 with
  | Some i => set_heartbeatTimer (cancel w1 i) None
  | None => w1
  end.

Definition startHeartbeat (w : World) : World :=
  if (HEARTBEAT_INTERVAL =? 0)%Z then w
  else
    let '(w1, i) :=
      schedule (stopHeartbeat w) HeartbeatInterval (inject_Z HEARTBEAT_INTERVAL) in
    set_heartbeatInterval w1 (Some i).

Definition clearConnectionTimeout (w : World) : World :=
  match connectionTimeout w with
  | Some i => set_connectionTimeout (cancel w i) None
  | None => w
  end.

(** [Math.min(a, b)] *)
Definition Math_min (a b : Q) : Q := if Qleb a b then a else b.

(** The delay [handleReconnect] computes for the attempt numbered
    [attempt], [random] being [Math.random()]. *)
Definition backoff (reconnectDelay : Q) (attempt : nat) (random : Q) : Q :=
  Math_min
    (reconnectDelay * inject_Z (2 ^ Z.of_nat (attempt - 1)) + random * 1000)
    30000.

Definition handleReconnect (w : World) (random : Q) : World :=
  if isManualClose w then w
  else if (maxReconnectAttempts w <=? reconnectAttempts w)%nat then
    emit (setConnectionState w DISCONNECTED) MaxReconnectAttemptsReached
  else
    let w1 := set_attempts w (S (reconnectAttempts w)) in
    let w2 := setConnectionState w1 RECONNECTING in
    let delay := backoff (reconnectDelay w2) (reconnectAttempts w2) random in
    fst (schedule w2 ReconnectTimer delay).

Definition connect (w : World) (c : Ctx) : World :=
  if ws_is w SOCK_CONNECTING || ws_is w SOCK_OPEN then w
  else
    let w1 := set_isManualClose w false in
    let w2 := setConnectionState w1 CONNECTING in
    if at_ctorThrows c then handleReconnect w2 (at_random c)
    else
      let h := length (sockets w2) in
      let w3 := set_ws (set_sockets w2 (sockets w2 ++ [SOCK_CONNECTING])%list) (Some h) in
      let '(w4, i) := schedule w3 ConnectionTimeout 10000 in
      set_connectionTimeout w4 (Some i).

Definition disconnect (w : World) : World :=
  let w1 := set_isManualClose w true in
  let w2 := stopHeartbeat w1 in
  let w3 := clearConnectionTimeout w2 in
  let w4 :=
    match ws w3 with
    | Some h => set_ws (close_socket w3 h) None
    | None => w3
    end in
  setConnectionState w4 DISCONNECTED.

(** [send(data)]: the world and the value returned. *)
Definition send (w : World) (data : jsval) : World * bool :=
  match ws w with
  | Some h =>
      if ready_eqb (readyState w h) SOCK_OPEN then (transmit w h data, true)
      else (set_messageQueue w (messageQueue w ++ [data])%list, false)
  | None => (set_messageQueue w (messageQueue w ++ [data])%list, false)
  end.

(** The loop of [onOpen] over the queue.  With the socket open every
    message leaves; otherwise [send] puts each message back and the loop
    of the source does not end, which is left as the world unchanged. *)
Definition flushQueue (w : World) : World :=
  match ws w with
  | Some h =>
      if ready_eqb (readyState w h) SOCK_OPEN then
        fold_left (fun acc message => transmit acc h message)
          (messageQueue w) (set_messageQueue w [])
      else w
  | None => w
  end.

Definition onOpen (w : World) : World :=
  let w1 := clearConnectionTimeout w in
  let w2 := setConnectionState w1 CONNECTED in
  let w3 := set_attempts w2 0 in
  let w4 := startHeartbeat w3 in
  emit (flushQueue w4) Connected.

Section WithHost.
Context `{Host}.

(** [onMessage(event)]: [raw] is [event.data] and [json] what
    [JSON.parse(event.data)] returns, [None] when it throws. *)
Definition onMessage (w : World) (raw : string) (json : option jsval)
  (now : Z) : World :=
  let data :=
    match json with
    | Some v => v
    | None => JStr raw
    end in
  let looksLikeSale :=
    truthy data && jstype_eqb (typeof data) TObject
    && truthy (get data "productName") in
  if looksLikeSale then
    match validateSaleData data with
    | _ :: _ => w
    | [] => emit w (Message data raw now)
    end
  else emit w (Message data raw now).

End WithHost.

Definition onError (w : World) : World := emit w ErrorEvent.

Definition onClose (w : World) (random : Q) : World :=
  let w1 := stopHeartbeat w in
  let w2 := clearConnectionTimeout w1 in
  let w3 := emit w2 Close in
  if isManualClose w3 then w3 else handleReconnect w3 random.

Definition isConnected (w : World) : bool :=
  state_eqb (connectionState w) CONNECTED && ws_is w SOCK_OPEN.

Definition updateUrl (w : World) (newUrl : string) : World :=
  if String.eqb newUrl (url w) then w
  else
    let wasConnected := isConnected w in
    let w1 := set_url w newUrl in
    if wasConnected then fst (schedule (disconnect w1) DeferredConnect 1000)
    else w1.

Definition reset (w : World) (c : Ctx) : World :=
  let w1 := set_messageQueue (set_attempts w 0) [] in
  if isConnected w1 then fst (schedule (disconnect w1) DeferredConnect 1000)
  else connect w1 c.

Definition destroy (w : World) : World :=
  let w1 := set_isManualClose w true in
  let w2 := stopHeartbeat w1 in
  let w3 := disconnect w2 in
  set_messageQueue w3 [].

Definition ping (now : Z) : jsval :=
  JObj [("type", JStr "ping"); ("timestamp", JNum (Num (inject_Z now)))].

(** The callback of a timer. *)
Definition callback (w : World) (kind : TimerKind) (c : Ctx) : World :=
  match kind with
  | ConnectionTimeout =>
      match ws w with
      | Some h =>
          if ready_eqb (readyState w h) SOCK_CONNECTING
          then handleReconnect (close_socket w h) (at_random c)
          else w
      | None => w
      end
  | ReconnectTimer => if isManualClose w then w else connect w c
  | HeartbeatInterval =>
      if ws_is w SOCK_OPEN then fst (send w (ping (at_now c))) else w
  | DeferredConnect => connect w c
  end.

Definition find_timer (w : World) (i : nat) : option Timer :=
  List.find (fun t => Nat.eqb (timer_id t) i) (timers w).

(** The pending timer [i] comes due: a timeout leaves the pending set,
    an interval stays; then its callback runs. *)
Definition fire (w : World) (i : nat) (c : Ctx) : World :=
  match find_timer w i with
  | None => w
  | Some t =>
      match timer_kind t with
      | HeartbeatInterval => callback w HeartbeatInterval c
      | kind => callback (cancel w i) kind c
      end
  end.

(** What the surroundings may do to the manager between two calls of its
    owner: a timer comes due, or a socket reports. *)
Inductive Happening : Type :=
| TimerDue (i : nat)
| SocketOpened (h : nat)
| SocketClosed (h : nat)
| SocketError (h : nat)
| SocketMessage (h : nat) (raw : string) (json : option jsval).

Section Reactions.
Context `{Host}.

Definition react (w : World) (e : Happening) (c : Ctx) : World :=
  match e with
  | TimerDue i => fire w i c
  | SocketOpened h =>
      if ready_eqb (readyState w h) SOCK_CONNECTING
      then onOpen (set_sockets w (update_nth h SOCK_OPEN (sockets w)))
      else w
  | SocketClosed h =>
      if (h <? length (sockets w))%nat
         && negb (ready_eqb (readyState w h) SOCK_CLOSED)
      then onClose (set_sockets w (update_nth h SOCK_CLOSED (sockets w)))
             (at_random c)
      else w
  | SocketError h =>
      if (h <? length (sockets w))%nat then onError w else w
  | SocketMessage h raw json =>
      if ready_eqb (readyState w h) SOCK_OPEN
      then onMessage w raw json (at_now c)
      else w
  end.

Fixpoint reacts (w : World) (es : list (Happening * Ctx)) : World :=
  match es with
  | [] => w
  | (e, c) :: es' => reacts (react w e c) es'
  end.

End Reactions.

(** The delays of the reconnection timers pending in [w], oldest first. *)
Definition reconnectDelays (w : World) : list Q :=
  map timer_delay
    (List.filter
       (fun t => match timer_kind t with ReconnectTimer => true | _ => false end)
       (timers w)).

(** [handleReconnect] called once per draw of [Math.random()]. *)
Definition reconnectRun (w : World) (randoms : list Q) : World :=
  fold_left handleReconnect randoms w.

(** The delays of the attempts numbered [done + 1], [done + 2], ... under
    the given draws. *)
Fixpoint backoffs (reconnectDelay : Q) (done : nat) (randoms : list Q)
  : list Q :=
  match randoms with
  | [] => []
  | random :: rest =>
      backoff reconnectDelay (S done) random
      :: backoffs reconnectDelay (S done) rest
  end.

Fixpoint nondecreasing (l : list Q) : Prop :=
  match l with
  | a :: (b :: _) as rest => (a <= b)%Q /\ nondecreasing rest
  | _ => True
  end.

(** A value [Math.random()] may return. *)
Definition unit_interval (random : Q) : Prop := (0 <= random)%Q /\ (random < 1)%Q.

(** How many times the signal of giving up was dispatched. *)
Definition gave_up_count (events : list Emitted) : nat :=
  length
    (List.filter
       (fun e => match e with MaxReconnectAttemptsReached => true | _ => false end)
       events).

Definition is_deferred (t : Timer) : bool :=
  match timer_kind t with DeferredConnect => true | _ => false end.

(** No connect deferred by [reset] or [updateUrl] is pending. *)
Definition no_deferred (w : World) : Prop :=
  Forall (fun t => is_deferred t = false) (timers w).

(** After a manual close, with no deferred connect pending and [n]
    sockets made so far. *)
Definition quiet (w : World) (n : nat) : Prop :=
  isManualClose w = true /\ no_deferred w /\ length (sockets w) = n.

(** The pending timers without the one an optional handle names. *)
Definition without (handle : option nat) (l : list Timer) : list Timer :=
  match handle with
  | Some i => List.filter (fun t => negb (Nat.eqb (timer_id t) i)) l
  | None => l
  end.

(** The payload as [onMessage] reads it. *)
Definition decoded (raw : string) (json : option jsval) : jsval :=
  match json with
  | Some v => v
  | None => JStr raw
  end.

(** *** Sessions *)

(** What the owner of the manager calls. *)
Inductive Call : Type :=
| CallConnect
| CallDisconnect
| CallSend (data : jsval)
| CallUpdateUrl (newUrl : string)
| CallReset
| CallDestroy.

Definition call (w : World) (c : Call) (ctx : Ctx) : World :=
  match c with
  | CallConnect => connect w ctx
  | CallDisconnect => disconnect w
  | CallSend data => fst (send w data)
  | CallUpdateUrl newUrl => updateUrl w newUrl
  | CallReset => reset w ctx
  | CallDestroy => destroy w
  end.

(** One step of a session: a call of the owner, or something the
    surroundings do. *)
Inductive Step : Type :=
| Owner (c : Call)
| Surroundings (e : Happening).

Section Sessions.
Context `{Host}.

Definition step (w : World) (s : Step) (ctx : Ctx) : World :=
  match s with
  | Owner c => call w c ctx
  | Surroundings e => react w e ctx
  end.

Fixpoint session (w : World) (steps : list (Step * Ctx)) : World :=
  match steps with
  | [] => w
  | (s, ctx) :: rest => session (step w s ctx) rest
  end.

End Sessions.

(** The state a subscriber holds after the [stateChange] events of
    [events], having started from [s]. *)
Fixpoint replay (s : CONNECTION_STATES) (events : list Emitted)
  : CONNECTION_STATES :=
  match events with
  | [] => s
  | StateChange state _ :: rest => replay state rest
  | _ :: rest => replay s rest
  end.

(** Each [stateChange] event names as previous state the state the one
    before it announced ([s] for the first), and announces another one. *)
Fixpoint chained (s : CONNECTION_STATES) (events : list Emitted) : Prop :=
  match events with
  | [] => True
  | StateChange state previousState :: rest =>
      previousState = s /\ state <> s /\ chained state rest
  | _ :: rest => chained s rest
  end.

Definition is_heartbeat (t : Timer) : bool :=
  match timer_kind t with HeartbeatInterval => true | _ => false end.

(** The heartbeat intervals pending. *)
Definition heartbeats (w : World) : list Timer :=
  List.filter is_heartbeat (timers w).

(** Timer identifiers are below the next one to be given, and no two
    pending timers share one. *)
Definition timers_fresh (w : World) : Prop :=
  Forall (fun t => (timer_id t < nextTimer w)%nat) (timers w)
  /\ NoDup (map timer_id (timers w)).

(** Every pending heartbeat interval is the one the manager holds the
    handle of. *)
Definition heartbeat_held (w : World) : Prop :=
  Forall (fun t => is_heartbeat t = true ->
                   heartbeatInterval w = Some (timer_id t)) (timers w).

(** [send] called once per message, in order. *)
Definition sendAll (w : World) (messages : list jsval) : World :=
  fold_left (fun acc message => fst (send acc message)) messages w.

(** The [stateChange] events dispatched so far are chained from the
    initial state and lead to the state the manager is in. *)
Definition in_step (w : World) : Prop :=
  chained DISCONNECTED (emitted w)
  /\ replay DISCONNECTED (emitted w) = connectionState w.

Definition well_kept (w : World) : Prop :=
  in_step w /\ heartbeat_held w /\ timers_fresh w.

End WebSocket.

(** ** The dashboard's handling of a message *)

Module App.
Import JS Constants Helpers Sales.

(** [data && typeof data === 'object' && data.productName], the test of
    [handleWebSocketMessage]. *)
Definition looksLikeSale (data : jsval) : bool :=
  truthy data && jstype_eqb (typeof data) TObject
  && truthy (get data "productName").

(** A property written after a spread: it takes the place of the
    object's own property of that name, or comes last. *)
Fixpoint set_prop (k : string) (v : jsval) (fs : list (string * jsval))
  : list (string * jsval) :=
  match fs with
  | [] => [(k, v)]
  | (k', v') :: fs' =>
      if String.eqb k k' then (k, v) :: fs' else (k', v') :: set_prop k v fs'
  end.

(** The object [handleSale] builds and hands to [analytics.addSale] and
    to the listeners of [new-sale]: the payload with [timestamp] and [id]
    written over it.  [timestamp] is the instant of receipt the message
    event carries, [now] what [Date.now()] returns, [freshId] what
    [generateId('sale')] makes. *)
Definition enrichedSale (saleData : jsval) (timestamp now : Z)
  (freshId : string) : jsval :=
  JObj
    (set_prop "id" (JStr freshId)
       (set_prop "timestamp"
          (JNum (Num (inject_Z (if (timestamp =? 0)%Z then now else timestamp))))
          (Analytics.own_properties saleData))).

End App.

(** ** A reference host *)

(** The host used to run the model on examples: the proleptic Gregorian
    calendar in UTC.  Its [Number(s)] reads strings of decimal digits only,
    its [Date.parse] recognises no string, and its [String(v)] is exact for
    plain objects and the empty array; the examples use none of these
    beyond that. *)
Module Reference.
Import JS.
Local Open Scope Z_scope.

Definition ms_per_day : Z := 86400000.

(** Days since the epoch of the civil date [y]-[m]-[d], [m] from 1. *)
Definition days_from_civil (y m d : Z) : Z :=
  let y' := if m <=? 2 then y - 1 else y in
  let era := y' / 400 in
  let yoe := y' - era * 400 in
  let doy := (153 * (if 2 <? m then m - 3 else m + 9) + 2) / 5 + d - 1 in
  let doe := yoe * 365 + yoe / 4 - yoe / 100 + doy in
  era * 146097 + doe - 719468.

(** The civil date of a day number: year, month from 1, day. *)
Definition civil_from_days (z : Z) : Z * Z * Z :=
  let z' := z + 719468 in
  let era := z' / 146097 in
  let doe := z' - era * 146097 in
  let yoe := (doe - doe / 1460 + doe / 36524 - doe / 146096) / 365 in
  let doy := doe - (365 * yoe + yoe / 4 - yoe / 100) in
  let mp := (5 * doy + 2) / 153 in
  let d := doy - (153 * mp + 2) / 5 + 1 in
  let m := if mp <? 10 then mp + 3 else mp - 9 in
  (if m <=? 2 then yoe + era * 400 + 1 else yoe + era * 400, m, d).

Definition utc_year (t : Z) : Z :=
  let '(y, _, _) := civil_from_days (t / ms_per_day) in y.
Definition utc_month (t : Z) : Z :=
  let '(_, m, _) := civil_from_days (t / ms_per_day) in m - 1.
Definition utc_date (t : Z) : Z :=
  let '(_, _, d) := civil_from_days (t / ms_per_day) in d.
Definition utc_day (t : Z) : Z := (t / ms_per_day + 4) mod 7.
Definition utc_hours (t : Z) : Z := (t mod ms_per_day) / 3600000.

Definition utc_makeDate (y m d : Z) : Z :=
  (days_from_civil (y + m / 12) (m mod 12 + 1) 1 + d - 1) * ms_per_day.

Definition day_names : list string :=
  ["Sun"; "Mon"; "Tue"; "Wed"; "Thu"; "Fri"; "Sat"].
Definition month_names : list string :=
  ["Jan"; "Feb"; "Mar"; "Apr"; "May"; "Jun";
   "Jul"; "Aug"; "Sep"; "Oct"; "Nov"; "Dec"].

Definition two_digits (n : Z) : string :=
  if n <? 10 then ("0" ++ pretty n)%string else pretty n.

Definition utc_toDateString (t : Z) : string :=
  (nth (Z.to_nat (utc_day t)) day_names "" ++ " "
   ++ nth (Z.to_nat (utc_month t)) month_names "" ++ " "
   ++ two_digits (utc_date t) ++ " " ++ pretty (utc_year t))%string.

Definition digits_to_number (s : string) : jsnum :=
  let t := trim s in
  if forallb_str is_digit t
  then Num (inject_Z (fst (fst (Helpers.digits t 0 0%nat))))
  else NaN.

Definition utcHost : Host := {|
  Date_parse := fun _ => None;
  StringToNumber := digits_to_number;
  objToString := fun v => match v with JObj _ => "[object Object]" | _ => "" end;
  getFullYear := utc_year;
  getMonth := utc_month;
  getDate := utc_date;
  getDay := utc_day;
  getHours := utc_hours;
  makeDate := utc_makeDate;
  toDateString := utc_toDateString
|}.

(** A presentation layer that keeps, of the view, the number of sales it
    was derived from. *)
Definition countingView : Analytics.Presentation := {|
  Analytics.View := nat;
  Analytics.emptyView := 0%nat;
  Analytics.deriveView := fun data _ => length data
|}.

End Reference.

(** ** Inputs of the examples *)

Module Scenario.
Import JS Analytics Reference.

(** A storage manager with both backends at hand and nothing stored. *)
Definition storage0 : Storage.StorageManager :=
  Storage.mkStorage true true (Some []) None.

(** An ingestion at instant [t] whose storage request succeeds. *)
Definition at_instant (t : Z) : AddEnv :=
  mkAddEnv t "sale_1" 0 (Storage.mkEnv true []).

(** 14 November 2023, 12:00 UTC. *)
Definition noon : Z := 1699963200000.
Definition hour : Z := 3600000.

Definition cola : jsval :=
  JObj [("productName", JStr "Cola"); ("price", JStr "$1.50")].

Definition cola_at (stamp : Q) : jsval :=
  JObj [("productName", JStr "Cola"); ("price", JNum (Num 1));
        ("timestamp", JNum (Num stamp))].

Definition nameless : jsval :=
  JObj [("productName", JStr ""); ("price", JNum (Num 1))].

Definition manager0 : @AnalyticsManager countingView :=
  @new_manager countingView storage0.

(** An inventory step at instant [t] whose write to storage succeeds. *)
Definition inv_at (t : Z) : Inventory.InvEnv :=
  Inventory.mkInvEnv t "product_1" true true.

(** The request to track "Cola Classic" with the given stock. *)
Definition cola_classic (stock : Q) : Inventory.ProductData :=
  Inventory.mkData None (JStr "Cola Classic") (Some (Num stock)) None None
    (Some (Num 2)) None None None None None.

(** An inventory holding "Cola Classic" with one unit left. *)
Definition one_left : Inventory.InventoryManager :=
  fst (Inventory.addProduct Inventory.new_inventory (cola_classic 1)
         (inv_at noon)).

(** An inventory holding "Cola Classic" with none left. *)
Definition none_left : Inventory.InventoryManager :=
  Inventory.handleSaleEvent one_left cola (inv_at (noon + hour)).

(** The Number value of the literal [1e-7]: the double nearest to it,
    a little below. *)
Definition double_1e_7 : Q := 944473296573929 # 9444732965739290427392.

(** A sale whose product name is two spaces. *)
Definition blank_sale : jsval :=
  JObj [("productName", JStr "  "); ("price", JNum (Num 1))].



(** A request to track a product named "constructor" in category
    "snacks". *)
Definition constructor_request : Inventory.ProductData :=
  Inventory.mkData None (JStr "constructor") (Some (Num 3)) None None
    (Some (Num 1)) (Some "snacks") None None None None.

(** A stream client with the shipped base delay and three attempts. *)
Definition feed0 : WebSocket.World :=
  WebSocket.new_world "wss://feed" 3 (inject_Z Constants.RECONNECT_DELAY).

(** A step at instant [t] in which [Math.random()] returns one half and the
    socket constructor does not throw. *)
Definition step_at (t : Z) : WebSocket.Ctx := WebSocket.mkCtx t (1 # 2) false.

(** The client after its first socket was made and then closed by the
    peer: a reconnection is scheduled. *)
Definition feed_retrying : WebSocket.World :=
  @WebSocket.react utcHost
    (WebSocket.connect feed0 (step_at noon))
    (WebSocket.SocketClosed 0) (step_at (noon + 1)).

(** The client connected: its first socket was made and opened. *)
Definition feed_connected : WebSocket.World :=
  @WebSocket.react utcHost
    (WebSocket.connect feed0 (step_at noon))
    (WebSocket.SocketOpened 0) (step_at (noon + 1)).

(** A client allowed no reconnection attempt, its first socket still
    connecting. *)
Definition feed_last_try : WebSocket.World :=
  WebSocket.connect
    (WebSocket.new_world "wss://feed" 0 (inject_Z Constants.RECONNECT_DELAY))
    (step_at noon).

Definition quote : string := String (ascii_of_nat 34) "".

(** The wire text of [nameless]. *)
Definition nameless_raw : string :=
  "{" ++ quote ++ "productName" ++ quote ++ ":" ++ quote ++ quote ++ ","
  ++ quote ++ "price" ++ quote ++ ":1}".

(** The wire text of a sale with a name outside the allowed characters,
    and its decoded form. *)
Definition shouting_raw : string :=
  "{" ++ quote ++ "productName" ++ quote ++ ":" ++ quote ++ "Cola!" ++ quote
  ++ "}".
Definition shouting : jsval := JObj [("productName", JStr "Cola!")].

End Scenario.

(** * Properties *)

(** ** Arithmetic on rationals *)

Module QFacts.
Import JS Sales Helpers.

Lemma Qis0_true (q : Q) : Qis0 q = true <-> (q == 0)%Q.
Proof.
  unfold Qis0, Qeq. simpl. rewrite Z.eqb_eq. lia.
Qed.

Lemma Qis0_false (q : Q) : Qis0 q = false <-> ~ (q == 0)%Q.
Proof.
  rewrite <- Qis0_true. destruct (Qis0 q); split; intros; congruence.
Qed.

Lemma Qleb_true (a b : Q) : Qleb a b = true <-> (a <= b)%Q.
Proof. apply Qle_bool_iff. Qed.

Lemma Qltb_true (a b : Q) : Qltb a b = true <-> (a < b)%Q.
Proof.
  unfold Qltb. rewrite negb_true_iff, <- not_true_iff_false, Qle_bool_iff.
  split; [apply Qnot_le_lt | apply Qlt_not_le].
Qed.

Lemma Qltb_false (a b : Q) : Qltb a b = false <-> (b <= a)%Q.
Proof.
  unfold Qltb. rewrite negb_false_iff. apply Qle_bool_iff.
Qed.

Lemma Qleb_inject (a b : Z) : Qleb (inject_Z a) (inject_Z b) = (a <=? b)%Z.
Proof.
  unfold Qleb, Qle_bool. simpl. now rewrite !Z.mul_1_r.
Qed.

Lemma Qor0_eq (q : Q) : (Qor0 q == q)%Q.
Proof.
  unfold Qor0. destruct (Qis0 q) eqn:E; [|reflexivity].
  apply Qis0_true in E. now rewrite E.
Qed.

Lemma sum_from (l : list Q) (a : Q) :
  (fold_left (fun acc val => acc + val) l a == a + sum_numbers l)%Q.
Proof.
  unfold sum_numbers. revert a.
  induction l as [|x l IH]; intros a; simpl.
  - ring.
  - rewrite (IH (a + x)%Q), (IH (0 + x)%Q). ring.
Qed.

Lemma sum_cons (x : Q) (l : list Q) :
  (sum_numbers (x :: l) == x + sum_numbers l)%Q.
Proof.
  unfold sum_numbers at 1. cbn [fold_left]. rewrite sum_from. ring.
Qed.

Lemma sum_app (l1 l2 : list Q) :
  (sum_numbers (l1 ++ l2) == sum_numbers l1 + sum_numbers l2)%Q.
Proof.
  induction l1 as [|x l1 IH]; simpl.
  - unfold sum_numbers at 2. cbn [fold_left]. ring.
  - rewrite !sum_cons, IH. ring.
Qed.

Lemma sum_rev (l : list Q) : (sum_numbers (rev l) == sum_numbers l)%Q.
Proof.
  induction l as [|x l IH]; simpl.
  - reflexivity.
  - rewrite sum_app, !sum_cons, IH. unfold sum_numbers at 2. cbn [fold_left].
    ring.
Qed.

Lemma sum_Qor0 {A : Type} (f : A -> Q) (l : list A) :
  (sum_numbers (map (fun a => Qor0 (f a)) l) == sum_numbers (map f l))%Q.
Proof.
  induction l as [|x l IH]; simpl.
  - reflexivity.
  - rewrite !sum_cons, IH, Qor0_eq. reflexivity.
Qed.

End QFacts.

(** ** The analytics engine *)

Module AnalyticsProps.
Import JS Constants Sales Helpers Analytics QFacts.

Section Engine.
Context `{Host} `{Presentation}.

(** *** What [addSale] does to the manager *)

Lemma addSale_rejected (m : AnalyticsManager) (sale : jsval) (env : AddEnv) :
  validateSaleData sale <> [] -> addSale m sale env = (m, false).
Proof.
  intros Hbad. unfold addSale, addSale_start.
  destruct (validateSaleData sale); [congruence | reflexivity].
Qed.

Lemma addSale_accepted (m : AnalyticsManager) (sale : jsval) (env : AddEnv) :
  validateSaleData sale = [] ->
  let m' := fst (addSale m sale env) in
  salesData m' =
    enrichSaleData sale (env_now env) (env_freshId env) :: salesData m
  /\ (cache m = ∅ -> cache m' = ∅)
  /\ (snd (addSale m sale env) = true -> cache m' = ∅).
Proof.
  intros Hok. unfold addSale, addSale_start. rewrite Hok.
  destruct (Storage.addSale _ _ _ _ _) as [[storage' ok]|]; simpl;
    repeat split; auto; discriminate.
Qed.

Lemma addSale_true_inv (m m' : AnalyticsManager) (sale : jsval) (env : AddEnv) :
  addSale m sale env = (m', true) -> cache m' = ∅.
Proof.
  unfold addSale, addSale_start.
  destruct (validateSaleData sale); [|discriminate].
  destruct (Storage.addSale _ _ _ _ _) as [[storage' ok]|]; simpl;
    intros E; inversion E; reflexivity.
Qed.

(** *** Reading a snapshot *)

Lemma getAnalytics_miss (m : AnalyticsManager) (period : string)
  (useCache : bool) (now : Z) :
  cache m !! cacheKey period = None ->
  getAnalytics m period useCache now =
    (let analytics :=
       calculateAnalytics m
         (filterByTimePeriod sale_timestamp (salesData m) period now)
         period now in
     (mkManager (salesData m)
        (<[cacheKey period := mkEntry analytics now]> (cache m))
        (cacheExpiry m) (lastUpdate m) (storage m),
      analytics)).
Proof.
  intros Hmiss. unfold getAnalytics. rewrite Hmiss.
  destruct useCache; reflexivity.
Qed.

Lemma getAnalytics_cached (m : AnalyticsManager) (period : string) (now : Z) :
  let '(m1, a1) := getAnalytics m period true now in
  exists e, cache m1 !! cacheKey period = Some e /\ data e = a1.
Proof.
  unfold getAnalytics.
  destruct (cache m !! cacheKey period) as [cached|] eqn:E.
  - destruct (now - timestamp cached <? cacheExpiry m)%Z.
    + exists cached. auto.
    + eexists. split; [apply lookup_insert_eq | reflexivity].
  - eexists. split; [apply lookup_insert_eq | reflexivity].
Qed.

Lemma totals_of_snapshot (m : AnalyticsManager) (l : list Sale)
  (period : string) (now : Z) :
  totalSales (calculateAnalytics m l period now) = length l
  /\ totalRevenue (calculateAnalytics m l period now)
     = sum_numbers (map (fun sale => Qor0 (sale_price sale)) l).
Proof.
  destruct l as [|s l]; split; reflexivity.
Qed.

(** *** Ingestion *)

Lemma filter_all (l : list Sale) (now : Z) :
  filterByTimePeriod sale_timestamp l TIME_PERIODS.ALL now
  = List.filter (fun s => inWindow (sale_timestamp s) 0 now) l.
Proof. reflexivity. Qed.

Lemma timely_in_window (sale : jsval) (tnow : Z) (fresh : string) (now : Z) :
  timely sale now -> (0 <= tnow <= now)%Z ->
  inWindow (sale_timestamp (enrichSaleData sale tnow fresh)) 0 now = true.
Proof.
  intros Ht Hclock. unfold enrichSaleData, sale_timestamp, inWindow.
  assert (Hnow : forall z : Z, (0 <= z <= now)%Z ->
            le (Num (inject_Z 0)) (Num (inject_Z z))
            && le (Num (inject_Z z)) (Num (inject_Z now)) = true).
  { intros z Hz. unfold le. rewrite !Qleb_inject.
    apply andb_true_intro; split; apply Z.leb_le; lia. }
  destruct Ht as [Habsent | (q & Hq & Hlo & Hhi)].
  - rewrite Habsent. simpl. now apply Hnow.
  - rewrite Hq. unfold or_else, truthy.
    destruct (Qis0 q); simpl.
    + now apply Hnow.
    + apply andb_true_intro; split; apply Qleb_true; assumption.
Qed.

Lemma ingest_working_set (events : list (jsval * AddEnv)) (now : Z) :
  Forall (acceptable now) events ->
  forall m : AnalyticsManager,
    cache m = ∅ ->
    let m' := ingest m events in
    cache m' = ∅
    /\ salesData m' =
       (rev (map (fun event =>
                    enrichSaleData (fst event) (env_now (snd event))
                      (env_freshId (snd event))) events)
        ++ salesData m)%list.
Proof.
  induction 1 as [|event events Hev _ IH]; intros m Hcache.
  - split; [assumption | reflexivity].
  - destruct Hev as (Hvalid & _ & _).
    destruct (addSale_accepted m (fst event) (snd event) Hvalid)
      as (Hdata & Hkeep & _).
    specialize (IH (fst (addSale m (fst event) (snd event))) (Hkeep Hcache)).
    destruct IH as (IHc & IHd).
    unfold ingest in *. cbn [fold_left]. split; [exact IHc|].
    rewrite IHd, Hdata. cbn [map rev]. now rewrite <- app_assoc.
Qed.

Lemma filter_keeps_all {A : Type} (f : A -> bool) (l : list A) :
  Forall (fun a => f a = true) l -> List.filter f l = l.
Proof.
  induction 1 as [|a l Ha _ IH]; simpl; [reflexivity|].
  now rewrite Ha, IH.
Qed.

(** C1, amended: sales that pass validation, each with a timestamp that
    is absent or a number from the epoch on and not after the query, ingested
    in order into a new manager at instants of the same range, are all in the
    snapshot of period [all]: [totalSales] is their number and
    [totalRevenue] the sum of their enriched prices. *)
Theorem all_snapshot_totals (storage0 : Storage.StorageManager)
  (events : list (jsval * AddEnv)) (now : Z) (useCache : bool) :
  Forall (acceptable now) events ->
  let snapshot :=
    snd (getAnalytics (ingest (new_manager storage0) events)
           TIME_PERIODS.ALL useCache now) in
  totalSales snapshot = length events
  /\ (totalRevenue snapshot == sum_numbers (map enrichedPrice events))%Q.
Proof.
  intros Hall.
  destruct (ingest_working_set events now Hall (new_manager storage0) eq_refl)
    as (Hcache & Hdata).
  cbn zeta. rewrite getAnalytics_miss by (rewrite Hcache; apply lookup_empty).
  cbn [snd]. rewrite Hdata. cbn [new_manager salesData].
  rewrite app_nil_r, filter_all, filter_keeps_all.
  2:{ apply List.Forall_rev, List.Forall_map.
      eapply List.Forall_impl; [|exact Hall].
      intros event (_ & Ht & Hc). now apply timely_in_window. }
  destruct (totals_of_snapshot (ingest (new_manager storage0) events)
              (rev (map (fun event =>
                           enrichSaleData (fst event) (env_now (snd event))
                             (env_freshId (snd event))) events))
              TIME_PERIODS.ALL now) as (Hn & Hr).
  split.
  - rewrite Hn. now rewrite length_rev, length_map.
  - rewrite Hr, sum_Qor0, List.map_rev, sum_rev, List.map_map. reflexivity.
Qed.

(** C2: an [addSale] that returns true leaves the cache without any
    entry, whatever the period, so the next [getAnalytics], for any period
    and either value of [useCache], computes the snapshot from the working
    set and stores it as the only entry. *)
Theorem addSale_then_recompute (m m' : AnalyticsManager) (sale : jsval)
  (env : AddEnv) :
  addSale m sale env = (m', true) ->
  cache m' = ∅
  /\ forall (period : string) (useCache : bool) (now : Z),
       let analytics :=
         calculateAnalytics m'
           (filterByTimePeriod sale_timestamp (salesData m') period now)
           period now in
       getAnalytics m' period useCache now =
         (mkManager (salesData m')
            (<[cacheKey period := mkEntry analytics now]> ∅)
            (cacheExpiry m') (lastUpdate m') (storage m'),
          analytics).
Proof.
  intros Hadd. pose proof (addSale_true_inv _ _ _ _ Hadd) as Hcache.
  split; [exact Hcache|].
  intros period useCache now.
  rewrite getAnalytics_miss by (rewrite Hcache; apply lookup_empty).
  now rewrite Hcache.
Qed.

(** C3, amended: after [getAnalytics(period)] with the cache in use, the
    cache holds an entry for the period whose data is the snapshot returned;
    that entry was either computed by this call, and is stamped with its
    instant, or was already there and less than [cacheExpiry] old.  A second
    call made less than [cacheExpiry] after the instant the entry was
    computed, with no [addSale] in between, returns that same snapshot and
    leaves the manager as it was. *)
Theorem repeated_read_is_cached (m m1 : AnalyticsManager) (period : string)
  (now1 now2 : Z) (a1 : Snapshot) :
  getAnalytics m period true now1 = (m1, a1) ->
  exists e : CacheEntry,
    cache m1 !! cacheKey period = Some e
    /\ data e = a1
    /\ (timestamp e = now1
        \/ (cache m !! cacheKey period = Some e
            /\ (now1 - timestamp e < cacheExpiry m)%Z))
    /\ ((now2 - timestamp e < cacheExpiry m1)%Z ->
        getAnalytics m1 period true now2 = (m1, a1)).
Proof.
  intros Hfirst.
  pose proof (getAnalytics_cached m period now1) as Hc.
  rewrite Hfirst in Hc. destruct Hc as (e & He & Hd).
  exists e. split; [exact He|]. split; [exact Hd|]. split.
  - unfold getAnalytics in Hfirst.
    destruct (cache m !! cacheKey period) as [cached|] eqn:E.
    + destruct (now1 - timestamp cached <? cacheExpiry m)%Z eqn:L.
      * inversion Hfirst; subst. right. rewrite E in He. inversion He; subst.
        split; [reflexivity | now apply Z.ltb_lt].
      * inversion Hfirst; subst. cbn [cache] in He.
        rewrite lookup_insert_eq in He. inversion He. now left.
    + inversion Hfirst; subst. cbn [cache] in He.
      rewrite lookup_insert_eq in He. inversion He. now left.
  - intros Hlive. unfold getAnalytics. rewrite He.
    apply Z.ltb_lt in Hlive. rewrite Hlive. now rewrite Hd.
Qed.

(** C6: a payload that fails validation makes [addSale] return false
    and leaves the manager as it was (working set, cache and storage), so
    every later snapshot is the one the manager would have given. *)
Theorem invalid_sale_changes_nothing (m : AnalyticsManager) (sale : jsval)
  (env : AddEnv) :
  validateSaleData sale <> [] ->
  addSale m sale env = (m, false)
  /\ forall (period : string) (useCache : bool) (now : Z),
       getAnalytics (fst (addSale m sale env)) period useCache now
       = getAnalytics m period useCache now.
Proof.
  intros Hbad. rewrite (addSale_rejected m sale env Hbad).
  split; reflexivity.
Qed.

Lemma compare_rule (current previous : Q) :
  percent_rule (compare current previous).
Proof.
  unfold percent_rule, compare, calculatePercentageChange. cbn.
  destruct (Qis0 previous) eqn:E0.
  - apply Qis0_true in E0. destruct (Qltb 0 current) eqn:Ec.
    + apply Qltb_true in Ec. repeat split; intros; try reflexivity; tauto.
    + apply Qltb_false in Ec. repeat split; intros; try reflexivity.
      * exfalso. eapply Qlt_not_le; eassumption.
      * tauto.
  - apply Qis0_false in E0. repeat split; intros; try reflexivity; tauto.
Qed.

(** C9: in every comparison block of the period-over-period comparison,
    and for any two values given to [calculatePercentageChange], a previous
    value of zero gives exactly 100 when the current value is above zero and
    exactly 0 otherwise, and a previous value other than zero gives
    ((current - previous) / previous) * 100.  The values compared are the
    number of sales, the revenue and the average purchase of the sales of the
    period and of the sales of the period before; each block reports the
    change [calculatePercentageChange] gives for its two values; there is a
    comparison exactly when the period before has a sale; and a snapshot
    computed from data that is not empty carries it. *)
Theorem percentage_change_rule :
  (forall current previous : Q,
     ((previous == 0)%Q -> (0 < current)%Q ->
      calculatePercentageChange current previous = 100%Q)
     /\ ((previous == 0)%Q -> ~ (0 < current)%Q ->
         calculatePercentageChange current previous = 0%Q)
     /\ (~ (previous == 0)%Q ->
         calculatePercentageChange current previous
         = ((current - previous) / previous * 100)%Q))
  /\ (forall (m : AnalyticsManager) (period : string) (now : Z)
        (c : Comparison),
        getComparisonToPrevious m period now = Some c ->
        percent_rule (cmp_sales c) /\ percent_rule (cmp_revenue c)
        /\ percent_rule (cmp_averagePurchase c))
  /\ (forall (m : AnalyticsManager) (period : string) (now : Z),
        let currentData :=
          filterByTimePeriod sale_timestamp (salesData m) period now in
        let previousData := getPreviousPeriodData m period now in
        let count (data : list Sale) := inject_Z (Z.of_nat (length data)) in
        let average (data : list Sale) :=
          if (0 <? length data)%nat then (revenue data / count data)%Q
          else 0%Q in
        match getComparisonToPrevious m period now with
        | None => previousData = []
        | Some c =>
            previousData <> []
            /\ current (cmp_sales c) = count currentData
            /\ previous (cmp_sales c) = count previousData
            /\ change (cmp_sales c)
               = calculatePercentageChange (count currentData)
                   (count previousData)
            /\ current (cmp_revenue c) = revenue currentData
            /\ previous (cmp_revenue c) = revenue previousData
            /\ change (cmp_revenue c)
               = calculatePercentageChange (revenue currentData)
                   (revenue previousData)
            /\ current (cmp_averagePurchase c) = average currentData
            /\ previous (cmp_averagePurchase c) = average previousData
            /\ change (cmp_averagePurchase c)
               = calculatePercentageChange (average currentData)
                   (average previousData)
        end)
  /\ (forall (m : AnalyticsManager) (sale : Sale) (rest : list Sale)
        (period : string) (now : Z),
        comparisonToPrevious (calculateAnalytics m (sale :: rest) period now)
        = getComparisonToPrevious m period now).
Proof.
  split; [|split; [|split]].
  - intros current previous. exact (compare_rule current previous).
  - intros m period now c. unfold getComparisonToPrevious.
    destruct (getPreviousPeriodData m period now) as [|s l]; [discriminate|].
    destruct (calculateBasicStats _) as [[cc cr] ca].
    destruct (calculateBasicStats (s :: l)) as [[pc pr] pa].
    intros E. inversion E; subst. cbn [cmp_sales cmp_revenue cmp_averagePurchase].
    repeat split; apply compare_rule.
  - intros m period now. cbv zeta. unfold getComparisonToPrevious.
    destruct (getPreviousPeriodData m period now) as [|s l]; [reflexivity|].
    split; [discriminate|].
    unfold calculateBasicStats, compare, revenue.
    cbn [cmp_sales cmp_revenue cmp_averagePurchase current previous change].
    repeat split.
  - intros m sale rest period now. reflexivity.
Qed.

End Engine.

End AnalyticsProps.

(** *** The engine on the reference host *)

Module AnalyticsExamples.
Import JS Constants Sales Helpers Analytics Reference Scenario AnalyticsProps.

Local Abbreviation addSale' := (@addSale utcHost countingView).
Local Abbreviation getAnalytics' := (@getAnalytics utcHost countingView).
Local Abbreviation ingest' := (@ingest utcHost countingView).

(** Counterexample to C1 as stated: a sale that passes validation with
    timestamp -1 (the last millisecond of 1969), which is not in the future
    of a query made an hour after it is ingested, is accepted by [addSale]
    and yet the snapshot of period [all] counts no sale. *)
Lemma negative_timestamp_left_out :
  let event := (cola_at (-1), at_instant noon) in
  let snapshot :=
    snd (getAnalytics' (ingest' manager0 [event]) TIME_PERIODS.ALL true
           (noon + hour)) in
  @validateSaleData utcHost (fst event) = []
  /\ (-1 <= inject_Z (noon + hour))%Q
  /\ snd (addSale' manager0 (fst event) (snd event)) = true
  /\ totalSales snapshot = 0%nat
  /\ totalSales snapshot <> length [event].
Proof.
  cbv zeta. split; [vm_compute; reflexivity|].
  split; [vm_compute; discriminate|].
  split; [vm_compute; reflexivity|].
  split; [vm_compute; reflexivity|].
  vm_compute. discriminate.
Qed.

(** The scenario of the specification: one "Cola" at "$1.50" gives one
    sale, a revenue of 1.5 and the category "beverages". *)
Example cola_scenario :
  let m := fst (addSale' manager0 cola (at_instant noon)) in
  let snapshot := snd (getAnalytics' m TIME_PERIODS.ALL true (noon + hour)) in
  totalSales snapshot = 1%nat
  /\ (totalRevenue snapshot == 3 # 2)%Q
  /\ map sale_category (salesData m) = [Some "beverages"].
Proof. cbv zeta. split; [|split]; vm_compute; reflexivity. Qed.

Lemma all_snapshot_totals_witness :
  let events :=
    [(cola, at_instant noon); (cola_at 5, at_instant (noon + hour))] in
  let snapshot :=
    snd (getAnalytics' (ingest' manager0 events) TIME_PERIODS.ALL true
           (noon + 2 * hour)) in
  Forall (@acceptable utcHost (noon + 2 * hour)) events
  /\ totalSales snapshot = 2%nat
  /\ (totalRevenue snapshot == 5 # 2)%Q.
Proof.
  intros events snapshot.
  assert (Hall : Forall (@acceptable utcHost (noon + 2 * hour)) events).
  { apply List.Forall_cons; [|apply List.Forall_cons; [|apply List.Forall_nil]].
    - split; [reflexivity|]. split; [left; reflexivity|].
      cbn. unfold noon, hour. lia.
    - split; [reflexivity|]. split.
      + right. exists 5%Q. repeat split; try reflexivity; discriminate.
      + cbn. unfold noon, hour. lia. }
  split; [exact Hall|].
  destruct (@all_snapshot_totals utcHost countingView storage0 events
              (noon + 2 * hour) true Hall) as (Hn & Hr).
  split; [exact Hn|].
  apply (Qeq_trans _ _ _ Hr). reflexivity.
Defined.

Lemma addSale_then_recompute_witness :
  let m1 := fst (addSale' manager0 cola (at_instant noon)) in
  let m2 := fst (getAnalytics' m1 TIME_PERIODS.TODAY true noon) in
  let m3 := fst (getAnalytics' m2 TIME_PERIODS.ALL true noon) in
  let m' := fst (addSale' m3 cola (at_instant (noon + hour))) in
  (exists e : CacheEntry,
     cache m3 !! cacheKey TIME_PERIODS.TODAY = Some e
     /\ totalSales (data e) = 1%nat
     /\ (noon + hour - timestamp e < cacheExpiry m3)%Z)
  /\ (exists e : CacheEntry,
        cache m3 !! cacheKey TIME_PERIODS.ALL = Some e
        /\ totalSales (data e) = 1%nat)
  /\ totalSales (snd (getAnalytics' m3 TIME_PERIODS.TODAY true (noon + hour)))
     = 1%nat
  /\ addSale' m3 cola (at_instant (noon + hour)) = (m', true)
  /\ cache m' = ∅
  /\ totalSales (snd (getAnalytics' m' TIME_PERIODS.TODAY true (noon + hour)))
     = 2%nat
  /\ totalSales (snd (getAnalytics' m' TIME_PERIODS.ALL true (noon + hour)))
     = 2%nat.
Proof.
  intros m1 m2 m3 m'.
  split.
  { destruct (cache m3 !! cacheKey TIME_PERIODS.TODAY) as [e|] eqn:E;
      [|vm_compute in E; discriminate E].
    exists e. split; [reflexivity|].
    vm_compute in E. injection E as <-.
    split; vm_compute; reflexivity. }
  split.
  { destruct (cache m3 !! cacheKey TIME_PERIODS.ALL) as [e|] eqn:E;
      [|vm_compute in E; discriminate E].
    exists e. split; [reflexivity|].
    vm_compute in E. injection E as <-.
    vm_compute. reflexivity. }
  split; [vm_compute; reflexivity|].
  assert (Hadd : addSale' m3 cola (at_instant (noon + hour)) = (m', true)).
  { apply injective_projections; [reflexivity | vm_compute; reflexivity]. }
  split; [exact Hadd|].
  destruct (@addSale_then_recompute utcHost countingView m3 m' cola
              (at_instant (noon + hour)) Hadd) as (Hcache & Hnext).
  split; [exact Hcache|].
  split.
  - rewrite (Hnext TIME_PERIODS.TODAY true (noon + hour)).
    vm_compute. reflexivity.
  - rewrite (Hnext TIME_PERIODS.ALL true (noon + hour)).
    vm_compute. reflexivity.
Defined.

(** Counterexample to C3 as stated: a sale at noon, a snapshot of period
    [today] computed and cached at noon; a first call 23 hours later is
    served from the cache, and a second call two hours after the first,
    well within 24 hours of it, finds the entry 25 hours old, computes a
    new snapshot for the new day and returns a different one. *)
Lemma second_read_recomputes :
  let m1 := fst (addSale' manager0 cola (at_instant noon)) in
  let m2 := fst (getAnalytics' m1 TIME_PERIODS.TODAY true noon) in
  let first := getAnalytics' m2 TIME_PERIODS.TODAY true (noon + 23 * hour) in
  let second :=
    getAnalytics' (fst first) TIME_PERIODS.TODAY true (noon + 25 * hour) in
  ((noon + 25 * hour) - (noon + 23 * hour) < CACHE_EXPIRY)%Z
  /\ totalSales (snd first) = 1%nat
  /\ totalSales (snd second) = 0%nat
  /\ snd second <> snd first
  /\ fst second <> fst first.
Proof.
  cbv zeta. repeat split; try reflexivity.
  - intros E. apply (f_equal totalSales) in E. vm_compute in E. discriminate.
  - intros E. apply (f_equal (fun m => cache m !! cacheKey TIME_PERIODS.TODAY)) in E.
    vm_compute in E. discriminate.
Qed.

Lemma repeated_read_is_cached_witness :
  let m1 := fst (addSale' manager0 cola (at_instant noon)) in
  let first := getAnalytics' m1 TIME_PERIODS.TODAY true noon in
  (noon + 23 * hour - noon < CACHE_EXPIRY)%Z
  /\ getAnalytics' (fst first) TIME_PERIODS.TODAY true (noon + 23 * hour)
     = first.
Proof.
  intros m1 first.
  split; [reflexivity|].
  destruct (@repeated_read_is_cached utcHost countingView m1 (fst first)
              TIME_PERIODS.TODAY noon (noon + 23 * hour) (snd first))
    as (e & He & Hd & Hstamp & Hagain).
  { apply surjective_pairing. }
  rewrite Hagain.
  - symmetry. apply surjective_pairing.
  - destruct Hstamp as [Hnow | (Hold & _)].
    + rewrite Hnow. vm_compute. reflexivity.
    + vm_compute in Hold. discriminate Hold.
Defined.

Lemma invalid_sale_changes_nothing_witness :
  @validateSaleData utcHost nameless <> []
  /\ addSale' manager0 nameless (at_instant noon) = (manager0, false)
  /\ totalSales
       (snd (getAnalytics'
               (fst (addSale' manager0 nameless (at_instant noon)))
               TIME_PERIODS.ALL true noon)) = 0%nat.
Proof.
  assert (Hbad : @validateSaleData utcHost nameless <> []) by discriminate.
  split; [exact Hbad|].
  destruct (@invalid_sale_changes_nothing utcHost countingView manager0
              nameless (at_instant noon) Hbad) as (Hsame & Hlater).
  split; [exact Hsame|].
  rewrite Hlater. reflexivity.
Defined.

Lemma percentage_change_rule_witness :
  let week_ago := (noon - 10 * 24 * hour)%Z in
  let events :=
    (repeat (cola_at (inject_Z week_ago), at_instant week_ago) 2
     ++ repeat (cola_at (inject_Z noon), at_instant noon) 5)%list in
  let m := ingest' manager0 events in
  calculatePercentageChange 5 0 = 100%Q
  /\ calculatePercentageChange 0 0 = 0%Q
  /\ calculatePercentageChange 5 2 = ((5 - 2) / 2 * 100)%Q
  /\ exists c : Comparison,
       comparisonToPrevious
         (snd (getAnalytics' m TIME_PERIODS.WEEK true (noon + hour)))
       = Some c
       /\ current (cmp_sales c) = inject_Z 5
       /\ previous (cmp_sales c) = inject_Z 2
       /\ (change (cmp_sales c) == 150)%Q
       /\ (change (cmp_revenue c) == 150)%Q
       /\ (change (cmp_averagePurchase c) == 0)%Q.
Proof.
  intros week_ago events m.
  destruct (@percentage_change_rule utcHost countingView)
    as (Hrule & _ & Hfigures & Hcarried).
  split; [|split; [|split]].
  - destruct (Hrule 5%Q 0%Q) as (Hup & _ & _).
    apply Hup; reflexivity.
  - destruct (Hrule 0%Q 0%Q) as (_ & Hflat & _).
    apply Hflat; [reflexivity | discriminate].
  - destruct (Hrule 5%Q 2%Q) as (_ & _ & Hratio).
    apply Hratio. discriminate.
  - assert (Hdata : exists sale rest,
              @filterByTimePeriod utcHost _ sale_timestamp (salesData m)
                TIME_PERIODS.WEEK (noon + hour) = sale :: rest).
    { destruct (@filterByTimePeriod utcHost _ sale_timestamp (salesData m)
                  TIME_PERIODS.WEEK (noon + hour)) as [|sale rest] eqn:E;
        [|now exists sale, rest].
      apply (f_equal (@length _)) in E. vm_compute in E. discriminate E. }
    destruct Hdata as (sale & rest & Hdata).
    assert (Hread : snd (getAnalytics' m TIME_PERIODS.WEEK true (noon + hour))
                    = @calculateAnalytics utcHost countingView m (sale :: rest) TIME_PERIODS.WEEK
                        (noon + hour)).
    { rewrite <- Hdata.
      rewrite (@getAnalytics_miss utcHost countingView m TIME_PERIODS.WEEK true
                 (noon + hour)) by (vm_compute; reflexivity).
      reflexivity. }
    rewrite Hread, Hcarried.
    specialize (Hfigures m TIME_PERIODS.WEEK (noon + hour)). cbv zeta in Hfigures.
    destruct (@getComparisonToPrevious utcHost countingView m TIME_PERIODS.WEEK
                (noon + hour))
      as [c|]; [|vm_compute in Hfigures; discriminate Hfigures].
    destruct Hfigures
      as (_ & Hc1 & Hp1 & Hd1 & _ & _ & Hd2 & _ & _ & Hd3).
    exists c. split; [reflexivity|].
    split; [apply (eq_trans Hc1); vm_compute; reflexivity|].
    split; [apply (eq_trans Hp1); vm_compute; reflexivity|].
    split; [rewrite Hd1; vm_compute; reflexivity|].
    split; [rewrite Hd2; vm_compute; reflexivity|].
    rewrite Hd3. vm_compute. reflexivity.
Defined.

End AnalyticsExamples.

(** ** The inventory tracker *)

Module InventoryProps.
Import JS Constants Helpers Inventory QFacts.


Lemma map_get_set (k : string) (v : Product) (m : list (string * Product)) :
  map_get k (map_set k v m) = Some v.
Proof.
  induction m as [|[k' v'] m IH]; simpl.
  - now rewrite String.eqb_refl.
  - destruct (String.eqb k k') eqn:E; simpl; rewrite ?E, ?String.eqb_refl; auto.
Qed.

Lemma map_set_Forall (P : string * Product -> Prop) (k : string) (v : Product)
  (m : list (string * Product)) :
  P (k, v) -> Forall P m -> Forall P (map_set k v m).
Proof.
  intros Hv. induction 1 as [|[k' v'] m Hx Hm IH]; simpl.
  - now repeat constructor.
  - destruct (String.eqb k k'); constructor; auto.
Qed.

Lemma map_get_Forall (P : string * Product -> Prop)
  (Pkey : forall k k' v, P (k, v) -> P (k', v))
  (k : string) (v : Product) (m : list (string * Product)) :
  Forall P m -> map_get k m = Some v -> P (k, v).
Proof.
  induction 1 as [|[k' v'] m Hx _ IH]; simpl; [discriminate|].
  destruct (String.eqb k k'); [|assumption].
  intros E. inversion E; subst. eapply Pkey; eassumption.
Qed.

Lemma checkStockLevel_inventory (st : InventoryManager) (p : Product)
  (env : InvEnv) :
  inventory (checkStockLevel st p env) = inventory st.
Proof.
  unfold checkStockLevel.
  repeat match goal with |- context [if ?b then _ else _] => destruct b end;
    reflexivity.
Qed.

Lemma saveInventoryData_inventory (st : InventoryManager) (env : InvEnv) :
  inventory (saveInventoryData st env) = inventory st.
Proof. unfold saveInventoryData. destruct (inv_saveOk env); reflexivity. Qed.

Lemma updateStock_inventory (st : InventoryManager) (productId : string)
  (newStock : jsnum) (reason : string) (env : InvEnv) :
  inventory (fst (updateStock st productId newStock reason env)) =
    match map_get productId (inventory st) with
    | None => inventory st
    | Some product =>
        map_set productId
          (mkProduct (id product) (name product)
             (max (Num 0) (parseInt newStock))
             (minStock product) (maxStock product) (price product)
             (category product) (supplier product)
             (if lt (Num 0) (sub newStock (currentStock product))
                 && String.eqb reason "restock"
              then inv_now env else lastRestocked product)
             (inv_now env) (isActive product) (totalSales product)
             (emoji product) (color product))
          (inventory st)
    end.
Proof.
  unfold updateStock. destruct (map_get productId (inventory st)); [|reflexivity].
  cbn [fst]. now rewrite checkStockLevel_inventory, saveInventoryData_inventory.
Qed.




Lemma findProductByName_stored (st : InventoryManager) (pn key : string)
  (p : Product) :
  findProductByName st pn = Some (key, p) -> In (key, p) (inventory st).
Proof.
  unfold findProductByName.
  destruct (List.find _ (inventory st)) as [kv|] eqn:E.
  - intros E'. inversion E'; subst. now apply List.find_some in E.
  - intros E'. now apply List.find_some in E'.
Qed.






(** *** Product information at [addProduct] *)

Lemma addProduct_stored (st st' : InventoryManager) (pd : ProductData)
  (env : InvEnv) (p : Product) :
  addProduct st pd env = (st', Some p) ->
  build_product st pd env = Some p
  /\ map_get (id p) (inventory st') = Some p.
Proof.
  unfold addProduct.
  destruct (build_product st pd env) as [p0|]; [|discriminate].
  destruct (validateProductData p0); [|discriminate].
  intros E. inversion E; subst. split; [reflexivity|].
  cbn [notify inventory].
  rewrite checkStockLevel_inventory, saveInventoryData_inventory.
  apply map_get_set.
Qed.

(** Where the lookup answers with an entry of the table, the record
    stored has that entry's category, emoji and color, whatever category
    the caller gave. *)
Lemma addProduct_takes_table_entry (st st' : InventoryManager)
  (pd : ProductData) (env : InvEnv) (p : Product) (i : ProductInfo) :
  addProduct st pd env = (st', Some p) ->
  getProductInfo (pd_name pd) = Entry i ->
  category p = Constants.category i
  /\ emoji p = Some (Constants.emoji i)
  /\ color p = Some (Constants.color i).
Proof.
  intros Hadd Hinfo. apply addProduct_stored in Hadd as [Hb _].
  unfold build_product in Hb. rewrite Hinfo in Hb.
  destruct (pd_name pd); try discriminate.
  inversion Hb; subst. repeat split.
Qed.

(** The lookup answers with a member of [Object.prototype] exactly for
    the names that, in lower case and trimmed, are one of its keys. *)
Lemma getProductInfo_inherited (v : jsval) :
  getProductInfo v = ProtoMember ->
  exists s : string,
    v = JStr s /\ In (trim (toLowerCase s)) Object_prototype_keys.
Proof.
  destruct v as [| | | |s| |]; try discriminate.
  unfold getProductInfo.
  destruct (negb (truthy (JStr s))); [discriminate|].
  unfold PRODUCT_MAPPING_get.
  destruct (own _ PRODUCT_MAPPING) as [i|]; [discriminate|].
  destruct (existsb _ Object_prototype_keys) eqn:E.
  - intros _. exists s. split; [reflexivity|].
    apply existsb_exists in E as (k & Hin & Hk).
    apply String.eqb_eq in Hk. now subst.
  - destruct (partialMatch _ PRODUCT_MAPPING); discriminate.
Qed.

(** C10 at the failing input: a product named "constructor" is added
    with the caller's category "snacks"; the lookup returns a member
    inherited from [Object.prototype], its spread adds nothing, and the
    record stored keeps "snacks" and has neither emoji nor color. *)
Theorem inherited_name_keeps_caller_category :
  let result :=
    addProduct new_inventory Scenario.constructor_request
      (Scenario.inv_at Scenario.noon) in
  getProductInfo (pd_name Scenario.constructor_request) = ProtoMember
  /\ exists p : Product,
       snd result = Some p
       /\ map_get (id p) (inventory (fst result)) = Some p
       /\ category p = "snacks"
       /\ category p <> Constants.category PRODUCT_MAPPING_default
       /\ emoji p = None /\ color p = None.
Proof.
  cbv zeta. split; [reflexivity|].
  eexists. split; [reflexivity|].
  repeat split; try reflexivity. discriminate.
Qed.

End InventoryProps.

Module InventoryExamples.
Import JS Constants Helpers Inventory InventoryProps Scenario.

(** The scenario of the specification: with one "Cola Classic" left, a
    sale of "Cola" empties the stock and raises one out-of-stock alert; a
    second sale a minute later leaves the stock at 0 and raises nothing. *)
Example cola_classic_scenario :
  let again := handleSaleEvent none_left cola (inv_at (noon + hour + 60000)) in
  map (fun kv => currentStock (snd kv)) (inventory none_left) = [Num 0]
  /\ shown none_left = (shown one_left ++ [OutOfStockAlert "Cola Classic"])%list
  /\ map (fun kv => currentStock (snd kv)) (inventory again) = [Num 0]
  /\ shown again = shown none_left.
Proof. cbv zeta. repeat split; vm_compute; reflexivity. Qed.

(** What [parseInt] reads of some numbers: 12 of 12.5, 0 of -0.5, 1 of
    1e21, -1 of -1e-7, 0 of the double written 0.000001, which is a little
    below 1e-6, and 5 of the least double above zero, written 5e-324. *)
Example parseInt_reads_the_text :
  parseInt (Num (25 # 2)) = Num (inject_Z 12)
  /\ parseInt (Num (- (1 # 2))) = Num (inject_Z 0)
  /\ parseInt (Num (inject_Z (10 ^ 21))) = Num (inject_Z 1)
  /\ parseInt (Num (- double_1e_7)) = Num (inject_Z (-1))
  /\ parseInt (Num (roundToDouble (1 # 1000000))) = Num (inject_Z 0)
  /\ (roundToDouble (1 # 1000000) < 1 # 1000000)%Q
  /\ parseInt (Num (pow2 (-1074))) = Num (inject_Z 5).
Proof. repeat split; vm_compute; reflexivity. Qed.


End InventoryExamples.

(** ** The stream client *)

Module WebSocketProps.
Import JS Constants Helpers WebSocket QFacts.

(** *** Backoff *)

Lemma Math_min_le_r (a b : Q) : (Math_min a b <= b)%Q.
Proof.
  unfold Math_min. destruct (Qleb a b) eqn:E.
  - now apply Qleb_true.
  - apply Qle_refl.
Qed.

Lemma Math_min_mono (a b c : Q) :
  (a <= b)%Q -> (Math_min a c <= Math_min b c)%Q.
Proof.
  intros Hab. unfold Math_min.
  destruct (Qleb a c) eqn:Ea, (Qleb b c) eqn:Eb;
    try apply Qleb_true in Ea; try apply Qleb_true in Eb;
    try (apply not_true_iff_false in Ea; rewrite Qleb_true in Ea);
    try (apply not_true_iff_false in Eb; rewrite Qleb_true in Eb);
    lra.
Qed.

Lemma backoff_bounded (reconnectDelay : Q) (attempt : nat) (random : Q) :
  (backoff reconnectDelay attempt random <= 30000)%Q.
Proof. apply Math_min_le_r. Qed.

Lemma pow2_ge_1 (k : nat) : (1 <= inject_Z (2 ^ Z.of_nat k))%Q.
Proof.
  change 1%Q with (inject_Z 1). rewrite <- Zle_Qle.
  pose proof (Z.pow_pos_nonneg 2 (Z.of_nat k)). lia.
Qed.

Lemma pow2_double (k : nat) :
  (inject_Z (2 ^ Z.of_nat (S k)) == 2 * inject_Z (2 ^ Z.of_nat k))%Q.
Proof.
  rewrite Nat2Z.inj_succ, Z.pow_succ_r by lia.
  now rewrite inject_Z_mult.
Qed.

Lemma backoff_step (reconnectDelay : Q) (k : nat) (r1 r2 : Q) :
  (1000 <= reconnectDelay)%Q -> (r1 < 1)%Q -> (0 <= r2)%Q ->
  (backoff reconnectDelay (S k) r1 <= backoff reconnectDelay (S (S k)) r2)%Q.
Proof.
  intros Hbase Hr1 Hr2. unfold backoff. apply Math_min_mono.
  replace (S (S k) - 1)%nat with (S k) by lia.
  replace (S k - 1)%nat with k by lia.
  rewrite pow2_double.
  pose proof (pow2_ge_1 k) as Hp.
  set (P := inject_Z (2 ^ Z.of_nat k)) in *.
  assert (Hprod : (1000 <= reconnectDelay * P)%Q) by nra.
  lra.
Qed.

Lemma backoffs_nondecreasing (reconnectDelay : Q) (randoms : list Q) :
  (1000 <= reconnectDelay)%Q -> Forall unit_interval randoms ->
  forall done : nat, nondecreasing (backoffs reconnectDelay done randoms).
Proof.
  intros Hbase. induction 1 as [|r1 rest Hr1 Hrest IH]; intros done.
  - exact I.
  - cbn [backoffs]. destruct rest as [|r2 rest'].
    + exact I.
    + cbn [backoffs nondecreasing]. split.
      * inversion Hrest; subst. apply backoff_step; try assumption.
        -- apply Hr1.
        -- match goal with Hu : unit_interval r2 |- _ => apply Hu end.
      * apply (IH (S done)).
Qed.

Lemma backoffs_bounded (reconnectDelay : Q) (randoms : list Q) (done : nat) :
  Forall (fun d => (d <= 30000)%Q) (backoffs reconnectDelay done randoms).
Proof.
  revert done. induction randoms as [|r rest IH]; intros done; cbn [backoffs].
  - constructor.
  - constructor; [apply backoff_bounded | apply IH].
Qed.

(** *** [handleReconnect] *)

Lemma state_eqb_eq (a b : CONNECTION_STATES) : state_eqb a b = true -> a = b.
Proof. destruct a, b; simpl; congruence. Qed.

Lemma gave_up_count_app (l1 l2 : list Emitted) :
  gave_up_count (l1 ++ l2) = (gave_up_count l1 + gave_up_count l2)%nat.
Proof. unfold gave_up_count. now rewrite List.filter_app, List.length_app. Qed.

Lemma setConnectionState_frame (w : World) (state : CONNECTION_STATES) :
  let w' := setConnectionState w state in
  connectionState w' = state
  /\ gave_up_count (emitted w') = gave_up_count (emitted w)
  /\ timers w' = timers w /\ nextTimer w' = nextTimer w
  /\ reconnectAttempts w' = reconnectAttempts w
  /\ maxReconnectAttempts w' = maxReconnectAttempts w
  /\ reconnectDelay w' = reconnectDelay w
  /\ isManualClose w' = isManualClose w
  /\ sockets w' = sockets w.
Proof.
  unfold setConnectionState. destruct (state_eqb (connectionState w) state) eqn:E.
  - apply state_eqb_eq in E. repeat split; auto.
  - unfold emit, set_state.
    cbn [connectionState emitted timers nextTimer reconnectAttempts
         maxReconnectAttempts reconnectDelay isManualClose sockets].
    rewrite gave_up_count_app. cbn [gave_up_count List.filter length].
    repeat split; auto; lia.
Qed.

Lemma handleReconnect_next (w : World) (random : Q) :
  isManualClose w = false ->
  (reconnectAttempts w < maxReconnectAttempts w)%nat ->
  let w' := handleReconnect w random in
  isManualClose w' = false
  /\ maxReconnectAttempts w' = maxReconnectAttempts w
  /\ reconnectDelay w' = reconnectDelay w
  /\ reconnectAttempts w' = S (reconnectAttempts w)
  /\ timers w' =
     (timers w
      ++ [mkTimer (nextTimer w) ReconnectTimer
            (backoff (reconnectDelay w) (S (reconnectAttempts w)) random)])%list
  /\ connectionState w' = RECONNECTING
  /\ gave_up_count (emitted w') = gave_up_count (emitted w).
Proof.
  intros Hmanual Hless. unfold handleReconnect. rewrite Hmanual.
  destruct (Nat.leb_spec (maxReconnectAttempts w) (reconnectAttempts w));
    [lia|].
  pose proof (setConnectionState_frame
                (set_attempts w (S (reconnectAttempts w))) RECONNECTING) as F.
  cbv zeta in F.
  set (w2 := setConnectionState (set_attempts w (S (reconnectAttempts w)))
               RECONNECTING) in *.
  destruct F as (Hs & Hg & Ht & Hn & Ha & Hm & Hd & Hc & _).
  cbn in Hg, Ht, Hn, Ha, Hm, Hd, Hc.
  cbn [schedule fst set_timers isManualClose maxReconnectAttempts
       reconnectDelay reconnectAttempts timers connectionState emitted].
  rewrite Ha, Hd, Ht, Hn, Hc, Hm, Hg, Hs. repeat split; assumption.
Qed.

Lemma handleReconnect_gives_up (w : World) (random : Q) :
  isManualClose w = false ->
  (maxReconnectAttempts w <= reconnectAttempts w)%nat ->
  let w' := handleReconnect w random in
  gave_up_count (emitted w') = S (gave_up_count (emitted w))
  /\ timers w' = timers w
  /\ reconnectAttempts w' = reconnectAttempts w
  /\ connectionState w' = DISCONNECTED.
Proof.
  intros Hmanual Hmax. unfold handleReconnect. rewrite Hmanual.
  destruct (Nat.leb_spec (maxReconnectAttempts w) (reconnectAttempts w));
    [|lia].
  destruct (setConnectionState_frame w DISCONNECTED)
    as (Hs & Hg & Ht & _ & Ha & _).
  cbn [emit emitted timers reconnectAttempts connectionState].
  rewrite gave_up_count_app, Hg.
  cbn [gave_up_count List.filter length].
  repeat split; auto; lia.
Qed.

Lemma reconnectDelays_snoc (w w' : World) (i : nat) (d : Q) :
  timers w' = (timers w ++ [mkTimer i ReconnectTimer d])%list ->
  reconnectDelays w' = (reconnectDelays w ++ [d])%list.
Proof.
  unfold reconnectDelays. intros ->.
  now rewrite List.filter_app, List.map_app.
Qed.

Lemma reconnectRun_delays (randoms : list Q) :
  forall w : World,
    isManualClose w = false ->
    (reconnectAttempts w + length randoms <= maxReconnectAttempts w)%nat ->
    let w' := reconnectRun w randoms in
    reconnectDelays w' =
      (reconnectDelays w
       ++ backoffs (reconnectDelay w) (reconnectAttempts w) randoms)%list
    /\ gave_up_count (emitted w') = gave_up_count (emitted w).
Proof.
  unfold reconnectRun.
  induction randoms as [|r rest IH]; intros w Hmanual Hroom.
  - cbn. now rewrite app_nil_r.
  - cbn [length] in Hroom.
    destruct (handleReconnect_next w r Hmanual ltac:(lia))
      as (Hm & Hx & Hd & Ha & Ht & _ & Hg).
    cbn [fold_left backoffs].
    destruct (IH (handleReconnect w r) Hm ltac:(lia)) as (IHd & IHg).
    rewrite IHd, IHg, Hd, Ha, Hg, (reconnectDelays_snoc _ _ _ _ Ht).
    split; [|reflexivity]. now rewrite <- app_assoc.
Qed.

(** C5, amended: every computed delay is at most 30000 ms; with a base
    delay of at least 1000 ms and draws of [Math.random()] in [0, 1), the
    delays of attempts 1..k, k within the maximum, are those of the backoff
    formula and never decrease, and nothing is signalled; and a call of
    [handleReconnect] made once the attempt counter has reached the maximum
    dispatches the signal once, schedules nothing and moves to
    disconnected. *)
Theorem reconnection_policy :
  (forall (reconnectDelay : Q) (attempt : nat) (random : Q),
     (backoff reconnectDelay attempt random <= 30000)%Q)
  /\ (forall (w : World) (randoms : list Q),
        isManualClose w = false -> reconnectAttempts w = 0%nat ->
        reconnectDelays w = [] ->
        (length randoms <= maxReconnectAttempts w)%nat ->
        (1000 <= reconnectDelay w)%Q ->
        Forall unit_interval randoms ->
        let w' := reconnectRun w randoms in
        reconnectDelays w' = backoffs (reconnectDelay w) 0 randoms
        /\ nondecreasing (reconnectDelays w')
        /\ Forall (fun d => (d <= 30000)%Q) (reconnectDelays w')
        /\ gave_up_count (emitted w') = gave_up_count (emitted w))
  /\ (forall (w : World) (random : Q),
        isManualClose w = false ->
        (maxReconnectAttempts w <= reconnectAttempts w)%nat ->
        let w' := handleReconnect w random in
        gave_up_count (emitted w') = S (gave_up_count (emitted w))
        /\ timers w' = timers w
        /\ reconnectAttempts w' = reconnectAttempts w
        /\ connectionState w' = DISCONNECTED).
Proof.
  split; [|split].
  - apply backoff_bounded.
  - intros w randoms Hmanual Hzero Hnone Hroom Hbase Hdraws.
    destruct (reconnectRun_delays randoms w Hmanual ltac:(lia)) as (Hd & Hg).
    cbv zeta. rewrite Hd, Hnone, Hzero. cbn [app].
    split; [reflexivity|]. split; [|split].
    + now apply backoffs_nondecreasing.
    + apply backoffs_bounded.
    + exact Hg.
  - apply handleReconnect_gives_up.
Qed.

(** *** Inbound messages *)

Section Inbound.
Context `{Host}.

(** C7, amended: [onMessage] drops a payload, dispatching nothing, exactly
    when its decoded form is an object with a truthy [productName] that
    fails [validateSaleData]; every other payload (text that is not JSON,
    JSON that is not an object, an object without a truthy [productName],
    a valid sale) is dispatched as a message event with its decoded form,
    its raw form and the instant of receipt. *)
Theorem onMessage_forwarding (w : World) (raw : string) (json : option jsval)
  (now : Z) :
  let data := decoded raw json in
  (truthy data = true -> typeof data = TObject ->
   truthy (get data "productName") = true ->
   validateSaleData data <> [] ->
   onMessage w raw json now = w)
  /\ (truthy data = false \/ typeof data <> TObject
      \/ truthy (get data "productName") = false
      \/ validateSaleData data = [] ->
      onMessage w raw json now = emit w (Message data raw now)).
Proof.
  unfold onMessage, decoded.
  set (data := match json with Some v => v | None => JStr raw end).
  cbv zeta. split.
  - intros Ht Hobj Hname Hbad. rewrite Ht, Hobj, Hname. cbn.
    destruct (validateSaleData data); [congruence | reflexivity].
  - intros [Ht | [Hobj | [Hname | Hok]]].
    + now rewrite Ht.
    + destruct (typeof data); try congruence; cbn;
        now rewrite andb_false_r.
    + rewrite Hname. now rewrite andb_false_r.
    + rewrite Hok. now destruct (_ && _).
Qed.

End Inbound.

(** *** Manual disconnect *)

Lemma Forall_filter_keep {A : Type} (P : A -> Prop) (f : A -> bool)
  (l : list A) : Forall P l -> Forall P (List.filter f l).
Proof.
  induction 1 as [|a l Ha _ IH]; simpl; [constructor|].
  destruct (f a); [constructor|]; assumption.
Qed.

Lemma find_timer_cancel (w : World) (i : nat) :
  find_timer (cancel w i) i = None.
Proof.
  unfold find_timer, cancel. cbn [set_timers timers].
  induction (timers w) as [|t l IH]; [reflexivity|].
  cbn [List.filter]. destruct (Nat.eqb (timer_id t) i) eqn:E; cbn [negb].
  - exact IH.
  - cbn [List.find]. now rewrite E.
Qed.

Lemma find_timer_cancel_other (w : World) (i j : nat) :
  find_timer w j = None -> find_timer (cancel w i) j = None.
Proof.
  unfold find_timer, cancel. cbn [set_timers timers].
  induction (timers w) as [|t l IH]; [reflexivity|].
  cbn [List.find List.filter]. destruct (Nat.eqb (timer_id t) j) eqn:E;
    [discriminate|].
  intros Hrest. destruct (negb (Nat.eqb (timer_id t) i)); [|now apply IH].
  cbn [List.find]. rewrite E. now apply IH.
Qed.

Lemma In_cancel (w : World) (i : nat) (t : Timer) :
  In t (timers w) -> timer_id t <> i -> In t (timers (cancel w i)).
Proof.
  intros Hin Hne. unfold cancel. cbn [set_timers timers].
  apply List.filter_In. split; [assumption|].
  apply negb_true_iff, Nat.eqb_neq. assumption.
Qed.

Lemma stopHeartbeat_frame (w : World) :
  let w' := stopHeartbeat w in
  timers w' = without (heartbeatTimer w) (without (heartbeatInterval w) (timers w))
  /\ heartbeatInterval w' = None
  /\ isManualClose w' = isManualClose w /\ sockets w' = sockets w
  /\ ws w' = ws w /\ connectionTimeout w' = connectionTimeout w
  /\ connectionState w' = connectionState w.
Proof.
  unfold stopHeartbeat.
  destruct (heartbeatInterval w) eqn:Ei; cbn;
    destruct (heartbeatTimer w) eqn:Et; cbn; rewrite ?Ei, ?Et;
    repeat split; reflexivity.
Qed.

Lemma clearConnectionTimeout_frame (w : World) :
  let w' := clearConnectionTimeout w in
  timers w' = without (connectionTimeout w) (timers w)
  /\ connectionTimeout w' = None
  /\ heartbeatInterval w' = heartbeatInterval w
  /\ isManualClose w' = isManualClose w /\ sockets w' = sockets w
  /\ ws w' = ws w /\ connectionState w' = connectionState w.
Proof.
  unfold clearConnectionTimeout.
  destruct (connectionTimeout w) eqn:E; cbn; rewrite ?E;
    repeat split; reflexivity.
Qed.

Lemma update_nth_length {A : Type} (n : nat) (x : A) (l : list A) :
  length (update_nth n x l) = length l.
Proof.
  revert n. induction l as [|y l IH]; intros [|n]; simpl; auto.
Qed.

Lemma close_socket_frame (w : World) (h : nat) :
  let w' := close_socket w h in
  timers w' = timers w /\ length (sockets w') = length (sockets w)
  /\ isManualClose w' = isManualClose w
  /\ heartbeatInterval w' = heartbeatInterval w
  /\ connectionTimeout w' = connectionTimeout w
  /\ connectionState w' = connectionState w.
Proof.
  unfold close_socket. destruct (readyState w h); cbn;
    rewrite ?update_nth_length; repeat split; reflexivity.
Qed.

Lemma disconnect_frame (w : World) :
  let w' := disconnect w in
  timers w' =
    without (connectionTimeout w)
      (without (heartbeatTimer w) (without (heartbeatInterval w) (timers w)))
  /\ isManualClose w' = true
  /\ connectionState w' = DISCONNECTED
  /\ ws w' = None
  /\ heartbeatInterval w' = None
  /\ connectionTimeout w' = None
  /\ length (sockets w') = length (sockets w).
Proof.
  unfold disconnect.
  pose proof (stopHeartbeat_frame (set_isManualClose w true)) as F1.
  cbv zeta in F1.
  set (w2 := stopHeartbeat (set_isManualClose w true)) in *.
  destruct F1 as (T1 & H1 & M1 & S1 & W1 & C1 & _). cbn in T1, M1, S1, W1, C1.
  pose proof (clearConnectionTimeout_frame w2) as F2. cbv zeta in F2.
  set (w3 := clearConnectionTimeout w2) in *.
  destruct F2 as (T2 & C2 & H2 & M2 & S2 & W2 & _).
  set (w4 := match ws w3 with
             | Some h => set_ws (close_socket w3 h) None
             | None => w3
             end).
  assert (F4 : timers w4 = timers w3 /\ isManualClose w4 = isManualClose w3
               /\ ws w4 = None /\ heartbeatInterval w4 = heartbeatInterval w3
               /\ connectionTimeout w4 = connectionTimeout w3
               /\ length (sockets w4) = length (sockets w3)).
  { subst w4. destruct (ws w3) as [h|] eqn:E.
    - destruct (close_socket_frame w3 h) as (T & S & M & Hh & C & _).
      cbn. repeat split; assumption.
    - repeat split; assumption. }
  destruct F4 as (T4 & M4 & W4 & H4 & C4 & S4).
  destruct (setConnectionState_frame w4 DISCONNECTED)
    as (St & _ & T5 & _ & _ & _ & _ & M5 & S5).
  assert (F5 : ws (setConnectionState w4 DISCONNECTED) = ws w4
               /\ heartbeatInterval (setConnectionState w4 DISCONNECTED)
                  = heartbeatInterval w4
               /\ connectionTimeout (setConnectionState w4 DISCONNECTED)
                  = connectionTimeout w4).
  { unfold setConnectionState.
    destruct (state_eqb (connectionState w4) DISCONNECTED);
      repeat split; reflexivity. }
  destruct F5 as (W5 & H5 & C5).
  rewrite T5, T4, T2, C1, T1, M5, M4, M2, M1, W5, W4, H5, H4, H2, H1,
    C5, C4, C2, S5, S4, S2, S1.
  repeat split; try reflexivity; assumption.
Qed.

Lemma find_without_same (i : nat) (l : list Timer) :
  List.find (fun t => Nat.eqb (timer_id t) i) (without (Some i) l) = None.
Proof.
  cbn [without]. induction l as [|t l IH]; [reflexivity|].
  cbn [List.filter]. destruct (Nat.eqb (timer_id t) i) eqn:E; cbn [negb].
  - exact IH.
  - cbn [List.find]. now rewrite E.
Qed.

Lemma find_without_none (o : option nat) (j : nat) (l : list Timer) :
  List.find (fun t => Nat.eqb (timer_id t) j) l = None ->
  List.find (fun t => Nat.eqb (timer_id t) j) (without o l) = None.
Proof.
  destruct o as [i|]; [|auto]. cbn [without].
  induction l as [|t l IH]; [reflexivity|].
  cbn [List.find List.filter]. destruct (Nat.eqb (timer_id t) j) eqn:E;
    [discriminate|].
  intros Hrest. destruct (negb (Nat.eqb (timer_id t) i)); [|now apply IH].
  cbn [List.find]. rewrite E. now apply IH.
Qed.

Lemma In_without (o : option nat) (t : Timer) (l : list Timer) :
  In t l -> o <> Some (timer_id t) -> In t (without o l).
Proof.
  destruct o as [i|]; [|auto]. intros Hin Hne. cbn [without].
  apply List.filter_In. split; [assumption|].
  apply negb_true_iff, Nat.eqb_neq. congruence.
Qed.

Lemma Forall_without (P : Timer -> Prop) (o : option nat) (l : list Timer) :
  Forall P l -> Forall P (without o l).
Proof.
  destruct o; [apply Forall_filter_keep | auto].
Qed.

(** *** After a manual close nothing reconnects *)

Lemma quiet_stopHeartbeat (w : World) (n : nat) :
  quiet w n -> quiet (stopHeartbeat w) n.
Proof.
  intros (M & D & S).
  destruct (stopHeartbeat_frame w) as (T' & _ & M' & S' & _).
  unfold quiet, no_deferred. rewrite T', M', S'.
  repeat split; auto. now repeat apply Forall_without.
Qed.

Lemma quiet_clearConnectionTimeout (w : World) (n : nat) :
  quiet w n -> quiet (clearConnectionTimeout w) n.
Proof.
  intros (M & D & S).
  destruct (clearConnectionTimeout_frame w) as (T' & _ & _ & M' & S' & _).
  unfold quiet, no_deferred. rewrite T', M', S'.
  repeat split; auto. now apply Forall_without.
Qed.

Lemma quiet_setConnectionState (w : World) (state : CONNECTION_STATES)
  (n : nat) : quiet w n -> quiet (setConnectionState w state) n.
Proof.
  intros (M & D & S).
  destruct (setConnectionState_frame w state)
    as (_ & _ & T' & _ & _ & _ & _ & M' & S').
  unfold quiet, no_deferred. rewrite T', M', S'. auto.
Qed.

Lemma quiet_emit (w : World) (e : Emitted) (n : nat) :
  quiet w n -> quiet (emit w e) n.
Proof. intros Q. exact Q. Qed.

Lemma quiet_cancel (w : World) (i n : nat) : quiet w n -> quiet (cancel w i) n.
Proof.
  intros (M & D & S). unfold quiet, no_deferred, cancel.
  cbn [set_timers isManualClose timers sockets].
  repeat split; auto. now apply Forall_filter_keep.
Qed.

Lemma quiet_close_socket (w : World) (h n : nat) :
  quiet w n -> quiet (close_socket w h) n.
Proof.
  intros (M & D & S).
  destruct (close_socket_frame w h) as (T' & S' & M' & _).
  unfold quiet, no_deferred. rewrite T', M', S'. auto.
Qed.

Lemma quiet_send (w : World) (frame : jsval) (n : nat) :
  quiet w n -> quiet (fst (send w frame)) n.
Proof.
  intros Q. unfold send.
  destruct (ws w); [destruct (ready_eqb _ _)|]; exact Q.
Qed.

Lemma quiet_transmit_all (h n : nat) (queue : list jsval) :
  forall w : World,
    quiet w n ->
    quiet (fold_left (fun acc message => transmit acc h message) queue w) n.
Proof.
  induction queue as [|message queue IH]; intros w Q; [exact Q|].
  cbn [fold_left]. apply IH. exact Q.
Qed.

Lemma quiet_flushQueue (w : World) (n : nat) :
  quiet w n -> quiet (flushQueue w) n.
Proof.
  intros Q. unfold flushQueue.
  destruct (ws w); [destruct (ready_eqb _ _)|]; try exact Q.
  apply quiet_transmit_all. exact Q.
Qed.

Lemma quiet_startHeartbeat (w : World) (n : nat) :
  quiet w n -> quiet (startHeartbeat w) n.
Proof.
  intros Q. apply quiet_stopHeartbeat in Q. destruct Q as (M & D & S).
  unfold startHeartbeat. cbn [Z.eqb HEARTBEAT_INTERVAL schedule].
  unfold quiet, no_deferred.
  cbn [set_heartbeatInterval set_timers isManualClose timers sockets].
  repeat split; auto.
  apply List.Forall_app. split; [exact D|]. now repeat constructor.
Qed.

Lemma quiet_onOpen (w : World) (n : nat) : quiet w n -> quiet (onOpen w) n.
Proof.
  intros Q. unfold onOpen. apply quiet_emit, quiet_flushQueue,
    quiet_startHeartbeat.
  assert (Q' : quiet (setConnectionState (clearConnectionTimeout w) CONNECTED) n)
    by now apply quiet_setConnectionState, quiet_clearConnectionTimeout.
  exact Q'.
Qed.

Lemma quiet_handleReconnect (w : World) (random : Q) (n : nat) :
  quiet w n -> handleReconnect w random = w.
Proof.
  intros (M & _). unfold handleReconnect. now rewrite M.
Qed.

Lemma quiet_onClose (w : World) (random : Q) (n : nat) :
  quiet w n -> quiet (onClose w random) n.
Proof.
  intros Q. unfold onClose.
  assert (Q' : quiet (emit (clearConnectionTimeout (stopHeartbeat w)) Close) n)
    by now apply quiet_emit, quiet_clearConnectionTimeout,
         quiet_stopHeartbeat.
  destruct Q' as (M & D & S). cbv zeta. rewrite M. repeat split; assumption.
Qed.

Lemma quiet_set_socket (w : World) (h : nat) (r : ReadyState) (n : nat) :
  quiet w n -> quiet (set_sockets w (update_nth h r (sockets w))) n.
Proof.
  intros (M & D & S). unfold quiet, no_deferred.
  cbn [set_sockets isManualClose timers sockets].
  rewrite update_nth_length. auto.
Qed.

Lemma find_timer_some (w : World) (i : nat) (t : Timer) :
  find_timer w i = Some t -> In t (timers w) /\ timer_id t = i.
Proof.
  unfold find_timer. intros E. apply List.find_some in E as [Hin Hid].
  split; [assumption | now apply Nat.eqb_eq].
Qed.

Lemma quiet_fire (w : World) (i : nat) (c : Ctx) (n : nat) :
  quiet w n -> quiet (fire w i c) n.
Proof.
  intros Q. unfold fire.
  destruct (find_timer w i) as [t|] eqn:E; [|exact Q].
  apply find_timer_some in E as [Hin _].
  destruct (timer_kind t) eqn:K; cbn [callback].
  - pose proof (quiet_cancel w i n Q) as Qc.
    destruct (ws (cancel w i)) as [h|]; [|exact Qc].
    destruct (ready_eqb _ _); [|exact Qc].
    rewrite (quiet_handleReconnect _ _ n (quiet_close_socket _ h n Qc)).
    now apply quiet_close_socket.
  - pose proof (quiet_cancel w i n Q) as Qc.
    destruct Qc as (M & D & S). rewrite M. repeat split; assumption.
  - destruct (ws_is w SOCK_OPEN); [now apply quiet_send | exact Q].
  - exfalso. destruct Q as (_ & D & _). unfold no_deferred in D.
    rewrite List.Forall_forall in D. specialize (D t Hin).
    unfold is_deferred in D. rewrite K in D. discriminate.
Qed.

Section Reactions.
Context `{Host}.

Lemma quiet_onMessage (w : World) (raw : string) (json : option jsval)
  (now : Z) (n : nat) : quiet w n -> quiet (onMessage w raw json now) n.
Proof.
  intros Q. unfold onMessage.
  destruct (_ && _); [destruct (validateSaleData _)|]; exact Q.
Qed.

Lemma quiet_react (w : World) (e : Happening) (c : Ctx) (n : nat) :
  quiet w n -> quiet (react w e c) n.
Proof.
  intros Q. destruct e as [i | h | h | h | h raw json]; cbn [react].
  - now apply quiet_fire.
  - destruct (ready_eqb _ _); [|exact Q].
    now apply quiet_onOpen, quiet_set_socket.
  - destruct (_ && _); [|exact Q].
    now apply quiet_onClose, quiet_set_socket.
  - destruct (_ <? _)%nat; exact Q.
  - destruct (ready_eqb _ _); [|exact Q]. now apply quiet_onMessage.
Qed.

Lemma quiet_reacts (es : list (Happening * Ctx)) (n : nat) :
  forall w : World, quiet w n -> quiet (reacts w es) n.
Proof.
  induction es as [|[e c] es IH]; intros w Q; [exact Q|].
  cbn [reacts]. apply IH. now apply quiet_react.
Qed.

Lemma update_nth_held {A : Type} (x d : A) (l : list A) :
  forall n : nat, nth n l d <> d -> nth n (update_nth n x l) d = x.
Proof.
  induction l as [|y l IH]; intros [|n] Hn; cbn in *;
    try contradiction; [reflexivity | now apply IH].
Qed.

(** After [disconnect()] the socket the manager held is no longer
    connecting or open. *)
Lemma disconnect_closes_socket (w : World) (h : nat) :
  ws w = Some h ->
  readyState (disconnect w) h = SOCK_CLOSING
  \/ readyState (disconnect w) h = SOCK_CLOSED.
Proof.
  intros Hws. unfold disconnect.
  pose proof (stopHeartbeat_frame (set_isManualClose w true)) as F1.
  cbv zeta in F1.
  set (w2 := stopHeartbeat (set_isManualClose w true)) in *.
  destruct F1 as (_ & _ & _ & S1 & W1 & _). cbn in S1, W1.
  pose proof (clearConnectionTimeout_frame w2) as F2. cbv zeta in F2.
  set (w3 := clearConnectionTimeout w2) in *.
  destruct F2 as (_ & _ & _ & _ & S2 & W2 & _).
  rewrite W2, W1, Hws.
  destruct (setConnectionState_frame (set_ws (close_socket w3 h) None)
              DISCONNECTED) as (_ & _ & _ & _ & _ & _ & _ & _ & S5).
  unfold readyState. rewrite S5.
  assert (S4 : sockets (set_ws (close_socket w3 h) None)
               = sockets (close_socket w3 h)) by reflexivity.
  rewrite S4. unfold close_socket, readyState.
  destruct (nth h (sockets w3) SOCK_CLOSED) eqn:E;
    cbn [set_sockets sockets].
  - left. apply update_nth_held. rewrite E. discriminate.
  - left. apply update_nth_held. rewrite E. discriminate.
  - left. exact E.
  - right. exact E.
Qed.

(** C8, amended: [disconnect()] sets the manual-close flag, takes the
    heartbeat interval and the connection timeout it holds out of the
    pending timers, closes the socket (the manager lets go of it, and it is
    closing or closed) and moves to disconnected.  Any other
    pending timer stays pending: a reconnection timer scheduled by
    [handleReconnect] still comes due, and its callback, finding the flag
    set, only leaves the pending set.  From then on, with no deferred
    connect of [reset] or [updateUrl] pending and until [connect()] is
    called, whatever timers come due and whatever the sockets report, the
    flag stays set and no socket is made. *)
Theorem disconnect_stops_reconnection (w : World) :
  let w' := disconnect w in
  (isManualClose w' = true /\ connectionState w' = DISCONNECTED
   /\ ws w' = None /\ heartbeatInterval w' = None
   /\ connectionTimeout w' = None
   /\ (forall h : nat,
         ws w = Some h ->
         readyState w' h = SOCK_CLOSING \/ readyState w' h = SOCK_CLOSED))
  /\ (forall i : nat,
        heartbeatInterval w = Some i \/ connectionTimeout w = Some i ->
        find_timer w' i = None)
  /\ (forall t : Timer,
        In t (timers w) ->
        heartbeatInterval w <> Some (timer_id t) ->
        heartbeatTimer w <> Some (timer_id t) ->
        connectionTimeout w <> Some (timer_id t) ->
        In t (timers w'))
  /\ (forall (i : nat) (t : Timer) (c : Ctx),
        find_timer w' i = Some t -> timer_kind t = ReconnectTimer ->
        fire w' i c = cancel w' i)
  /\ (forall es : list (Happening * Ctx),
        no_deferred w ->
        isManualClose (reacts w' es) = true
        /\ length (sockets (reacts w' es)) = length (sockets w)).
Proof.
  destruct (disconnect_frame w) as (T & M & St & W & Hb & Ct & S).
  cbv zeta.
  split; [repeat split; try assumption; apply disconnect_closes_socket|].
  split; [|split; [|split]].
  - intros i Hi. unfold find_timer. rewrite T.
    destruct Hi as [Hi | Hi]; rewrite Hi.
    + apply find_without_none, find_without_none, find_without_same.
    + apply find_without_same.
  - intros t Hin H1 H2 H3. rewrite T.
    now repeat apply In_without.
  - intros i t c Hfind Hkind. unfold fire. rewrite Hfind, Hkind.
    cbn [callback]. unfold cancel at 1. cbn [set_timers isManualClose].
    now rewrite M.
  - intros es Hnone.
    assert (Q : quiet (disconnect w) (length (sockets w))).
    { unfold quiet, no_deferred. rewrite T, M, S.
      repeat split; auto. now repeat apply Forall_without. }
    destruct (quiet_reacts es _ _ Q) as (M' & _ & S'). auto.
Qed.

End Reactions.

End WebSocketProps.

(** *** The stream client on the reference host *)

Module WebSocketExamples.
Import JS Constants Helpers WebSocket WebSocketProps Reference Scenario.

(** Counterexample to C5 as stated: with a base delay of 100 ms and the
    draws 0.9 and 0, both in [0, 1), the delay of attempt 1 is 1000 ms and
    the delay of attempt 2 is 200 ms. *)
Lemma small_base_delay_decreases :
  let w := reconnectRun (new_world "wss://feed" 10 100) [9 # 10; 0]%Q in
  unit_interval (9 # 10) /\ unit_interval 0
  /\ reconnectDelays w = [backoff 100 1 (9 # 10); backoff 100 2 0]
  /\ (backoff 100 1 (9 # 10) == 1000)%Q
  /\ (backoff 100 2 0 == 200)%Q
  /\ ~ nondecreasing (reconnectDelays w).
Proof.
  cbv zeta. split; [split; [discriminate | reflexivity]|].
  split; [split; [discriminate | reflexivity]|].
  split; [vm_compute; reflexivity|]. split; [reflexivity|].
  split; [reflexivity|].
  intros [Hle _]. vm_compute in Hle. apply Hle. reflexivity.
Qed.

Lemma reconnection_policy_witness :
  let randoms := [1 # 2; 0; 9 # 10]%Q in
  let w' := reconnectRun feed0 randoms in
  Forall unit_interval randoms
  /\ reconnectDelays w' = backoffs (reconnectDelay feed0) 0 randoms
  /\ nondecreasing (reconnectDelays w')
  /\ gave_up_count (emitted (handleReconnect w' (1 # 2))) = 1%nat
  /\ timers (handleReconnect w' (1 # 2)) = timers w'.
Proof.
  intros randoms w'.
  pose proof reconnection_policy as (_ & Hrun & Hstop).
  assert (Hdraws : Forall unit_interval randoms).
  { repeat apply List.Forall_cons; try apply List.Forall_nil;
      (split; [discriminate | reflexivity]). }
  split; [exact Hdraws|].
  destruct (Hrun feed0 randoms) as (Hd & Hs & _ & _);
    try reflexivity; try exact Hdraws.
  { discriminate. }
  split; [exact Hd|]. split; [exact Hs|].
  destruct (Hstop w' (1 # 2)) as (Hg & Ht & _ & _);
    [reflexivity | vm_compute; lia |].
  split; [exact Hg | exact Ht].
Defined.

(** Counterexample to C7 as stated: a payload that is not JSON, and an
    object whose [productName] is the empty string (which fails validation),
    are each dispatched to subscribers as a message event. *)
Lemma non_sale_payloads_are_forwarded :
  (typeof (decoded "hello" None) <> TObject
   /\ emitted (@onMessage utcHost feed0 "hello" None noon)
      = [Message (JStr "hello") "hello" noon])
  /\ (typeof (decoded nameless_raw (Some nameless)) = TObject
      /\ @validateSaleData utcHost nameless <> []
      /\ emitted (@onMessage utcHost feed0 nameless_raw (Some nameless) noon)
         = [Message nameless nameless_raw noon]).
Proof.
  split; [split; [discriminate | reflexivity]|].
  split; [reflexivity|]. split; [discriminate | reflexivity].
Qed.

Lemma onMessage_forwarding_witness :
  @onMessage utcHost feed0 shouting_raw (Some shouting) noon = feed0
  /\ @onMessage utcHost feed0 "hello" None noon
     = emit feed0 (Message (JStr "hello") "hello" noon).
Proof.
  split.
  - apply (@onMessage_forwarding utcHost feed0 shouting_raw (Some shouting) noon);
      try reflexivity; discriminate.
  - apply (@onMessage_forwarding utcHost feed0 "hello" None noon).
    right. left. discriminate.
Defined.

(** Counterexample to C8 as stated: with a reconnection scheduled,
    [disconnect()] leaves the reconnection timer pending; it comes due after
    the call has returned. *)
Lemma reconnect_timer_survives_disconnect :
  let w := disconnect feed_retrying in
  exists t : Timer,
    find_timer feed_retrying 2 = Some t
    /\ timer_kind t = ReconnectTimer
    /\ find_timer w 2 = Some t
    /\ isManualClose w = true
    /\ timers (fire w 2 (step_at (noon + 2))) = [].
Proof.
  cbv zeta.
  exists (mkTimer 2 ReconnectTimer
            (backoff (inject_Z RECONNECT_DELAY) 1 (1 # 2))).
  repeat split; vm_compute; reflexivity.
Qed.

Lemma disconnect_stops_reconnection_witness :
  let w' := disconnect feed_retrying in
  no_deferred feed_retrying
  /\ connectionState w' = DISCONNECTED
  /\ fire w' 2 (step_at (noon + 2)) = cancel w' 2
  /\ length
       (sockets
          (@reacts utcHost w'
             [(TimerDue 2, step_at (noon + 2));
              (SocketClosed 0, step_at (noon + 3))])) = 1%nat.
Proof.
  intros w'.
  assert (Hnone : no_deferred feed_retrying)
    by (vm_compute; repeat constructor).
  split; [exact Hnone|].
  destruct (@disconnect_stops_reconnection utcHost feed_retrying)
    as ((_ & Hstate & _) & _ & _ & Hfire & Hquiet).
  split; [exact Hstate|]. split.
  - apply (Hfire 2%nat
             (mkTimer 2 ReconnectTimer
                (backoff (inject_Z RECONNECT_DELAY) 1 (1 # 2)))
             (step_at (noon + 2)));
      vm_compute; reflexivity.
  - destruct (Hquiet [(TimerDue 2, step_at (noon + 2));
                      (SocketClosed 0, step_at (noon + 3))] Hnone)
      as (_ & Hsockets).
    apply (eq_trans Hsockets). vm_compute. reflexivity.
Defined.

(** Beside C5: when the connection timeout comes due at the maximum,
    its callback calls [handleReconnect] and the close event that follows
    calls it again; the signal of giving up is dispatched twice. *)
Example give_up_signalled_twice :
  let w1 := fire feed_last_try 1 (step_at (noon + 10000)) in
  let w2 := @react utcHost w1 (SocketClosed 0) (step_at (noon + 10001)) in
  gave_up_count (emitted feed_last_try) = 0%nat
  /\ gave_up_count (emitted w1) = 1%nat
  /\ gave_up_count (emitted w2) = 2%nat.
Proof. cbv zeta. repeat split; vm_compute; reflexivity. Qed.

(** Beside C8: a connect deferred by [reset()] has no guard; it comes
    due after a later [disconnect()] and opens a new socket. *)
Example deferred_connect_outlives_disconnect :
  let w1 := reset feed_connected (step_at (noon + 2)) in
  let w2 := disconnect w1 in
  let w3 := fire w2 3 (step_at (noon + 1002)) in
  map timer_kind (timers w2) = [DeferredConnect]
  /\ isManualClose w2 = true
  /\ length (sockets w2) = 1%nat
  /\ isManualClose w3 = false
  /\ length (sockets w3) = 2%nat
  /\ connectionState w3 = CONNECTING.
Proof. cbv zeta. repeat split; vm_compute; reflexivity. Qed.

End WebSocketExamples.

(** * Further properties *)

(** ** Strings *)
Module StringFacts.
Import JS.

Lemma lower_char_idem (c : ascii) : lower_char (lower_char c) = lower_char c.
Proof. destruct c as [[] [] [] [] [] [] [] []]; vm_compute; reflexivity. Qed.

Lemma is_space_lower (c : ascii) : is_space (lower_char c) = is_space c.
Proof. destruct c as [[] [] [] [] [] [] [] []]; vm_compute; reflexivity. Qed.

Lemma toLowerCase_idem (s : string) :
  toLowerCase (toLowerCase s) = toLowerCase s.
Proof.
  induction s as [|c s IH]; cbn [toLowerCase]; [reflexivity|].
  now rewrite lower_char_idem, IH.
Qed.

Lemma toLowerCase_trimStart (s : string) :
  toLowerCase (trimStart s) = trimStart (toLowerCase s).
Proof.
  induction s as [|c s IH]; cbn [toLowerCase trimStart]; [reflexivity|].
  rewrite is_space_lower. destruct (is_space c); [exact IH | reflexivity].
Qed.

Lemma toLowerCase_trimEnd (s : string) :
  toLowerCase (trimEnd s) = trimEnd (toLowerCase s).
Proof.
  induction s as [|c s IH]; cbn [toLowerCase trimEnd]; [reflexivity|].
  rewrite <- IH, is_space_lower.
  destruct (trimEnd s) as [|a t]; cbn [toLowerCase].
  - destruct (is_space c); reflexivity.
  - reflexivity.
Qed.

Lemma toLowerCase_trim (s : string) :
  toLowerCase (trim s) = trim (toLowerCase s).
Proof.
  unfold trim. now rewrite toLowerCase_trimEnd, toLowerCase_trimStart.
Qed.

(** The string is empty or starts with a character that is not white
    space. *)
Lemma trimStart_head (s : string) :
  match trimStart s with
  | EmptyString => True
  | String c _ => is_space c = false
  end.
Proof.
  induction s as [|c s IH]; cbn [trimStart]; [exact I|].
  destruct (is_space c) eqn:E; [exact IH | exact E].
Qed.

Lemma trimStart_fixed (s : string) :
  match s with
  | EmptyString => True
  | String c _ => is_space c = false
  end ->
  trimStart s = s.
Proof.
  destruct s as [|c s]; [reflexivity|]. cbn [trimStart]. now intros ->.
Qed.

Lemma trimEnd_head (s : string) :
  match s with
  | EmptyString => True
  | String c _ => is_space c = false
  end ->
  match trimEnd s with
  | EmptyString => True
  | String c _ => is_space c = false
  end.
Proof.
  destruct s as [|c s]; [intros _; exact I|]. cbn [trimEnd]. intros E.
  rewrite E. now destruct (trimEnd s).
Qed.

Lemma trimEnd_idem (s : string) : trimEnd (trimEnd s) = trimEnd s.
Proof.
  induction s as [|c s IH]; [reflexivity|]. cbn [trimEnd].
  destruct (trimEnd s) as [|a t] eqn:E.
  - destruct (is_space c) eqn:Ec; [reflexivity|].
    cbn [trimEnd]. now rewrite Ec.
  - change (trimEnd (String c (String a t))) with
      (match trimEnd (String a t) with
       | EmptyString => if is_space c then EmptyString else String c EmptyString
       | t' => String c t'
       end).
    now rewrite IH.
Qed.

Lemma trim_idem (s : string) : trim (trim s) = trim s.
Proof.
  unfold trim.
  rewrite (trimStart_fixed (trimEnd (trimStart s))).
  - apply trimEnd_idem.
  - apply trimEnd_head, trimStart_head.
Qed.

(** Lower case and trimming, once done, change nothing when done
    again. *)
Lemma normalize_idem (s : string) :
  trim (toLowerCase (trim (toLowerCase s))) = trim (toLowerCase s).
Proof.
  now rewrite toLowerCase_trim, toLowerCase_idem, trim_idem.
Qed.

Lemma startsWith_refl (s : string) : startsWith s s = true.
Proof.
  induction s as [|c s IH]; [reflexivity|]. cbn [startsWith].
  now rewrite Ascii.eqb_refl, IH.
Qed.

Lemma includes_refl (s : string) : includes s s = true.
Proof. destruct s; cbn [includes]; now rewrite startsWith_refl. Qed.

Lemma includes_later (c : ascii) (s p : string) :
  includes s p = true -> includes (String c s) p = true.
Proof. intros E. cbn [includes]. rewrite E. apply orb_true_r. Qed.

Lemma includes_empty (s : string) : includes s "" = true.
Proof. destruct s; reflexivity. Qed.

Lemma includes_trimStart (s p : string) :
  includes (trimStart s) p = true -> includes s p = true.
Proof.
  induction s as [|c s IH]; cbn [trimStart]; [auto|].
  destruct (is_space c); [|auto].
  intros E. apply includes_later. now apply IH.
Qed.

Lemma startsWith_trimEnd (s : string) : startsWith (trimEnd s) s = true.
Proof.
  induction s as [|c s IH]; [reflexivity|]. cbn [trimEnd].
  destruct (trimEnd s) as [|a t].
  - destruct (is_space c); [reflexivity|].
    cbn [startsWith]. now rewrite Ascii.eqb_refl.
  - cbn [startsWith] in *. now rewrite Ascii.eqb_refl, IH.
Qed.

Lemma includes_starts (s p : string) :
  startsWith p s = true -> includes s p = true.
Proof. intros E. destruct s; cbn [includes]; now rewrite E. Qed.

(** A string includes its trimmed form. *)
Lemma includes_trim (s : string) : includes s (trim s) = true.
Proof.
  apply includes_trimStart, includes_starts. unfold trim.
  apply startsWith_trimEnd.
Qed.

Lemma toLowerCase_empty (s : string) : toLowerCase s = "" -> s = "".
Proof. destruct s; [reflexivity | discriminate]. Qed.

End StringFacts.

(** ** Helper utilities *)

Module HelpersExtras.
Import JS Constants Helpers QFacts StringFacts.

(** *** [extractPrice] *)

Lemma digit_val_nonneg (c : ascii) : is_digit c = true -> (0 <= digit_val c)%Z.
Proof.
  unfold is_digit, digit_val. intros E.
  apply andb_true_iff in E as [E _]. apply N.leb_le in E. lia.
Qed.

Lemma digits_nonneg (s : string) :
  forall (acc : Z) (len : nat),
    (0 <= acc)%Z -> (0 <= fst (fst (digits s acc len)))%Z.
Proof.
  induction s as [|c s IH]; intros acc len Hacc; simpl; [assumption|].
  destruct (is_digit c) eqn:E; [|assumption].
  apply IH. pose proof (digit_val_nonneg c E). lia.
Qed.

Lemma decimalAt_nonneg (s : string) : (0 <= decimalAt s)%Q.
Proof.
  unfold decimalAt.
  pose proof (digits_nonneg s 0 0%nat ltac:(lia)) as Hip.
  destruct (digits s 0 0%nat) as [[ip n] rest]. cbn [fst] in Hip.
  assert (Hint : (0 <= inject_Z ip)%Q).
  { change 0%Q with (inject_Z 0). now rewrite <- Zle_Qle. }
  destruct rest as [|c rest']; [assumption|].
  destruct (Ascii.eqb_spec c "."%char) as [->|Hc].
  - pose proof (digits_nonneg rest' 0 0%nat ltac:(lia)) as Hfp.
    destruct (digits rest' 0 0%nat) as [[fp k] rest'']. cbn [fst] in Hfp.
    unfold Qle. cbn [Qnum Qden]. rewrite Z.mul_1_r.
    pose proof (Z.pow_pos_nonneg 10 (Z.of_nat k)). nia.
  - destruct c as [[] [] [] [] [] [] [] []]; try assumption. congruence.
Qed.

Lemma matchPrice_nonneg (s : string) (q : Q) :
  matchPrice s = Some q -> (0 <= q)%Q.
Proof.
  induction s as [|c s IH]; [discriminate|].
  cbn [matchPrice]. destruct (is_digit c).
  - intros E. inversion E. apply decimalAt_nonneg.
  - exact IH.
Qed.

(** X1: whatever the text, [extractPrice] of a string is a number that
    is not negative, never [NaN]: the pattern captures digits only, so a
    minus sign in front of the amount is not read; and a value that is
    neither a number nor a string gives 0. *)
Theorem extractPrice_of_text_not_negative :
  (forall s : string,
     exists q : Q, extractPrice (JStr s) = Num q /\ (0 <= q)%Q)
  /\ extractPrice JUndefined = Num 0
  /\ extractPrice JNull = Num 0
  /\ (forall b : bool, extractPrice (JBool b) = Num 0)
  /\ (forall xs : list jsval, extractPrice (JArr xs) = Num 0)
  /\ (forall fs : list (string * jsval), extractPrice (JObj fs) = Num 0).
Proof.
  split; [|repeat split].
  intros s. cbn [extractPrice].
  destruct (matchPrice s) as [q|] eqn:E.
  - exists q. split; [reflexivity|]. now apply matchPrice_nonneg in E.
  - exists 0%Q. split; [reflexivity | apply Qle_refl].
Qed.

(** *** Rounding of a numeric price *)






(** *** [calculateStats] *)

Lemma insert_sorted_perm (x : Q) (l : list Q) :
  Permutation (x :: l) (insert_sorted x l).
Proof.
  induction l as [|y l IH]; cbn [insert_sorted]; [reflexivity|].
  destruct (Qltb x y); [reflexivity|].
  rewrite perm_swap. now apply perm_skip.
Qed.

Lemma sort_from_perm (l : list Q) :
  forall acc : list Q,
    Permutation (l ++ acc)
      (fold_left (fun acc x => insert_sorted x acc) l acc).
Proof.
  induction l as [|x l IH]; intros acc; cbn [fold_left app]; [reflexivity|].
  rewrite <- IH, <- insert_sorted_perm. apply Permutation_middle.
Qed.

Lemma sort_numbers_perm (l : list Q) : Permutation l (sort_numbers l).
Proof.
  unfold sort_numbers. rewrite <- sort_from_perm. now rewrite app_nil_r.
Qed.

Lemma insert_sorted_ascending (x : Q) (l : list Q) :
  ascending l -> ascending (insert_sorted x l).
Proof.
  induction l as [|y l IH]; cbn [insert_sorted ascending].
  - intros _. split; constructor.
  - intros [Hy Hl]. destruct (Qltb x y) eqn:E.
    + apply Qltb_true in E. cbn [ascending]. split; [|split; assumption].
      constructor; [now apply Qlt_le_weak|].
      eapply List.Forall_impl; [|exact Hy].
      intros b Hb. cbn in Hb. apply Qlt_le_weak in E.
      eapply Qle_trans; eassumption.
    + apply Qltb_false in E. cbn [ascending]. split; [|now apply IH].
      eapply Permutation_Forall; [apply insert_sorted_perm|].
      constructor; assumption.
Qed.

Lemma sort_from_ascending (l : list Q) :
  forall acc : list Q,
    ascending acc ->
    ascending (fold_left (fun acc x => insert_sorted x acc) l acc).
Proof.
  induction l as [|x l IH]; intros acc Hacc; cbn [fold_left]; [assumption|].
  apply IH. now apply insert_sorted_ascending.
Qed.

Lemma sort_numbers_ascending (l : list Q) : ascending (sort_numbers l).
Proof. apply sort_from_ascending. exact I. Qed.

Lemma ascending_first (a : Q) (l : list Q) :
  ascending (a :: l) -> Forall (fun x => (a <= x)%Q) (a :: l).
Proof.
  intros [Ha _]. constructor; [apply Qle_refl | exact Ha].
Qed.

Lemma ascending_last (l : list Q) :
  ascending l ->
  Forall (fun x => (x <= nth (length l - 1) l 0%Q)%Q) l.
Proof.
  induction l as [|a l IH]; [constructor|].
  intros [Ha Hl]. specialize (IH Hl).
  destruct l as [|b l'].
  - cbn. constructor; [apply Qle_refl | constructor].
  - replace (nth (length (a :: b :: l') - 1) (a :: b :: l') 0%Q)
      with (nth (length (b :: l') - 1) (b :: l') 0%Q).
    2:{ cbn [length]. replace (S (S (length l')) - 1)%nat with (S (length l'))
          by lia.
        replace (S (length l') - 1)%nat with (length l') by lia.
        reflexivity. }
    constructor; [|exact IH].
    rewrite List.Forall_forall in Ha. apply Ha.
    apply nth_In. cbn [length]. lia.
Qed.

(** What the statistics of a list that is not empty are made of. *)
Lemma calculateStats_cons (x : Q) (l : list Q) :
  let numbers := x :: l in
  let sorted := sort_numbers numbers in
  exists (lo hi : Q),
    st_min (calculateStats numbers) = lo
    /\ st_max (calculateStats numbers) = hi
    /\ In lo numbers /\ In hi numbers
    /\ Forall (fun y => (lo <= y)%Q /\ (y <= hi)%Q) numbers
    /\ length sorted = length numbers
    /\ (forall k : nat, (k < length numbers)%nat ->
          (lo <= nth k sorted 0%Q)%Q /\ (nth k sorted 0%Q <= hi)%Q).
Proof.
  intros numbers sorted.
  pose proof (sort_numbers_perm numbers) as Hperm.
  pose proof (sort_numbers_ascending numbers) as Hasc.
  fold sorted in Hperm, Hasc.
  assert (Hlen : length sorted = length numbers)
    by (symmetry; now apply Permutation_length).
  exists (nth 0 sorted 0%Q), (nth (length sorted - 1) sorted 0%Q).
  assert (Hpos : (0 < length sorted)%nat) by (rewrite Hlen; cbn; lia).
  assert (Hlow : Forall (fun y => (nth 0 sorted 0 <= y)%Q) sorted).
  { destruct sorted as [|a rest]; [cbn in Hpos; lia|].
    now apply ascending_first. }
  pose proof (ascending_last sorted Hasc) as Hhigh.
  assert (Hboth : Forall (fun y => (nth 0 sorted 0 <= y)%Q
                          /\ (y <= nth (length sorted - 1) sorted 0)%Q) sorted).
  { rewrite List.Forall_forall in *. intros y Hy. split; auto. }
  split; [reflexivity|]. split; [reflexivity|].
  split; [|split; [|split; [|split]]].
  - eapply Permutation_in; [symmetry; exact Hperm|]. now apply nth_In.
  - eapply Permutation_in; [symmetry; exact Hperm|]. apply nth_In. lia.
  - eapply Permutation_Forall; [symmetry; exact Hperm | exact Hboth].
  - exact Hlen.
  - intros k Hk. rewrite List.Forall_forall in Hboth. apply Hboth.
    apply nth_In. lia.
Qed.

(** X3: for a list of numbers that is not empty, [min] and [max] are
    numbers of the list and every number of the list lies between them;
    [count] is the length of the list; and when the count is odd the median
    is a number of the list. *)
Theorem calculateStats_figures (x : Q) (l : list Q) :
  let stats := calculateStats (x :: l) in
  In (st_min stats) (x :: l) /\ In (st_max stats) (x :: l)
  /\ Forall (fun y => (st_min stats <= y)%Q /\ (y <= st_max stats)%Q) (x :: l)
  /\ st_count stats = length (x :: l)
  /\ (Nat.even (length (x :: l)) = false -> In (st_median stats) (x :: l)).
Proof.
  cbv zeta.
  destruct (calculateStats_cons x l)
    as (lo & hi & E1 & E2 & H1 & H2 & H3 & Hlen & _).
  rewrite E1, E2.
  split; [exact H1|]. split; [exact H2|]. split; [exact H3|].
  split; [reflexivity|].
  intros Hodd. cbn [calculateStats st_median]. rewrite Hodd.
  eapply Permutation_in; [symmetry; apply sort_numbers_perm|].
  apply nth_In. rewrite Hlen.
  apply Nat.div_lt; [cbn [length]; lia | lia].
Qed.

Lemma calculateStats_figures_witness :
  let stats := calculateStats [3; 1; 2]%Q in
  Nat.even (length [3; 1; 2]%Q) = false
  /\ st_min stats = 1%Q /\ st_max stats = 3%Q /\ st_median stats = 2%Q
  /\ In (st_median stats) [3; 1; 2]%Q.
Proof.
  intros stats.
  assert (Hodd : Nat.even (length [3; 1; 2]%Q) = false) by reflexivity.
  split; [exact Hodd|].
  split; [reflexivity|]. split; [reflexivity|]. split; [reflexivity|].
  destruct (calculateStats_figures 3 [1; 2]%Q) as (_ & _ & _ & _ & Hmedian).
  exact (Hmedian Hodd).
Defined.

(** *** [getProductInfo] *)

(** X4: [getProductInfo] reads a name in lower case and without the
    white space around it, so a name and its normal form get the same
    answer, and so do two names with the same normal form. *)
Theorem getProductInfo_normal_form :
  (forall s : string,
     getProductInfo (JStr (trim (toLowerCase s))) = getProductInfo (JStr s))
  /\ (forall s s' : string,
        trim (toLowerCase s) = trim (toLowerCase s') ->
        getProductInfo (JStr s) = getProductInfo (JStr s')).
Proof.
  assert (Hnormal : forall s : string,
            getProductInfo (JStr (trim (toLowerCase s)))
            = getProductInfo (JStr s)).
  { intros s. unfold getProductInfo. cbn [truthy].
    destruct (String.eqb_spec s "") as [->|Hs]; [reflexivity|].
    cbn [negb]. rewrite normalize_idem.
    destruct (String.eqb_spec (trim (toLowerCase s)) "") as [E|_];
      [|reflexivity].
    rewrite E. vm_compute. reflexivity. }
  split; [exact Hnormal|].
  intros s s' E. now rewrite <- (Hnormal s), <- (Hnormal s'), E.
Qed.

Lemma getProductInfo_normal_form_witness :
  trim (toLowerCase "  COLA ") = trim (toLowerCase "cola")
  /\ getProductInfo (JStr "  COLA ") = getProductInfo (JStr "cola").
Proof.
  split; [vm_compute; reflexivity|].
  apply (proj2 getProductInfo_normal_form). vm_compute. reflexivity.
Defined.

End HelpersExtras.

(** ** Lists *)

Module ListFacts.

Lemma filter_length_mono {A : Type} (f g : A -> bool) (l : list A) :
  (forall a : A, f a = true -> g a = true) ->
  (length (List.filter f l) <= length (List.filter g l))%nat.
Proof.
  intros Hfg. induction l as [|a l IH]; cbn [List.filter]; [lia|].
  destruct (f a) eqn:Ef.
  - rewrite (Hfg a Ef). cbn [length]. lia.
  - destruct (g a); cbn [length]; lia.
Qed.

Lemma filter_length_all {A : Type} (f : A -> bool) (l : list A) :
  (length (List.filter f l) <= length l)%nat.
Proof.
  induction l as [|a l IH]; cbn [List.filter]; [lia|].
  destruct (f a); cbn [length]; lia.
Qed.

Lemma find_none_forall {A : Type} (f : A -> bool) (l : list A) :
  List.find f l = None <-> Forall (fun a => f a = false) l.
Proof.
  induction l as [|a l IH]; cbn [List.find].
  - split; [constructor | reflexivity].
  - destruct (f a) eqn:E.
    + split; [discriminate|]. intros Hall. inversion Hall; congruence.
    + rewrite IH. split; [now constructor | intros Hall; now inversion Hall].
Qed.

End ListFacts.

(** ** The storage manager *)

Module StorageExtras.
Import JS Constants Sales Storage.

Lemma lastn_length {A : Type} (n : nat) (l : list A) :
  length (lastn n l) = Nat.min n (length l).
Proof. unfold lastn. rewrite List.length_skipn. lia. Qed.

Lemma lastn_snoc {A : Type} (n : nat) (l : list A) (x : A) :
  lastn (S n) (l ++ [x]) = (lastn n l ++ [x])%list.
Proof.
  unfold lastn. rewrite List.length_app. cbn [length].
  replace (length l + 1 - S n)%nat with (length l - n)%nat by lia.
  rewrite List.skipn_app.
  replace (length l - n - length l)%nat with 0%nat by lia.
  reflexivity.
Qed.

Lemma lastn_all {A : Type} (n : nat) (l : list A) :
  (length l <= n)%nat -> lastn n l = l.
Proof.
  intros Hle. unfold lastn.
  replace (length l - n)%nat with 0%nat by lia. reflexivity.
Qed.

Section WithHost.
Context `{Host}.

Lemma addSale_falls_back (st : StorageManager) (sale : Sale) (now : Z)
  (rnd : Q) (env : StorageEnv) :
  falls_back st env ->
  addSale st sale now rnd env =
    setItem_sales (lsWrites env) st
      (let salesData := (getItem_sales st ++ [saleData sale now rnd])%list in
       if (MAX_FEED_ITEMS * 2 <? length salesData)%nat
       then lastn MAX_FEED_ITEMS salesData else salesData).
Proof.
  unfold addSale, falls_back.
  intros [E | [E | E]]; rewrite E.
  - reflexivity.
  - now destruct (isIndexedDBSupported st).
  - destruct (isIndexedDBSupported st); [|reflexivity].
    now destruct (db st).
Qed.

(** X5: when a sale goes to localStorage and the write succeeds, the
    list stored has the new record last and never more than 100 records: up
    to 99 records held before are all kept, and from 100 on the list is cut
    to the latest 49 of them and the new one.  The IndexedDB store is left
    as it was. *)
Theorem local_history_is_bounded (st : StorageManager) (sale : Sale)
  (now : Z) (rnd : Q) (env : StorageEnv) (rest : list SetItemOutcome) :
  falls_back st env -> isLocalStorageSupported st = true ->
  lsWrites env = SetOk :: rest ->
  let held := getItem_sales st in
  exists stored : list StoredSale,
    addSale st sale now rnd env = Some (write_sales st stored, true)
    /\ getItem_sales (write_sales st stored) = stored
    /\ db (write_sales st stored) = db st
    /\ (length stored <= 100)%nat
    /\ ((length held < 100)%nat ->
        stored = (held ++ [saleData sale now rnd])%list)
    /\ ((100 <= length held)%nat ->
        stored = (lastn 49 held ++ [saleData sale now rnd])%list).
Proof.
  intros Hfall Hls Hwrite held.
  rewrite (addSale_falls_back st sale now rnd env Hfall), Hwrite.
  cbv zeta. fold held.
  eexists. split.
  { cbn [setItem_sales]. rewrite Hls. cbn [negb]. reflexivity. }
  split.
  { unfold getItem_sales, write_sales. cbn. now rewrite Hls. }
  split; [reflexivity|].
  change (MAX_FEED_ITEMS * 2)%nat with 100%nat.
  change MAX_FEED_ITEMS with 50%nat.
  rewrite List.length_app. cbn [length].
  destruct (Nat.ltb_spec 100 (length held + 1)) as [Hmany | Hfew].
  - split; [rewrite lastn_length, List.length_app; cbn [length]; lia|].
    split; [lia|]. intros _. apply (lastn_snoc 49).
  - split; [rewrite List.length_app; cbn [length]; lia|].
    split; [reflexivity | lia].
Qed.

(** X6: when the write of a sale to localStorage exceeds the quota,
    [addSale] answers false and the new sale is not stored, not even after
    the handler has made room: with at most 100 records held nothing
    changes, and with more the handler writes back the latest 50 of them
    (when that write succeeds) and the sale is dropped. *)
Theorem quota_drops_the_new_sale (st : StorageManager) (sale : Sale)
  (now : Z) (rnd : Q) (env : StorageEnv) (rest : list SetItemOutcome) :
  falls_back st env -> isLocalStorageSupported st = true ->
  lsWrites env = SetQuotaExceeded :: rest ->
  let held := getItem_sales st in
  ((length held <= 100)%nat -> addSale st sale now rnd env = Some (st, false))
  /\ ((100 < length held)%nat ->
      forall rest' : list SetItemOutcome,
        rest = SetOk :: rest' ->
        addSale st sale now rnd env
        = Some (write_sales st (lastn 50 held), false)
        /\ getItem_sales (write_sales st (lastn 50 held)) = lastn 50 held
        /\ length (lastn 50 held) = 50%nat).
Proof.
  intros Hfall Hls Hwrite held.
  rewrite (addSale_falls_back st sale now rnd env Hfall), Hwrite.
  cbv zeta. fold held. cbn [setItem_sales]. rewrite Hls. cbn [negb].
  fold held. split.
  - intros Hfew. destruct (Nat.ltb_spec 100 (length held)); [lia|].
    reflexivity.
  - intros Hmany rest' ->.
    destruct (Nat.ltb_spec 100 (length held)); [|lia].
    cbn [setItem_sales]. rewrite Hls. cbn [negb].
    split; [reflexivity|]. split.
    + unfold getItem_sales, write_sales. cbn. now rewrite Hls.
    + rewrite lastn_length. lia.
Qed.

End WithHost.

(** A storage manager with localStorage only, holding [n] copies of a
    record. *)
Lemma local_history_is_bounded_witness :
  let sale :=
    @Analytics.enrichSaleData Reference.utcHost Scenario.cola Scenario.noon
      "sale_1" in
  let env := mkEnv true [SetOk] in
  let st := mkStorage true false None None in
  let full :=
    mkStorage true false None
      (Some (repeat (@saleData Reference.utcHost sale 0 0) 100)) in
  (falls_back st env /\ isLocalStorageSupported st = true
   /\ lsWrites env = [SetOk]
   /\ exists stored : list StoredSale,
        @addSale Reference.utcHost st sale Scenario.noon 0 env
        = Some (write_sales st stored, true)
        /\ (length stored <= 100)%nat)
  /\ (falls_back full env /\ isLocalStorageSupported full = true
      /\ length (getItem_sales full) = 100%nat
      /\ exists stored : list StoredSale,
           @addSale Reference.utcHost full sale Scenario.noon 0 env
           = Some (write_sales full stored, true)
           /\ length stored = 50%nat
           /\ List.last stored (@saleData Reference.utcHost sale 0 0)
              = @saleData Reference.utcHost sale Scenario.noon 0).
Proof.
  intros sale env st full. split.
  - assert (Hfall : falls_back st env) by (left; reflexivity).
    split; [exact Hfall|]. split; [reflexivity|]. split; [reflexivity|].
    destruct (@local_history_is_bounded Reference.utcHost st sale Scenario.noon
                0 env [] Hfall eq_refl eq_refl)
      as (stored & Hadd & _ & _ & Hlen & _).
    exists stored. split; [exact Hadd | exact Hlen].
  - assert (Hfall : falls_back full env) by (left; reflexivity).
    assert (Hheld : length (getItem_sales full) = 100%nat)
      by (cbn [getItem_sales full isLocalStorageSupported localSales];
          apply repeat_length).
    split; [exact Hfall|]. split; [reflexivity|]. split; [exact Hheld|].
    destruct (@local_history_is_bounded Reference.utcHost full sale
                Scenario.noon 0 env [] Hfall eq_refl eq_refl)
      as (stored & Hadd & _ & _ & _ & _ & Hcut).
    exists stored. split; [exact Hadd|].
    rewrite Hcut by (rewrite Hheld; lia).
    split.
    + rewrite length_app. unfold lastn. rewrite length_skipn, Hheld.
      reflexivity.
    + apply List.last_last.
Defined.

Lemma quota_drops_the_new_sale_witness :
  let st := mkStorage true false None None in
  let sale :=
    @Analytics.enrichSaleData Reference.utcHost Scenario.cola Scenario.noon
      "sale_1" in
  let env := mkEnv true [SetQuotaExceeded] in
  falls_back st env /\ isLocalStorageSupported st = true
  /\ lsWrites env = [SetQuotaExceeded]
  /\ (length (getItem_sales st) <= 100)%nat
  /\ @addSale Reference.utcHost st sale Scenario.noon 0 env = Some (st, false).
Proof.
  intros st sale env.
  assert (Hfall : falls_back st env) by (left; reflexivity).
  assert (Hfew : (length (getItem_sales st) <= 100)%nat) by (cbn; lia).
  split; [exact Hfall|]. split; [reflexivity|]. split; [reflexivity|].
  split; [exact Hfew|].
  destruct (@quota_drops_the_new_sale Reference.utcHost st sale Scenario.noon
              0 env [] Hfall eq_refl eq_refl) as (Hkeep & _).
  exact (Hkeep Hfew).
Defined.

End StorageExtras.

(** ** The analytics engine, further *)

Module AnalyticsExtras.
Import JS Constants Sales Helpers Analytics QFacts AnalyticsProps ListFacts
  HelpersExtras.

Section Engine.
Context `{Host} `{Presentation}.

(** *** Prices in the working set *)

Lemma validated_price (sale : jsval) (now : Z) (freshId : string) :
  validateSaleData sale = [] ->
  (0 <= sale_price (enrichSaleData sale now freshId))%Q.
Proof.
  unfold validateSaleData, enrichSaleData. cbn [sale_price].
  destruct (negb (truthy sale) || negb (jstype_eqb (typeof sale) TObject));
    [discriminate|].
  intros E. apply app_eq_nil in E as [_ E]. apply app_eq_nil in E as [E _].
  destruct (get sale "price") as [| |b|[|q]|s|xs|fs] eqn:Eprice;
    cbn [is_undefined negb extractPrice isNaN orb] in E;
    try discriminate E; cbn [extractPrice num_or];
    try (vm_compute; discriminate).
  - unfold lt in E. destruct (Qltb (toFixed2 q) 0) eqn:Eneg; [discriminate E|].
    apply Qltb_false in Eneg.
    destruct (Qis0 (toFixed2 q)); [apply Qle_refl | exact Eneg].
  - destruct (matchPrice s) as [q|] eqn:Em; cbn [num_or].
    + apply matchPrice_nonneg in Em.
      destruct (Qis0 q); [apply Qle_refl | exact Em].
    + vm_compute. discriminate.
Qed.

Lemma addSale_prices (m : AnalyticsManager) (sale : jsval) (env : AddEnv) :
  prices_not_negative (salesData m) ->
  prices_not_negative (salesData (fst (addSale m sale env))).
Proof.
  intros Hm. destruct (validateSaleData sale) as [|e errors] eqn:E.
  - destruct (addSale_accepted m sale env E) as (-> & _).
    constructor; [now apply validated_price | exact Hm].
  - rewrite addSale_rejected by (rewrite E; discriminate). exact Hm.
Qed.

Lemma addSale_cache_empty (m : AnalyticsManager) (sale : jsval) (env : AddEnv) :
  cache m = ∅ -> cache (fst (addSale m sale env)) = ∅.
Proof.
  intros Hm. destruct (validateSaleData sale) as [|e errors] eqn:E.
  - destruct (addSale_accepted m sale env E) as (_ & Hkeep & _). auto.
  - rewrite addSale_rejected by (rewrite E; discriminate). exact Hm.
Qed.

Lemma ingest_invariants (events : list (jsval * AddEnv)) :
  forall m : AnalyticsManager,
    prices_not_negative (salesData m) -> cache m = ∅ ->
    prices_not_negative (salesData (ingest m events))
    /\ cache (ingest m events) = ∅.
Proof.
  unfold ingest.
  induction events as [|event events IH]; intros m Hp Hc; cbn [fold_left].
  - split; assumption.
  - apply IH; [now apply addSale_prices | now apply addSale_cache_empty].
Qed.

Lemma prices_sum (l : list Sale) :
  prices_not_negative l ->
  (0 <= sum_numbers (map (fun sale => Qor0 (sale_price sale)) l))%Q.
Proof.
  induction 1 as [|s l Hs _ IH]; [apply Qle_refl|].
  cbn [map]. rewrite sum_cons, Qor0_eq. lra.
Qed.

Lemma revenue_sum (l : list Sale) :
  (revenue l == sum_numbers (map (fun sale => Qor0 (sale_price sale)) l))%Q.
Proof.
  unfold revenue.
  assert (Hfrom : forall a : Q,
            (fold_left (fun sum sale => sum + Qor0 (sale_price sale)) l a
             == a + sum_numbers (map (fun sale => Qor0 (sale_price sale)) l))%Q).
  { induction l as [|s l IH]; intros a; cbn [fold_left map].
    - unfold sum_numbers. cbn [fold_left]. ring.
    - rewrite IH, sum_cons. ring. }
  rewrite Hfrom. ring.
Qed.

(** X7: whatever is handed to [addSale], the sales a manager holds have
    prices that are not negative; hence in every snapshot it computes, for
    any period, the revenue, the average and the smallest purchase are not
    negative. *)
Theorem revenue_never_negative (storage0 : Storage.StorageManager)
  (events : list (jsval * AddEnv)) (period : string) (useCache : bool)
  (now : Z) :
  let m := ingest (new_manager storage0) events in
  let snapshot := snd (getAnalytics m period useCache now) in
  prices_not_negative (salesData m)
  /\ (0 <= totalRevenue snapshot)%Q
  /\ (0 <= averagePurchase snapshot)%Q
  /\ match minPurchase snapshot with
     | Some lowest => (0 <= lowest)%Q
     | None => totalSales snapshot = 0%nat
     end.
Proof.
  cbv zeta.
  destruct (ingest_invariants events (new_manager storage0))
    as (Hprices & Hcache); [constructor | reflexivity |].
  split; [exact Hprices|].
  rewrite getAnalytics_miss by (rewrite Hcache; apply lookup_empty).
  cbn [snd].
  set (m := ingest (new_manager storage0) events) in *.
  assert (Hkept : prices_not_negative
                    (filterByTimePeriod sale_timestamp (salesData m) period now)).
  { unfold filterByTimePeriod. destruct (getTimePeriod period now).
    unfold prices_not_negative in *. rewrite List.Forall_forall in *.
    intros s Hs. apply List.filter_In in Hs as [Hs _]. auto. }
  destruct (filterByTimePeriod sale_timestamp (salesData m) period now)
    as [|s l] eqn:Edata.
  - cbn. repeat split; try apply Qle_refl.
  - pose proof (prices_sum _ Hkept) as Hsum.
    cbn [map] in Hsum.
    set (prices := Qor0 (sale_price s)
                   :: map (fun sale => Qor0 (sale_price sale)) l) in *.
    cbn [calculateAnalytics totalRevenue averagePurchase minPurchase map].
    fold prices.
    destruct (calculateStats_cons (Qor0 (sale_price s))
                (map (fun sale => Qor0 (sale_price sale)) l))
      as (lo & hi & Hlo & _ & Hin & _).
    fold prices in Hlo, Hin.
    split; [exact Hsum|]. split.
    + cbn [calculateStats prices st_average]. fold prices.
      apply Qle_shift_div_l.
      * change 0%Q with (inject_Z 0). rewrite <- Zlt_Qlt.
        unfold prices. cbn [length]. lia.
      * lra.
    + rewrite Hlo. unfold prices in Hin.
      change (Qor0 (sale_price s)
              :: map (fun sale => Qor0 (sale_price sale)) l)
        with (map (fun sale => Qor0 (sale_price sale)) (s :: l)) in Hin.
      apply List.in_map_iff in Hin as (s0 & <- & Hs0).
      unfold prices_not_negative in Hkept.
      rewrite List.Forall_forall in Hkept. rewrite Qor0_eq. auto.
Qed.

(** *** The figures of a snapshot *)

(** X8: a snapshot computed from data that is not empty carries a
    smallest, a largest and a median purchase: the smallest and the largest
    are prices of sales of the data, with the price of every sale between
    them, and the median is the price of a sale of the data when their number
    is odd; [totalSales] is the size of the data, and the comparison is the
    one [getComparisonToPrevious] gives for the period.  A snapshot computed
    from no data has revenue and average 0, none of the three purchases, and
    no comparison. *)
Theorem snapshot_figures (m : AnalyticsManager) (period : string) (now : Z) :
  (forall (sale : Sale) (rest : list Sale),
     let data := sale :: rest in
     let prices := map (fun s => Qor0 (sale_price s)) data in
     let snapshot := calculateAnalytics m data period now in
     exists lowest highest median : Q,
       minPurchase snapshot = Some lowest
       /\ maxPurchase snapshot = Some highest
       /\ medianPurchase snapshot = Some median
       /\ In lowest prices /\ In highest prices
       /\ Forall (fun y => (lowest <= y)%Q /\ (y <= highest)%Q) prices
       /\ (Nat.even (length data) = false -> In median prices)
       /\ totalSales snapshot = length data
       /\ comparisonToPrevious snapshot
          = getComparisonToPrevious m period now)
  /\ calculateAnalytics m [] period now
     = mkSnapshot period 0 0 0 None None None emptyView None.
Proof.
  split; [|reflexivity].
  intros sale rest. cbv zeta.
  destruct (HelpersExtras.calculateStats_cons (Qor0 (sale_price sale))
              (map (fun s => Qor0 (sale_price s)) rest))
    as (lo & hi & E1 & E2 & H1 & H2 & H3 & Hlen & _).
  cbv zeta in E1, E2, H1, H2, H3, Hlen.
  exists lo, hi. eexists.
  cbn [calculateAnalytics minPurchase maxPurchase medianPurchase totalSales
       comparisonToPrevious map].
  rewrite E1, E2.
  split; [reflexivity|]. split; [reflexivity|]. split; [reflexivity|].
  split; [exact H1|]. split; [exact H2|]. split; [exact H3|].
  split; [|split; reflexivity].
  intros Hodd. cbn [calculateStats st_median].
  change (length (Qor0 (sale_price sale)
                  :: map (fun s => Qor0 (sale_price s)) rest))
    with (S (length (map (fun s => Qor0 (sale_price s)) rest))).
  rewrite length_map. cbn [length] in Hodd. rewrite Hodd.
  eapply Permutation_in; [symmetry; apply HelpersExtras.sort_numbers_perm|].
  apply nth_In. rewrite Hlen. cbn [length]. rewrite length_map.
  apply Nat.div_lt; lia.
Qed.

(** *** [getRealTimeStats] *)

Lemma within_longer (now short long : Z) (sale : Sale) :
  (short <= long)%Z -> within now short sale = true ->
  within now long sale = true.
Proof.
  unfold within. intros Hle.
  destruct (sub (Num (inject_Z now)) (ToNumber (sale_timestamp sale)))
    as [|d]; [discriminate|].
  unfold lt. rewrite !Qltb_true. intros Hd.
  eapply Qlt_le_trans; [exact Hd|]. now rewrite <- Zle_Qle.
Qed.

Lemma filter_sum (f : Sale -> bool) (l : list Sale) :
  prices_not_negative l ->
  (0 <= revenue (List.filter f l))%Q
  /\ (revenue (List.filter f l) <= revenue l)%Q.
Proof.
  intros Hl. rewrite !revenue_sum.
  induction Hl as [|s l Hs _ IH]; [split; apply Qle_refl|].
  cbn [List.filter]. destruct (f s); cbn [map]; rewrite ?sum_cons, ?Qor0_eq; lra.
Qed.

(** X9: in the real-time statistics the sales of the last hour are
    among those of the last 24 hours, which are among all the sales held;
    the total counts every sale held, so it is at least the number of sales
    a snapshot of period [all] computed at the same instant counts; and for
    a manager fed through [addSale] the revenue of the last 24 hours is
    between 0 and the total revenue. *)
Theorem realTimeStats_figures (storage0 : Storage.StorageManager)
  (events : list (jsval * AddEnv)) (now : Z) :
  let m := ingest (new_manager storage0) events in
  let stats := getRealTimeStats m now in
  (rt_salesLastHour stats <= rt_salesLast24Hours stats)%nat
  /\ (rt_salesLast24Hours stats <= rt_totalSales stats)%nat
  /\ (totalSales (snd (getAnalytics m TIME_PERIODS.ALL false now))
      <= rt_totalSales stats)%nat
  /\ (0 <= rt_revenueLast24Hours stats)%Q
  /\ (rt_revenueLast24Hours stats <= rt_totalRevenue stats)%Q
  /\ rt_isActive stats = negb (Nat.eqb (rt_salesLastHour stats) 0).
Proof.
  cbv zeta.
  destruct (ingest_invariants events (new_manager storage0))
    as (Hprices & _); [constructor | reflexivity |].
  set (m := ingest (new_manager storage0) events) in *.
  cbn [getRealTimeStats rt_salesLastHour rt_salesLast24Hours rt_totalSales
       rt_revenueLast24Hours rt_totalRevenue rt_isActive].
  split; [|split; [|split; [|split; [|split]]]].
  - apply filter_length_mono. intros sale. apply within_longer. lia.
  - apply filter_length_all.
  - cbn [getAnalytics snd].
    destruct (totals_of_snapshot m
                (filterByTimePeriod sale_timestamp (salesData m)
                   TIME_PERIODS.ALL now) TIME_PERIODS.ALL now) as (-> & _).
    rewrite filter_all. apply filter_length_all.
  - now apply filter_sum.
  - now apply filter_sum.
  - now destruct (length _).
Qed.

(** *** The cache *)

Lemma fresh_same_data (m m' : AnalyticsManager) (l : list Sale)
  (period : string) (now : Z) :
  salesData m' = salesData m ->
  calculateAnalytics m' l period now = calculateAnalytics m l period now.
Proof.
  intros E. unfold calculateAnalytics, getComparisonToPrevious,
    getPreviousPeriodData. now rewrite E.
Qed.

(** X10: [clearExpiredCache] removes the entries older than the expiry
    and keeps every other one; run at the instant of a read, it never
    changes what [getAnalytics] returns, for any period and either value of
    [useCache]. *)
Theorem clearExpiredCache_is_harmless (m : AnalyticsManager) (now : Z) :
  let m' := clearExpiredCache m now in
  (forall (key : string) (e : CacheEntry),
     cache m' !! key = Some e <->
     cache m !! key = Some e /\ (now - timestamp e <= cacheExpiry m)%Z)
  /\ salesData m' = salesData m
  /\ (forall (period : string) (useCache : bool),
        snd (getAnalytics m' period useCache now)
        = snd (getAnalytics m period useCache now)).
Proof.
  cbv zeta.
  assert (Hlook : forall (key : string) (e : CacheEntry),
            cache (clearExpiredCache m now) !! key = Some e <->
            cache m !! key = Some e
            /\ (now - timestamp e <= cacheExpiry m)%Z).
  { intros key e. cbn [clearExpiredCache cache].
    rewrite map_lookup_filter_Some. reflexivity. }
  split; [exact Hlook|]. split; [reflexivity|].
  intros period useCache. unfold getAnalytics.
  destruct useCache; [|cbn [snd]; now apply fresh_same_data].
  cbn [cacheExpiry clearExpiredCache].
  change (cache (mkManager (salesData m)
                   (filter (fun kv : string * CacheEntry =>
                              (now - timestamp (snd kv) <= cacheExpiry m)%Z)
                      (cache m))
                   (cacheExpiry m) (lastUpdate m) (storage m)))
    with (cache (clearExpiredCache m now)).
  destruct (cache m !! cacheKey period) as [e|] eqn:E.
  - destruct (now - timestamp e <? cacheExpiry m)%Z eqn:Elive.
    + assert (Hkept : cache (clearExpiredCache m now) !! cacheKey period
                      = Some e).
      { apply Hlook. split; [exact E|]. apply Z.ltb_lt in Elive. lia. }
      rewrite Hkept, Elive. reflexivity.
    + destruct (cache (clearExpiredCache m now) !! cacheKey period)
        as [e'|] eqn:E'.
      * apply Hlook in E' as [E' _]. rewrite E in E'. inversion E'; subst e'.
        rewrite Elive. cbn [snd]. now apply fresh_same_data.
      * cbn [snd]. now apply fresh_same_data.
  - destruct (cache (clearExpiredCache m now) !! cacheKey period)
      as [e'|] eqn:E'.
    + apply Hlook in E' as [E' _]. rewrite E in E'. discriminate E'.
    + cbn [snd]. now apply fresh_same_data.
Qed.

Lemma cacheKey_inj (p p' : string) : cacheKey p = cacheKey p' -> p = p'.
Proof. unfold cacheKey. cbn. intros E. now inversion E. Qed.

(** X11: a read changes nothing but the cache entry of its own period:
    the working set, the storage and the entries of the other periods are
    as before, and after it the cache holds an entry for the period. *)
Theorem getAnalytics_touches_own_entry (m : AnalyticsManager)
  (period : string) (useCache : bool) (now : Z) :
  let m' := fst (getAnalytics m period useCache now) in
  salesData m' = salesData m /\ storage m' = storage m
  /\ cacheExpiry m' = cacheExpiry m
  /\ (forall other : string,
        other <> period ->
        cache m' !! cacheKey other = cache m !! cacheKey other)
  /\ exists e : CacheEntry,
       cache m' !! cacheKey period = Some e
       /\ (useCache = false -> timestamp e = now).
Proof.
  cbv zeta.
  assert (Hother : forall (a : Snapshot) (other : string),
            other <> period ->
            <[cacheKey period := mkEntry a now]> (cache m) !! cacheKey other
            = cache m !! cacheKey other).
  { intros a other Hne. apply lookup_insert_ne.
    intros E. apply cacheKey_inj in E. congruence. }
  unfold getAnalytics.
  destruct useCache.
  - destruct (cache m !! cacheKey period) as [e|] eqn:E.
    + destruct (now - timestamp e <? cacheExpiry m)%Z; cbn [fst].
      * repeat split; auto. exists e. split; [exact E | discriminate].
      * cbn [salesData storage cacheExpiry cache]. repeat split; auto.
        eexists. split; [apply lookup_insert_eq | reflexivity].
    + cbn [fst salesData storage cacheExpiry cache]. repeat split; auto.
      eexists. split; [apply lookup_insert_eq | reflexivity].
  - cbn [fst salesData storage cacheExpiry cache]. repeat split; auto.
    eexists. split; [apply lookup_insert_eq | reflexivity].
Qed.

(** *** What [addSale] answers *)

(** X12: the answer of [addSale] does not tell whether the sale was
    stored.  When the sale passes validation, the IndexedDB store does not
    take it, and localStorage is missing or its write fails, nothing is
    stored, and [addSale] still answers true, with the sale in front of the
    working set and the cache emptied. *)
Theorem addSale_true_though_nothing_stored (m : AnalyticsManager)
  (sale : jsval) (env : AddEnv) :
  validateSaleData sale = [] ->
  Storage.falls_back (storage m) (env_storage env) ->
  (Storage.isLocalStorageSupported (storage m) = false
   \/ exists rest : list Storage.SetItemOutcome,
        Storage.lsWrites (env_storage env) = Storage.SetOtherError :: rest) ->
  addSale m sale env
  = (mkManager
       (enrichSaleData sale (env_now env) (env_freshId env) :: salesData m)
       ∅ (cacheExpiry m) (lastUpdate m) (storage m),
     true).
Proof.
  intros Hvalid Hfall Hfails. unfold addSale, addSale_start.
  rewrite Hvalid.
  rewrite (StorageExtras.addSale_falls_back _ _ _ _ _ Hfall). cbv zeta.
  match goal with
  | |- context [Storage.setItem_sales _ _ ?v] => generalize v
  end.
  intros value.
  assert (Hnothing : Storage.setItem_sales (Storage.lsWrites (env_storage env))
                       (storage m) value = Some (storage m, false)).
  { destruct Hfails as [Hls | (rest & Hw)].
    - destruct (Storage.lsWrites (env_storage env)) as [|o rest];
        cbn [Storage.setItem_sales]; now rewrite Hls.
    - rewrite Hw. cbn [Storage.setItem_sales].
      now destruct (Storage.isLocalStorageSupported (storage m)). }
  rewrite Hnothing. reflexivity.
Qed.

End Engine.

Lemma snapshot_figures_witness :
  let m :=
    fst (@addSale Reference.utcHost Reference.countingView Scenario.manager0
           Scenario.cola (Scenario.at_instant Scenario.noon)) in
  let snapshot :=
    @calculateAnalytics Reference.utcHost Reference.countingView m
      (salesData m) TIME_PERIODS.ALL Scenario.noon in
  Nat.even (length (salesData m)) = false
  /\ exists median : Q,
       medianPurchase snapshot = Some median
       /\ In median (map (fun s => Qor0 (Sales.sale_price s)) (salesData m))
       /\ (median == 3 # 2)%Q.
Proof.
  intros m snapshot. subst snapshot.
  assert (Hodd : Nat.even (length (salesData m)) = false)
    by (vm_compute; reflexivity).
  split; [exact Hodd|].
  destruct (salesData m) as [|sale rest] eqn:E;
    [vm_compute in E; discriminate E|].
  destruct (@snapshot_figures Reference.utcHost Reference.countingView m
              TIME_PERIODS.ALL Scenario.noon) as (Hfull & _).
  destruct (Hfull sale rest)
    as (lowest & highest & median & _ & _ & Hmedian & _ & _ & _ & Hin & _).
  exists median. split; [exact Hmedian|]. split; [exact (Hin Hodd)|].
  assert (Hprices : map (fun s => Qor0 (Sales.sale_price s)) (salesData m)
                    = [150 # 100]%Q) by (vm_compute; reflexivity).
  rewrite E in Hprices. specialize (Hin Hodd). cbv zeta in Hin.
  rewrite Hprices in Hin. destruct Hin as [<- | []]. reflexivity.
Defined.

Lemma getAnalytics_touches_own_entry_witness :
  let m := Scenario.manager0 in
  let m' :=
    fst (@getAnalytics Reference.utcHost Reference.countingView m
           TIME_PERIODS.TODAY true Scenario.noon) in
  TIME_PERIODS.WEEK <> TIME_PERIODS.TODAY
  /\ cache m' !! cacheKey TIME_PERIODS.WEEK
     = cache m !! cacheKey TIME_PERIODS.WEEK.
Proof.
  intros m m'.
  assert (Hne : TIME_PERIODS.WEEK <> TIME_PERIODS.TODAY) by discriminate.
  split; [exact Hne|].
  destruct (@getAnalytics_touches_own_entry Reference.utcHost
              Reference.countingView m TIME_PERIODS.TODAY true Scenario.noon)
    as (_ & _ & _ & Hother & _).
  exact (Hother TIME_PERIODS.WEEK Hne).
Defined.

Lemma addSale_true_though_nothing_stored_witness :
  let m :=
    @new_manager Reference.countingView
      (Storage.mkStorage false false None None) in
  let env := Scenario.at_instant Scenario.noon in
  @validateSaleData Reference.utcHost Scenario.cola = []
  /\ Storage.falls_back (storage m) (env_storage env)
  /\ snd (@addSale Reference.utcHost Reference.countingView m Scenario.cola env)
     = true
  /\ storage
       (fst (@addSale Reference.utcHost Reference.countingView m
               Scenario.cola env))
     = Storage.mkStorage false false None None.
Proof.
  intros m env.
  assert (Hvalid : @validateSaleData Reference.utcHost Scenario.cola = [])
    by (vm_compute; reflexivity).
  assert (Hfall : Storage.falls_back (storage m) (env_storage env))
    by (left; reflexivity).
  split; [exact Hvalid|]. split; [exact Hfall|].
  rewrite (@addSale_true_though_nothing_stored Reference.utcHost
             Reference.countingView m Scenario.cola env Hvalid Hfall
             (or_introl eq_refl)).
  split; reflexivity.
Defined.

End AnalyticsExtras.

(** ** The inventory tracker, further *)

Module InventoryExtras.
Import JS Constants Helpers Inventory QFacts InventoryProps StringFacts
  ListFacts.

(** *** The map of records *)

Lemma map_get_set_other (k k' : string) (v : Product)
  (m : list (string * Product)) :
  k' <> k -> map_get k' (map_set k v m) = map_get k' m.
Proof.
  intros Hne. induction m as [|[k0 v0] m IH]; cbn [map_set map_get].
  - destruct (String.eqb_spec k' k); [contradiction | reflexivity].
  - destruct (String.eqb_spec k k0) as [->|Hk]; cbn [map_get].
    + destruct (String.eqb_spec k' k0); [contradiction | reflexivity].
    + destruct (String.eqb k' k0); [reflexivity | exact IH].
Qed.

Lemma map_get_In (k : string) (v : Product) (m : list (string * Product)) :
  map_get k m = Some v -> In (k, v) m.
Proof.
  induction m as [|[k0 v0] m IH]; cbn [map_get]; [discriminate|].
  destruct (String.eqb_spec k k0) as [->|Hk].
  - intros E. inversion E. now left.
  - intros E. right. auto.
Qed.

Lemma map_get_None (k : string) (m : list (string * Product)) :
  map_get k m = None <-> ~ In k (map fst m).
Proof.
  induction m as [|[k0 v0] m IH]; cbn [map_get map fst In]; [tauto|].
  destruct (String.eqb_spec k k0) as [->|Hk].
  - split; [discriminate | intros Hno; exfalso; apply Hno; now left].
  - rewrite IH. split; [intros Hno [E|Hin]; [congruence | tauto] | tauto].
Qed.

Lemma In_map_get (k : string) (v : Product) (m : list (string * Product)) :
  NoDup (map fst m) -> In (k, v) m -> map_get k m = Some v.
Proof.
  induction m as [|[k0 v0] m IH]; cbn [map fst In map_get]; [tauto|].
  intros Hnd. inversion Hnd as [|? ? Hnotin Hrest]; subst.
  intros [E | Hin].
  - inversion E; subst. now rewrite String.eqb_refl.
  - destruct (String.eqb_spec k k0) as [->|Hk]; [|auto].
    exfalso. apply Hnotin. apply list_elem_of_In.
    apply (List.in_map fst) in Hin. exact Hin.
Qed.

Lemma map_set_present (k : string) (v v0 : Product)
  (m : list (string * Product)) :
  map_get k m = Some v0 -> map fst (map_set k v m) = map fst m.
Proof.
  induction m as [|[k1 v1] m IH]; cbn [map_get map_set]; [discriminate|].
  destruct (String.eqb_spec k k1) as [->|Hk]; cbn [map fst]; [reflexivity|].
  intros E. now rewrite IH.
Qed.

Lemma map_set_absent (k : string) (v : Product) (m : list (string * Product)) :
  map_get k m = None -> map_set k v m = (m ++ [(k, v)])%list.
Proof.
  induction m as [|[k1 v1] m IH]; cbn [map_get map_set app]; [reflexivity|].
  destruct (String.eqb_spec k k1) as [->|Hk]; [discriminate|].
  intros E. now rewrite IH.
Qed.

Lemma map_set_keys (k : string) (v : Product) (m : list (string * Product)) :
  map fst (map_set k v m)
  = match map_get k m with
    | Some _ => map fst m
    | None => (map fst m ++ [k])%list
    end.
Proof.
  destruct (map_get k m) as [v0|] eqn:E.
  - now apply map_set_present with v0.
  - rewrite map_set_absent by exact E. now rewrite List.map_app.
Qed.

Lemma map_set_NoDup (k : string) (v : Product) (m : list (string * Product)) :
  NoDup (map fst m) -> NoDup (map fst (map_set k v m)).
Proof.
  intros Hnd. rewrite map_set_keys.
  destruct (map_get k m) eqn:E; [exact Hnd|].
  apply map_get_None in E.
  apply NoDup_app. split; [exact Hnd|]. split.
  - intros x Hx Hin. apply list_elem_of_singleton in Hin. subst x.
    apply E. now apply list_elem_of_In.
  - apply NoDup_singleton.
Qed.

Lemma map_set_keyed (k : string) (v : Product) (m : list (string * Product)) :
  id v = k -> keyed m -> keyed (map_set k v m).
Proof.
  intros Hid [Hids Hnd]. split.
  - now apply map_set_Forall.
  - now apply map_set_NoDup.
Qed.

Lemma keyed_id (k : string) (v : Product) (m : list (string * Product)) :
  keyed m -> In (k, v) m -> id v = k.
Proof.
  intros [Hids _] Hin. rewrite List.Forall_forall in Hids.
  exact (Hids (k, v) Hin).
Qed.

(** *** What an operation leaves alone *)

Lemma checkStockLevel_frame (st : InventoryManager) (p : Product)
  (env : InvEnv) :
  let st' := checkStockLevel st p env in
  inventory st' = inventory st /\ saved st' = saved st
  /\ lowStockThreshold st' = lowStockThreshold st
  /\ outOfStockThreshold st' = outOfStockThreshold st
  /\ autoTrackEnabled st' = autoTrackEnabled st.
Proof.
  unfold checkStockLevel.
  repeat match goal with |- context [if ?b then _ else _] => destruct b end;
    repeat split; reflexivity.
Qed.

Lemma saveInventoryData_frame (st : InventoryManager) (env : InvEnv) :
  let st' := saveInventoryData st env in
  inventory st' = inventory st /\ stockAlerts st' = stockAlerts st
  /\ shown st' = shown st
  /\ lowStockThreshold st' = lowStockThreshold st
  /\ outOfStockThreshold st' = outOfStockThreshold st
  /\ autoTrackEnabled st' = autoTrackEnabled st.
Proof.
  unfold saveInventoryData. destruct (inv_saveOk env); repeat split; reflexivity.
Qed.

(** X13: [updateStock] touches one record at most.  The identifiers
    held and their order stay as they were, and every other record is
    unchanged.  For an unknown identifier the answer is null and nothing
    changes but a failure notice; for a known one the record keeps its name,
    price, thresholds and sales count, takes [max(0, parseInt(newStock))] as
    stock (what [parseInt] reads of the text of the number: 12 for 12.7, and
    1 for 1e21) and the instant of the call as [lastUpdated], and
    [lastRestocked] moves only for a rise in stock with reason [restock]. *)
Theorem updateStock_touches_one_record (st : InventoryManager)
  (productId : string) (newStock : jsnum) (reason : string) (env : InvEnv) :
  let st' := fst (updateStock st productId newStock reason env) in
  let answer := snd (updateStock st productId newStock reason env) in
  map fst (inventory st') = map fst (inventory st)
  /\ (forall k : string,
        k <> productId ->
        map_get k (inventory st') = map_get k (inventory st))
  /\ (map_get productId (inventory st) = None ->
      answer = None /\ inventory st' = inventory st
      /\ saved st' = saved st /\ stockAlerts st' = stockAlerts st
      /\ shown st' = (shown st ++ [UpdateStockFailed])%list)
  /\ (forall p : Product,
        map_get productId (inventory st) = Some p ->
        exists p' : Product,
          answer = Some p'
          /\ map_get productId (inventory st') = Some p'
          /\ currentStock p' = max (Num 0) (parseInt newStock)
          /\ lastUpdated p' = inv_now env
          /\ lastRestocked p'
             = (if lt (Num 0) (sub newStock (currentStock p))
                   && String.eqb reason "restock"
                then inv_now env else lastRestocked p)
          /\ id p' = id p /\ name p' = name p /\ price p' = price p
          /\ minStock p' = minStock p /\ maxStock p' = maxStock p
          /\ category p' = category p /\ totalSales p' = totalSales p
          /\ isActive p' = isActive p).
Proof.
  cbv zeta. rewrite updateStock_inventory. unfold updateStock.
  destruct (map_get productId (inventory st)) as [p|] eqn:E.
  - split; [now apply map_set_present with p|].
    split; [intros k Hk; now apply map_get_set_other|].
    split; [discriminate|].
    intros p0 E0. inversion E0; subst p0.
    eexists. split; [reflexivity|]. split; [apply map_get_set|].
    cbn. repeat split.
  - split; [reflexivity|]. split; [reflexivity|].
    split; [|discriminate]. intros _. repeat split.
Qed.

Lemma updateStock_touches_one_record_witness :
  let env := Scenario.inv_at (Scenario.noon + Scenario.hour) in
  let result := updateStock Scenario.one_left "product_1" (Num 12) "restock" env in
  let large :=
    updateStock Scenario.one_left "product_1" (Num (inject_Z (10 ^ 21)))
      "manual" env in
  "product_2" <> "product_1"
  /\ map_get "product_2" (inventory (fst result))
     = map_get "product_2" (inventory Scenario.one_left)
  /\ map_get "nothing" (inventory Scenario.one_left) = None
  /\ snd (updateStock Scenario.one_left "nothing" (Num 1) "manual"
            (Scenario.inv_at Scenario.noon)) = None
  /\ (exists p' : Product,
        snd result = Some p' /\ currentStock p' = Num (inject_Z 12))
  /\ (exists p' : Product,
        snd large = Some p' /\ currentStock p' = Num (inject_Z 1)).
Proof.
  intros env result large.
  assert (Hne : "product_2" <> "product_1") by discriminate.
  assert (Hnone : map_get "nothing" (inventory Scenario.one_left) = None)
    by (vm_compute; reflexivity).
  split; [exact Hne|].
  destruct (updateStock_touches_one_record Scenario.one_left "product_1"
              (Num 12) "restock" env)
    as (_ & Hother & _ & Hknown).
  split; [exact (Hother "product_2" Hne)|].
  split; [exact Hnone|].
  destruct (updateStock_touches_one_record Scenario.one_left "nothing"
              (Num 1) "manual" (Scenario.inv_at Scenario.noon))
    as (_ & _ & Hunknown & _).
  split; [exact (proj1 (Hunknown Hnone))|].
  destruct (updateStock_touches_one_record Scenario.one_left "product_1"
              (Num (inject_Z (10 ^ 21))) "manual" env)
    as (_ & _ & _ & Hlarge).
  destruct (map_get "product_1" (inventory Scenario.one_left)) as [p|] eqn:Ep;
    [|vm_compute in Ep; discriminate Ep].
  split.
  - destruct (Hknown p eq_refl) as (p' & Hanswer & _ & Hstock & _).
    exists p'. split; [exact Hanswer|].
    apply (eq_trans Hstock). vm_compute. reflexivity.
  - destruct (Hlarge p eq_refl) as (p' & Hanswer & _ & Hstock & _).
    exists p'. split; [exact Hanswer|].
    apply (eq_trans Hstock). vm_compute. reflexivity.
Defined.

(** *** Identifiers *)

Lemma updateStock_keyed (st : InventoryManager) (productId : string)
  (newStock : jsnum) (reason : string) (env : InvEnv) :
  keyed (inventory st) ->
  keyed (inventory (fst (updateStock st productId newStock reason env))).
Proof.
  intros Hk. rewrite updateStock_inventory.
  destruct (map_get productId (inventory st)) as [p|] eqn:E; [|exact Hk].
  apply map_set_keyed; [|exact Hk]. cbn [id].
  apply map_get_In in E. now apply (keyed_id _ _ _ Hk).
Qed.

Lemma addProduct_inventory (st : InventoryManager) (pd : ProductData)
  (env : InvEnv) :
  inventory (fst (addProduct st pd env))
  = match snd (addProduct st pd env) with
    | Some product => map_set (id product) product (inventory st)
    | None => inventory st
    end.
Proof.
  unfold addProduct.
  destruct (build_product st pd env) as [p|]; [|reflexivity].
  destruct (validateProductData p); [|reflexivity].
  cbn [fst snd notify inventory].
  now rewrite checkStockLevel_inventory, saveInventoryData_inventory.
Qed.

Lemma addProduct_keyed (st : InventoryManager) (pd : ProductData)
  (env : InvEnv) :
  keyed (inventory st) -> keyed (inventory (fst (addProduct st pd env))).
Proof.
  intros Hk. rewrite addProduct_inventory.
  destruct (snd (addProduct st pd env)); [|exact Hk].
  now apply map_set_keyed.
Qed.

Lemma handleSaleEvent_keyed (st : InventoryManager) (saleData : jsval)
  (env : InvEnv) :
  keyed (inventory st) -> keyed (inventory (handleSaleEvent st saleData env)).
Proof.
  intros Hk. unfold handleSaleEvent.
  destruct (negb (truthy (get saleData "productName"))); [exact Hk|].
  destruct (get saleData "productName") as [| | | |pn| |]; try exact Hk.
  destruct (findProductByName st pn) as [[key p]|] eqn:E.
  - apply updateStock_keyed. cbn [with_inventory inventory].
    apply map_set_keyed; [|exact Hk]. cbn [id].
    apply findProductByName_stored in E. now apply (keyed_id _ _ _ Hk).
  - destruct (autoTrackEnabled st); [|exact Hk]. now apply addProduct_keyed.
Qed.

Lemma updateStock_settings (st : InventoryManager) (productId : string)
  (newStock : jsnum) (reason : string) (env : InvEnv) :
  let st' := fst (updateStock st productId newStock reason env) in
  lowStockThreshold st' = lowStockThreshold st
  /\ outOfStockThreshold st' = outOfStockThreshold st
  /\ autoTrackEnabled st' = autoTrackEnabled st.
Proof.
  cbv zeta. unfold updateStock.
  destruct (map_get productId (inventory st)) as [p|]; [|repeat split].
  cbn [fst].
  match goal with
  | |- context [checkStockLevel (saveInventoryData ?s env) ?q env] =>
      pose proof (checkStockLevel_frame (saveInventoryData s env) q env) as F1;
      pose proof (saveInventoryData_frame s env) as F2
  end.
  cbv zeta in F1, F2.
  destruct F1 as (_ & _ & E1 & E2 & E3).
  destruct F2 as (_ & _ & _ & E4 & E5 & E6).
  rewrite E1, E2, E3, E4, E5, E6. repeat split.
Qed.

Lemma addProduct_settings (st : InventoryManager) (pd : ProductData)
  (env : InvEnv) :
  let st' := fst (addProduct st pd env) in
  lowStockThreshold st' = lowStockThreshold st
  /\ outOfStockThreshold st' = outOfStockThreshold st
  /\ autoTrackEnabled st' = autoTrackEnabled st.
Proof.
  cbv zeta. unfold addProduct.
  destruct (build_product st pd env) as [p|]; [|repeat split].
  destruct (validateProductData p); [|repeat split].
  cbn [fst notify lowStockThreshold outOfStockThreshold autoTrackEnabled].
  match goal with
  | |- context [checkStockLevel (saveInventoryData ?s env) ?q env] =>
      pose proof (checkStockLevel_frame (saveInventoryData s env) q env) as F1;
      pose proof (saveInventoryData_frame s env) as F2
  end.
  cbv zeta in F1, F2.
  destruct F1 as (_ & _ & E1 & E2 & E3).
  destruct F2 as (_ & _ & _ & E4 & E5 & E6).
  rewrite E1, E2, E3, E4, E5, E6. repeat split.
Qed.

Lemma handleSaleEvent_settings (st : InventoryManager) (saleData : jsval)
  (env : InvEnv) :
  let st' := handleSaleEvent st saleData env in
  lowStockThreshold st' = lowStockThreshold st
  /\ outOfStockThreshold st' = outOfStockThreshold st
  /\ autoTrackEnabled st' = autoTrackEnabled st.
Proof.
  cbv zeta. unfold handleSaleEvent.
  destruct (negb (truthy (get saleData "productName"))); [repeat split|].
  destruct (get saleData "productName") as [| | | |pn| |];
    try (repeat split; reflexivity).
  destruct (findProductByName st pn) as [[key p]|].
  - match goal with
    | |- context [updateStock ?s ?i ?n ?r env] =>
        pose proof (updateStock_settings s i n r env) as F
    end.
    cbv zeta in F. exact F.
  - destruct (autoTrackEnabled st) eqn:E; [|now repeat split].
    match goal with
    | |- context [addProduct st ?d env] =>
        pose proof (addProduct_settings st d env) as F
    end.
    cbv zeta in F. rewrite E in F. exact F.
Qed.

Lemma apply_keeps (st : InventoryManager) (op : Op) (env : InvEnv) :
  let st' := apply st op env in
  (keyed (inventory st) -> keyed (inventory st'))
  /\ lowStockThreshold st' = lowStockThreshold st
  /\ outOfStockThreshold st' = outOfStockThreshold st
  /\ autoTrackEnabled st' = autoTrackEnabled st.
Proof.
  destruct op as [saleData | productId newStock reason | pd]; cbn [apply].
  - split; [apply handleSaleEvent_keyed | apply handleSaleEvent_settings].
  - split; [apply updateStock_keyed | apply updateStock_settings].
  - split; [apply addProduct_keyed | apply addProduct_settings].
Qed.

Lemma run_keeps_keys (ops : list (Op * InvEnv)) :
  forall st : InventoryManager,
    let st' := run st ops in
    (keyed (inventory st) -> keyed (inventory st'))
    /\ lowStockThreshold st' = lowStockThreshold st
    /\ outOfStockThreshold st' = outOfStockThreshold st
    /\ autoTrackEnabled st' = autoTrackEnabled st.
Proof.
  unfold run. induction ops as [|[op env] ops IH]; intros st.
  - cbn. auto.
  - cbn [fold_left fst snd].
    destruct (apply_keeps st op env) as (Hk & H1 & H2 & H3).
    destruct (IH (apply st op env)) as (Hk' & H1' & H2' & H3').
    cbv zeta in *. rewrite H1', H2', H3', H1, H2, H3. auto.
Qed.

(** X14: over any sequence of sale events, stock updates and product
    additions, starting from an empty inventory, every record is stored
    under its own identifier and no identifier is held twice; the
    thresholds stay 5 and 0 and auto-tracking stays on. *)
Theorem records_are_stored_under_their_identifier
  (ops : list (Op * InvEnv)) :
  let st := run new_inventory ops in
  keyed (inventory st)
  /\ lowStockThreshold st = 5%Q /\ outOfStockThreshold st = 0%Q
  /\ autoTrackEnabled st = true.
Proof.
  cbv zeta. destruct (run_keeps_keys ops new_inventory) as (Hk & -> & -> & ->).
  split; [|repeat split]. apply Hk. split; constructor.
Qed.

(** *** Alerts *)

(** What one [checkStockLevel] may do. *)
Lemma checkStockLevel_cases (st : InventoryManager) (p : Product)
  (env : InvEnv) :
  checkStockLevel st p env = st
  \/ (inv_lowStockAlerts env = true
      /\ getStockLevel st p = "out"
      /\ checkStockLevel st p env
         = set_alert (notify st (OutOfStockAlert (name p))) (id p) (inv_now env))
  \/ (inv_lowStockAlerts env = true
      /\ getStockLevel st p = "low"
      /\ checkStockLevel st p env
         = set_alert (notify st (LowStockAlert (name p) (currentStock p)))
             (id p) (inv_now env)).
Proof.
  unfold checkStockLevel, getStockLevel.
  destruct (inv_lowStockAlerts env); cbn [negb]; [|now left].
  match goal with |- context [if ?b then st else _] => destruct b end;
    [now left|].
  destruct (le (currentStock p) (Num (outOfStockThreshold st)));
    [right; left; auto|].
  destruct (le (currentStock p)
              (Num (num_or (minStock p) (lowStockThreshold st))));
    [right; right; auto | now left].
Qed.

Lemma checkStockLevel_recent (st : InventoryManager) (p : Product)
  (env : InvEnv) (lastAlert : Z) :
  stockAlerts st !! id p = Some lastAlert -> lastAlert <> 0%Z ->
  (inv_now env - lastAlert < alertCooldown)%Z ->
  checkStockLevel st p env = st.
Proof.
  intros Hlast Hnz Hrecent. unfold checkStockLevel.
  destruct (inv_lowStockAlerts env); cbn [negb]; [|reflexivity].
  rewrite Hlast.
  destruct (Z.eqb_spec lastAlert 0); [contradiction|].
  destruct (Z.ltb_spec (inv_now env - lastAlert) alertCooldown); [|lia].
  reflexivity.
Qed.

(** X15: alerts for a product are spaced out.  When a check of the
    stock level raises an alert at an instant other than 0, any check for
    the same product identifier made less than 30 minutes after it raises
    nothing and changes nothing, whatever the stock then is; so two checks
    that close raise one alert at most. *)
Theorem alerts_are_spaced_out (st : InventoryManager) (p p' : Product)
  (env env' : InvEnv) :
  id p' = id p -> inv_now env <> 0%Z ->
  (inv_now env' - inv_now env < alertCooldown)%Z ->
  let st1 := checkStockLevel st p env in
  let st2 := checkStockLevel st1 p' env' in
  (st1 = st \/ st2 = st1)
  /\ (length (alerts st2) <= S (length (alerts st)))%nat.
Proof.
  intros Hid Hnz Hclose st1 st2.
  assert (Hone : forall (s : InventoryManager) (q : Product) (e : InvEnv),
            (length (alerts (checkStockLevel s q e)) <= S (length (alerts s)))%nat).
  { intros s q e.
    destruct (checkStockLevel_cases s q e) as [-> | [(_ & _ & ->) | (_ & _ & ->)]];
      unfold alerts; cbn [set_alert notify shown];
      rewrite ?List.filter_app, ?List.length_app; cbn; lia. }
  assert (Hquiet : forall n : Notification,
            checkStockLevel (set_alert (notify st n) (id p) (inv_now env)) p' env'
            = set_alert (notify st n) (id p) (inv_now env)).
  { intros n. apply checkStockLevel_recent with (inv_now env); try assumption.
    rewrite Hid. cbn [set_alert stockAlerts]. apply lookup_insert_eq. }
  assert (Hcases : st1 = st \/ st2 = st1).
  { subst st2 st1.
    destruct (checkStockLevel_cases st p env)
      as [-> | [(_ & _ & ->) | (_ & _ & ->)]]; [now left | right | right];
      apply Hquiet. }
  split; [exact Hcases|].
  destruct Hcases as [E | E].
  - subst st2. rewrite E. apply Hone.
  - rewrite E. apply Hone.
Qed.

Lemma alerts_are_spaced_out_witness :
  let p :=
    mkProduct "product_1" "Cola" (Num 0) (Num 5) (Num 100) (Num 2)
      "beverages" "" 0 0 true (Num 0) None None in
  let env := Scenario.inv_at Scenario.noon in
  let env' := Scenario.inv_at (Scenario.noon + 60000) in
  id p = id p /\ inv_now env <> 0%Z
  /\ (inv_now env' - inv_now env < alertCooldown)%Z
  /\ (length (alerts (checkStockLevel (checkStockLevel new_inventory p env)
                        p env'))
      <= 1)%nat.
Proof.
  intros p env env'.
  assert (Hnz : inv_now env <> 0%Z) by (vm_compute; discriminate).
  assert (Hclose : (inv_now env' - inv_now env < alertCooldown)%Z)
    by (vm_compute; reflexivity).
  split; [reflexivity|]. split; [exact Hnz|]. split; [exact Hclose|].
  exact (proj2 (alerts_are_spaced_out new_inventory p p env env' eq_refl Hnz
                  Hclose)).
Defined.

(** X16: the alert a check raises agrees with the level
    [getStockLevel] reports: nothing is raised for a record of level
    [normal], an out-of-stock alert only for level [out], a low-stock alert
    only for level [low] (never both), and at most one notification is added.
    A stock that is not a number is of level [normal]. *)
Theorem alert_agrees_with_level (st : InventoryManager) (p : Product)
  (env : InvEnv) :
  let st' := checkStockLevel st p env in
  (getStockLevel st p = "normal" -> st' = st)
  /\ (currentStock p = NaN -> getStockLevel st p = "normal")
  /\ (shown st' = shown st
      \/ (getStockLevel st p = "out"
          /\ shown st' = (shown st ++ [OutOfStockAlert (name p)])%list)
      \/ (getStockLevel st p = "low"
          /\ shown st'
             = (shown st ++ [LowStockAlert (name p) (currentStock p)])%list)).
Proof.
  cbv zeta. split; [|split].
  - intros Hnormal.
    destruct (checkStockLevel_cases st p env)
      as [E | [(_ & E & _) | (_ & E & _)]];
      [exact E | rewrite Hnormal in E; discriminate E ..].
  - intros Hnan. unfold getStockLevel. now rewrite Hnan.
  - destruct (checkStockLevel_cases st p env)
      as [-> | [(_ & E & ->) | (_ & E & ->)]]; [now left | right | right]; auto.
Qed.

Lemma alert_agrees_with_level_witness :
  let p :=
    mkProduct "product_1" "Cola" NaN (Num 5) (Num 100) (Num 2)
      "beverages" "" 0 0 true (Num 0) None None in
  currentStock p = NaN /\ getStockLevel new_inventory p = "normal"
  /\ checkStockLevel new_inventory p (Scenario.inv_at Scenario.noon)
     = new_inventory.
Proof.
  intros p.
  destruct (alert_agrees_with_level new_inventory p
              (Scenario.inv_at Scenario.noon)) as (Hquiet & Hnan & _).
  split; [reflexivity|]. split; [exact (Hnan eq_refl)|].
  exact (Hquiet (Hnan eq_refl)).
Defined.

(** *** Looking a product up by name *)

(** X17: [findProductByName] prefers an exact match: when some record's
    name equals the name asked for, both in lower case and trimmed, the
    record found has such a name, even where an earlier record matches in
    part.  A record found is a record held.  Nothing is found exactly when
    no record's name matches exactly and, in lower case, neither includes
    the trimmed name asked for nor is included in it. *)
Theorem findProductByName_prefers_exact (st : InventoryManager)
  (productName : string) :
  (forall (k : string) (p : Product),
     In (k, p) (inventory st) ->
     normalized (name p) = normalized productName ->
     exists (k' : string) (p' : Product),
       findProductByName st productName = Some (k', p')
       /\ normalized (name p') = normalized productName)
  /\ (forall (k : string) (p : Product),
        findProductByName st productName = Some (k, p) ->
        In (k, p) (inventory st))
  /\ (findProductByName st productName = None <->
      Forall
        (fun kv =>
           normalized (name (snd kv)) <> normalized productName
           /\ includes (toLowerCase (name (snd kv))) (normalized productName)
              = false
           /\ includes (normalized productName) (toLowerCase (name (snd kv)))
              = false)
        (inventory st)).
Proof.
  split; [|split].
  - intros k p Hin Hname. unfold findProductByName. fold (normalized productName).
    destruct (List.find
                (fun kv => String.eqb (trim (toLowerCase (name (snd kv))))
                             (normalized productName)) (inventory st))
      as [[k' p']|] eqn:E.
    + exists k', p'. split; [reflexivity|].
      apply List.find_some in E as [_ E]. now apply String.eqb_eq in E.
    + exfalso. apply find_none_forall in E.
      rewrite List.Forall_forall in E. specialize (E (k, p) Hin).
      cbn [snd] in E. unfold normalized in Hname. rewrite Hname in E.
      now rewrite String.eqb_refl in E.
  - intros k p. apply findProductByName_stored.
  - unfold findProductByName. fold (normalized productName).
    destruct (List.find
                (fun kv => String.eqb (trim (toLowerCase (name (snd kv))))
                             (normalized productName)) (inventory st))
      as [[k' p']|] eqn:E.
    + split; [discriminate|]. intros Hall.
      apply List.find_some in E as [Hin E]. apply String.eqb_eq in E.
      rewrite List.Forall_forall in Hall.
      destruct (Hall _ Hin) as (Hne & _). now elim Hne.
    + apply find_none_forall in E. rewrite List.Forall_forall in E.
      rewrite find_none_forall, !List.Forall_forall.
      split.
      * intros Hpart kv Hin. specialize (E kv Hin). specialize (Hpart kv Hin).
        cbn beta in *. apply orb_false_iff in Hpart as [H1 H2].
        split; [|split; assumption].
        intros Heq. unfold normalized in Heq.
        now rewrite Heq, String.eqb_refl in E.
      * intros Hall kv Hin. destruct (Hall kv Hin) as (_ & H1 & H2).
        cbn beta. now rewrite H1, H2.
Qed.

Lemma findProductByName_prefers_exact_witness :
  exists (k : string) (p : Product),
    findProductByName Scenario.one_left "  COLA classic " = Some (k, p)
    /\ normalized (name p) = normalized "  COLA classic "
    /\ In (k, p) (inventory Scenario.one_left).
Proof.
  destruct (inventory Scenario.one_left) as [|[k0 p0] rest] eqn:E0;
    [vm_compute in E0; discriminate E0|].
  assert (Hname : normalized (name p0) = normalized "  COLA classic ").
  { assert (Hall : map (fun kv => normalized (name (snd kv)))
                      (inventory Scenario.one_left)
                    = [normalized "  COLA classic "])
      by (vm_compute; reflexivity).
    rewrite E0 in Hall. cbn [map snd] in Hall.
    injection Hall as Hall _. exact Hall. }
  assert (Hin : In (k0, p0) (inventory Scenario.one_left))
    by (rewrite E0; now left).
  rewrite <- E0.
  destruct (findProductByName_prefers_exact Scenario.one_left "  COLA classic ")
    as (Hexact & Hheld & _).
  destruct (Hexact k0 p0 Hin Hname) as (k & p & Hfound & Hsame).
  exists k, p. split; [exact Hfound|]. split; [exact Hsame|].
  exact (Hheld k p Hfound).
Defined.

(** X18: a name made of white space only is matched to the first record
    of the inventory: its trimmed form is empty, and every name includes the
    empty string.  (Such a name is a valid product name for
    [validateSaleData].) *)
Theorem blank_name_matches_first_record (st : InventoryManager)
  (productName k : string) (p : Product) (rest : list (string * Product)) :
  normalized productName = "" ->
  inventory st = (k, p) :: rest ->
  Forall (fun kv => normalized (name (snd kv)) <> "") (inventory st) ->
  findProductByName st productName = Some (k, p).
Proof.
  intros Hblank Hinv Hnames. unfold findProductByName.
  fold (normalized productName). rewrite Hblank.
  assert (Hnone : List.find
                    (fun kv => String.eqb (trim (toLowerCase (name (snd kv)))) "")
                    (inventory st) = None).
  { apply find_none_forall. eapply List.Forall_impl; [|exact Hnames].
    intros kv Hne. cbn beta in *. now apply String.eqb_neq. }
  rewrite Hnone, Hinv. cbn [List.find snd].
  now rewrite includes_empty.
Qed.

Lemma blank_name_matches_first_record_witness :
  normalized "  " = ""
  /\ PRODUCT_NAME_test "  " = true
  /\ exists (k : string) (p : Product),
       findProductByName Scenario.one_left "  " = Some (k, p)
       /\ name p = "Cola Classic".
Proof.
  split; [vm_compute; reflexivity|]. split; [vm_compute; reflexivity|].
  destruct (inventory Scenario.one_left) as [|[k p] rest] eqn:E;
    [vm_compute in E; discriminate E|].
  assert (Hname : name p = "Cola Classic" /\ rest = []).
  { assert (Hall : map (fun kv => name (snd kv)) (inventory Scenario.one_left)
                    = ["Cola Classic"])
      by (vm_compute; reflexivity).
    rewrite E in Hall. cbn [map snd] in Hall.
    injection Hall as Hall Hrest.
    split; [exact Hall|]. destruct rest; [reflexivity | discriminate Hrest]. }
  destruct Hname as (Hname & ->).
  exists k, p. split; [|exact Hname].
  apply (blank_name_matches_first_record Scenario.one_left "  " k p []).
  - vm_compute. reflexivity.
  - exact E.
  - rewrite E. constructor; [|constructor]. cbn [snd]. rewrite Hname.
    vm_compute. discriminate.
Defined.

(** *** Sale events *)

Lemma Qtrunc_whole (q : Q) (n : Z) : (q == inject_Z n)%Q -> Qtrunc q = n.
Proof.
  unfold Qeq, Qtrunc. cbn [Qnum Qden inject_Z]. rewrite Z.mul_1_r.
  intros ->. apply Z.quot_mul. discriminate.
Qed.

Lemma decimalText_true (q : Q) :
  decimalText q = true <->
  (q == 0 \/ (1 # 1000000 <= Qabs q /\ Qabs q < inject_Z (10 ^ 21)))%Q.
Proof.
  unfold decimalText.
  now rewrite orb_true_iff, andb_true_iff, Qis0_true, Qleb_true, Qltb_true.
Qed.

(** A whole number below 1e21 in magnitude is written in plain decimal
    notation, and [parseInt] reads it back. *)
Lemma parseInt_whole (q : Q) (n : Z) :
  (q == inject_Z n)%Q -> (Z.abs n < 10 ^ 21)%Z ->
  parseInt (Num q) = Num (inject_Z n).
Proof.
  intros Hq Hn. unfold parseInt.
  assert (Hplain : decimalText q = true).
  { apply decimalText_true.
    destruct (Z.eq_dec n 0) as [->|Hne]; [left; exact Hq|].
    right. rewrite Hq.
    change (Qabs (inject_Z n)) with (inject_Z (Z.abs n)). split.
    - unfold Qle. cbn [Qnum Qden inject_Z]. lia.
    - now rewrite <- Zlt_Qlt. }
  rewrite Hplain. now rewrite (Qtrunc_whole q n Hq).
Qed.




(** *** What [addProduct] refuses *)

Lemma Qtrunc_negative (q : Q) : (Qtrunc q < 0)%Z <-> (q <= -1)%Q.
Proof.
  unfold Qtrunc, Qle. destruct q as [n d]. cbn [Qnum Qden].
  rewrite Z.mul_1_r.
  pose proof (Z.quot_rem' n (Z.pos d)) as Hdiv.
  destruct (Z_lt_le_dec n 0) as [Hneg | Hpos].
  - pose proof (Z.rem_bound_abs n (Z.pos d) ltac:(lia)) as Hrem.
    pose proof (Z.rem_nonpos n (Z.pos d) ltac:(lia) ltac:(lia)) as Hsign.
    rewrite (Z.abs_eq (Z.pos d)) in Hrem by lia.
    rewrite Z.abs_neq in Hrem by exact Hsign. nia.
  - pose proof (Z.quot_pos n (Z.pos d) Hpos ltac:(lia)). lia.
Qed.

(** What [parseInt] reads is below zero: in plain decimal notation for
    a number at or below -1, in exponent notation for any number below zero
    whose text does not start with the digit 0. *)
Lemma parseInt_reads_negative (q : Q) :
  lt (parseInt (Num q)) (Num 0) = true <->
  if decimalText q then (q <= -1)%Q
  else (q < 0)%Q /\ leadingDigit (Qabs q) <> 0%Z.
Proof.
  unfold parseInt. destruct (decimalText q); unfold lt; rewrite Qltb_true;
    change 0%Q with (inject_Z 0); rewrite <- Zlt_Qlt.
  - apply Qtrunc_negative.
  - unfold Qlt. cbn [Qnum Qden inject_Z]. rewrite Z.mul_1_r, Z.mul_0_l.
    pose proof (Z.abs_nonneg (leadingDigit (Qabs q))) as Habs.
    destruct (Qnum q) as [|n|n]; cbn [Z.sgn]; split; lia.
Qed.

Lemma parsed_negative (x : option jsnum) (d : Q) :
  (0 <= d)%Q ->
  lt (Num (num_or (opt_parseInt x) d)) (Num 0) = true <->
  exists q : Q, x = Some (Num q) /\ lt (parseInt (Num q)) (Num 0) = true.
Proof.
  intros Hd.
  assert (Hdefault : lt (Num d) (Num 0) = false)
    by (unfold lt; now apply Qltb_false).
  destruct x as [[|q]|]; cbn [opt_parseInt].
  - cbn [parseInt num_or]. rewrite Hdefault.
    split; [discriminate | intros (q & E & _); discriminate E].
  - assert (Hread : exists r : Q, parseInt (Num q) = Num r)
      by (unfold parseInt; destruct (decimalText q); eexists; reflexivity).
    destruct Hread as (r & Hr). rewrite Hr. cbn [num_or].
    destruct (Qis0 r) eqn:E0.
    + rewrite Hdefault. split; [discriminate|].
      intros (q' & E & Hq). inversion E; subst q'. rewrite Hr in Hq.
      apply Qis0_true in E0. unfold lt in Hq. apply Qltb_true in Hq.
      rewrite E0 in Hq. now apply Qlt_irrefl in Hq.
    + split.
      * intros Hq. exists q. now rewrite Hr.
      * intros (q' & E & Hq). inversion E; subst q'. now rewrite Hr in Hq.
  - cbn [num_or]. rewrite Hdefault.
    split; [discriminate | intros (q & E & _); discriminate E].
Qed.

Lemma price_negative (x : option jsnum) :
  lt (Num (num_or (opt_parseFloat x) 0)) (Num 0) = true <->
  exists q : Q, x = Some (Num q) /\ (q < 0)%Q.
Proof.
  destruct x as [[|q]|]; cbn [opt_parseFloat num_or].
  - split; [discriminate | intros (q & E & _); discriminate E].
  - destruct (Qis0 q) eqn:E0.
    + split; [discriminate|]. intros (q' & E & Hq). inversion E; subst q'.
      apply Qis0_true in E0. rewrite E0 in Hq. now apply Qlt_irrefl in Hq.
    + unfold lt. rewrite Qltb_true. split.
      * intros Hq. now exists q.
      * intros (q' & E & Hq). now inversion E; subst q'.
  - split; [discriminate | intros (q & E & _); discriminate E].
Qed.

Lemma blank_empty (n : string) : truthy (JStr n) = false -> is_blank n = true.
Proof.
  cbn. destruct (String.eqb_spec n "") as [->|]; [reflexivity | discriminate].
Qed.

(** X20: [addProduct] refuses the data, answering null, exactly when
    the name is not a string or is blank, or the stock given is a number that
    [parseInt] reads as below zero, or the price given is a number below 0,
    or the minimum stock given is a number that [parseInt] reads as below
    zero.  [parseInt] reads a number written in plain decimal notation as
    below zero when it is at or below -1 (a stock between -1 and 0 written so
    is taken for absent), and a number written in exponent notation, such as
    -1e-7, when it is below zero and its text does not start with 0.  A
    refusal changes nothing but for one failure notice. *)
Theorem addProduct_refuses_exactly (st : InventoryManager)
  (pd : ProductData) (env : InvEnv) :
  (0 <= lowStockThreshold st)%Q ->
  (snd (addProduct st pd env) = None <->
   match pd_name pd with
   | JStr n =>
       is_blank n = true
       \/ (exists q : Q,
             pd_currentStock pd = Some (Num q)
             /\ lt (parseInt (Num q)) (Num 0) = true)
       \/ (exists q : Q, pd_price pd = Some (Num q) /\ (q < 0)%Q)
       \/ (exists q : Q,
             pd_minStock pd = Some (Num q)
             /\ lt (parseInt (Num q)) (Num 0) = true)
   | _ => True
   end)
  /\ (forall q : Q,
        lt (parseInt (Num q)) (Num 0) = true <->
        if decimalText q then (q <= -1)%Q
        else (q < 0)%Q /\ leadingDigit (Qabs q) <> 0%Z)
  /\ (snd (addProduct st pd env) = None ->
      fst (addProduct st pd env) = notify st AddProductFailed).
Proof.
  intros Hlow. split; [|split; [exact parseInt_reads_negative|]].
  2:{ unfold addProduct. destruct (build_product st pd env) as [p|];
        [|reflexivity].
      destruct (validateProductData p); [discriminate | reflexivity]. }
  unfold addProduct, build_product.
  destruct (pd_name pd) as [| | | |n| |]; cbn [snd]; try tauto.
  unfold validateProductData.
  cbn [name currentStock price minStock].
  rewrite <- (parsed_negative (pd_currentStock pd) 0 (Qle_refl 0)).
  rewrite <- (parsed_negative (pd_minStock pd) (lowStockThreshold st) Hlow).
  rewrite <- price_negative.
  destruct (truthy (JStr n)) eqn:Et; cbn [negb orb].
  - destruct (is_blank n); cbn [app];
      [split; [now left | reflexivity]|].
    destruct (lt (Num (num_or (opt_parseInt (pd_currentStock pd)) 0)) (Num 0));
      cbn [app]; [split; [intros _; right; now left | reflexivity]|].
    destruct (lt (Num (num_or (opt_parseFloat (pd_price pd)) 0)) (Num 0));
      cbn [app]; [split; [intros _; right; right; now left | reflexivity]|].
    destruct (lt (Num (num_or (opt_parseInt (pd_minStock pd))
                         (lowStockThreshold st))) (Num 0));
      cbn [app snd]; [split; [intros _; right; right; now right | reflexivity]|].
    split; [discriminate|]. intros [E | [E | [E | E]]]; discriminate E.
  - cbn [app snd]. split; [|reflexivity]. intros _. left. now apply blank_empty.
Qed.

Lemma addProduct_refuses_exactly_witness :
  let request (stock : Q) :=
    mkData None (JStr "Cola") (Some (Num stock)) None None (Some (Num 1))
      None None None None None in
  let env := Scenario.inv_at Scenario.noon in
  (0 <= lowStockThreshold new_inventory)%Q
  /\ snd (addProduct new_inventory (request (-2)%Q) env) = None
  /\ fst (addProduct new_inventory (request (-2)%Q) env)
     = notify new_inventory AddProductFailed
  /\ decimalText (- Scenario.double_1e_7) = false
  /\ snd (addProduct new_inventory (request (- Scenario.double_1e_7)%Q) env)
     = None
  /\ snd (addProduct new_inventory (request (- (1 # 2))%Q) env) <> None.
Proof.
  intros request env.
  assert (Hlow : (0 <= lowStockThreshold new_inventory)%Q)
    by (vm_compute; discriminate).
  split; [exact Hlow|].
  destruct (addProduct_refuses_exactly new_inventory (request (-2)%Q) env Hlow)
    as (Hiff & _ & Hsame).
  assert (Hnone : snd (addProduct new_inventory (request (-2)%Q) env) = None).
  { apply Hiff. right. left. exists (-2)%Q. split; [reflexivity|].
    vm_compute. reflexivity. }
  split; [exact Hnone|]. split; [exact (Hsame Hnone)|].
  split; [vm_compute; reflexivity|].
  split.
  - destruct (addProduct_refuses_exactly new_inventory
                (request (- Scenario.double_1e_7)%Q) env Hlow)
      as (Hsmall & _ & _).
    apply Hsmall. right. left. exists (- Scenario.double_1e_7)%Q. split; [reflexivity|].
    vm_compute. reflexivity.
  - intros Hrefused.
    destruct (addProduct_refuses_exactly new_inventory
                (request (- (1 # 2))%Q) env Hlow) as (Hhalf & _ & _).
    apply Hhalf in Hrefused. cbn [request pd_name] in Hrefused.
    destruct Hrefused as [E | [(q & E & Hq) | [(q & E & Hq) | (q & E & _)]]].
    + vm_compute in E. discriminate E.
    + injection E as <-. vm_compute in Hq. discriminate Hq.
    + injection E as <-. vm_compute in Hq. discriminate Hq.
    + discriminate E.
Defined.

(** *** A sale of a product that is not held *)

Section Validated.
Context `{Host}.

Lemma validated_price_not_negative (saleData : jsval) :
  validateSaleData saleData = [] ->
  lt (Num (num_or (extractPrice (get saleData "price")) 0)) (Num 0) = false.
Proof.
  intros Hvalid.
  pose proof (AnalyticsExtras.validated_price saleData 0 "" Hvalid) as Hp.
  cbn [Analytics.enrichSaleData Sales.sale_price] in Hp.
  unfold lt. now apply Qltb_false.
Qed.

Lemma validated_name_truthy (saleData : jsval) (pn : string) :
  validateSaleData saleData = [] ->
  get saleData "productName" = JStr pn -> truthy (JStr pn) = true.
Proof.
  unfold validateSaleData. intros Hvalid Hname.
  destruct (negb (truthy saleData) || negb (jstype_eqb (typeof saleData) TObject));
    [discriminate Hvalid|].
  rewrite Hname in Hvalid.
  destruct (truthy (JStr pn)); [reflexivity|].
  cbn [negb orb app] in Hvalid. discriminate Hvalid.
Qed.

(** X21: a sale that passes [validateSaleData], of a product that no
    record matches, does nothing when auto-tracking is off.  When it is on
    and the name is made of white space only, [addProduct] refuses the name:
    no record is made and a failure notice is shown.  When it is on and the
    name is not blank, a record is made for it under a new identifier, with
    the name of the sale, stock 0 and no sale counted, and (the thresholds
    being not negative, alerts enabled, and no alert on file for the
    identifier) an out-of-stock alert is raised for it at once, before the
    notice of the addition. *)
Theorem unknown_product_is_created_out_of_stock (st : InventoryManager)
  (saleData : jsval) (pn : string) (env : InvEnv) :
  validateSaleData saleData = [] ->
  get saleData "productName" = JStr pn ->
  findProductByName st pn = None ->
  (0 <= lowStockThreshold st)%Q -> (0 <= outOfStockThreshold st)%Q ->
  inv_lowStockAlerts env = true ->
  stockAlerts st !! inv_freshId env = None ->
  let st' := handleSaleEvent st saleData env in
  (autoTrackEnabled st = false -> st' = st)
  /\ (autoTrackEnabled st = true -> is_blank pn = true ->
      st' = notify st AddProductFailed)
  /\ (autoTrackEnabled st = true -> is_blank pn = false ->
      exists p : Product,
        inventory st' = map_set (inv_freshId env) p (inventory st)
        /\ id p = inv_freshId env /\ name p = pn
        /\ currentStock p = Num 0 /\ totalSales p = Num 0
        /\ lastUpdated p = inv_now env
        /\ shown st'
           = (shown st ++ [OutOfStockAlert pn; ProductAdded pn])%list).
Proof.
  intros Hvalid Hname Hfind Hlow Hout Halerts Hfile. cbv zeta.
  pose proof (validated_name_truthy saleData pn Hvalid Hname) as Htruthy.
  unfold handleSaleEvent. rewrite Hname, Htruthy. cbn [negb]. rewrite Hfind.
  split; [now intros ->|].
  assert (Hstock : num_or (parseInt (Num 0)) 0 = 0%Q).
  { rewrite (parseInt_whole 0 0) by (reflexivity || lia). reflexivity. }
  split.
  { intros -> Hblank. unfold addProduct, build_product.
    cbn [pd_name]. unfold validateProductData. cbn [name].
    rewrite Htruthy, Hblank. reflexivity. }
  intros -> Hblank.
  unfold addProduct, build_product.
  cbn [pd_name pd_id pd_currentStock pd_minStock pd_maxStock pd_price
       pd_category pd_supplier pd_lastRestocked pd_isActive pd_totalSales
       str_or opt_parseInt opt_parseFloat].
  rewrite Hstock. cbn [parseInt num_or].
  match goal with
  | |- context [validateProductData ?q] => set (p := q)
  end.
  assert (Hok : validateProductData p = []).
  { unfold validateProductData. subst p.
    cbn [name currentStock price minStock].
    rewrite Htruthy, Hblank. cbn [negb orb app].
    change (lt (Num 0) (Num 0)) with false. cbn iota.
    assert (Hprice : lt (Num (num_or
                                (Num (num_or (extractPrice (get saleData "price")) 0))
                                0)) (Num 0) = false).
    { pose proof (validated_price_not_negative saleData Hvalid) as Hp.
      cbn [num_or].
      destruct (Qis0 (num_or (extractPrice (get saleData "price")) 0));
        [reflexivity | exact Hp]. }
    cbn [num_or] in Hprice. rewrite Hprice. cbn [app].
    assert (Hmin : lt (Num (lowStockThreshold st)) (Num 0) = false)
      by (unfold lt; now apply Qltb_false).
    now rewrite Hmin. }
  rewrite Hok. cbn [fst].
  exists p. cbn [notify inventory shown].
  rewrite checkStockLevel_inventory, saveInventoryData_inventory.
  cbn [with_inventory inventory].
  split; [reflexivity|]. split; [reflexivity|]. split; [reflexivity|].
  split; [reflexivity|]. split; [reflexivity|]. split; [reflexivity|].
  match goal with
  | |- context [saveInventoryData ?s env] => set (st1 := s)
  end.
  pose proof (saveInventoryData_frame st1 env) as F. cbv zeta in F.
  destruct F as (_ & Ea & Es & _ & Eo & _).
  set (st2 := saveInventoryData st1 env) in *.
  assert (Hle : le (Num 0) (Num (outOfStockThreshold st)) = true)
    by (unfold le; now apply Qleb_true).
  unfold checkStockLevel. rewrite Halerts. cbn [negb].
  rewrite Ea, Eo. subst st1 p.
  cbn [with_inventory stockAlerts outOfStockThreshold id currentStock].
  rewrite Hfile, Hle. cbn [set_alert notify shown]. rewrite Es.
  cbn [with_inventory shown name]. now rewrite <- app_assoc.
Qed.

End Validated.

Lemma unknown_product_is_created_out_of_stock_witness :
  let env := Scenario.inv_at Scenario.noon in
  let st' := handleSaleEvent new_inventory Scenario.cola env in
  (@validateSaleData Reference.utcHost Scenario.cola = []
   /\ is_blank "Cola" = false
   /\ findProductByName new_inventory "Cola" = None
   /\ autoTrackEnabled new_inventory = true
   /\ exists p : Product,
        inventory st' = map_set "product_1" p (inventory new_inventory)
        /\ currentStock p = Num 0
        /\ shown st' = [OutOfStockAlert "Cola"; ProductAdded "Cola"])
  /\ (@validateSaleData Reference.utcHost Scenario.blank_sale = []
      /\ is_blank "  " = true
      /\ handleSaleEvent new_inventory Scenario.blank_sale env
         = notify new_inventory AddProductFailed).
Proof.
  intros env st'. split.
  - assert (Hvalid : @validateSaleData Reference.utcHost Scenario.cola = [])
      by (vm_compute; reflexivity).
    split; [exact Hvalid|]. split; [vm_compute; reflexivity|].
    split; [reflexivity|]. split; [reflexivity|].
    destruct (@unknown_product_is_created_out_of_stock Reference.utcHost
                new_inventory Scenario.cola "Cola" env Hvalid)
      as (_ & _ & Hon).
    + reflexivity.
    + reflexivity.
    + vm_compute. discriminate.
    + vm_compute. discriminate.
    + reflexivity.
    + reflexivity.
    + destruct (Hon eq_refl) as (p & Hinv & _ & _ & Hstock & _ & _ & Hshown);
        [vm_compute; reflexivity|].
      exists p. split; [exact Hinv|]. split; [exact Hstock | exact Hshown].
  - assert (Hvalid : @validateSaleData Reference.utcHost Scenario.blank_sale = [])
      by (vm_compute; reflexivity).
    split; [exact Hvalid|]. split; [vm_compute; reflexivity|].
    destruct (@unknown_product_is_created_out_of_stock Reference.utcHost
                new_inventory Scenario.blank_sale "  " env Hvalid)
      as (_ & Hrefused & _).
    + reflexivity.
    + reflexivity.
    + vm_compute. discriminate.
    + vm_compute. discriminate.
    + reflexivity.
    + reflexivity.
    + apply Hrefused; [reflexivity | vm_compute; reflexivity].
Defined.

(** *** Removal *)

Lemma map_get_delete (k : string) (m : list (string * Product)) :
  map_get k (map_delete k m) = None.
Proof.
  unfold map_delete. induction m as [|[k0 v0] m IH]; cbn [List.filter fst];
    [reflexivity|].
  destruct (String.eqb_spec k k0) as [->|Hk]; cbn [negb map_get]; [exact IH|].
  destruct (String.eqb_spec k k0); [contradiction | exact IH].
Qed.

Lemma map_get_delete_other (k k' : string) (m : list (string * Product)) :
  k' <> k -> map_get k' (map_delete k m) = map_get k' m.
Proof.
  intros Hne. unfold map_delete.
  induction m as [|[k0 v0] m IH]; cbn [List.filter fst]; [reflexivity|].
  destruct (String.eqb_spec k k0) as [->|Hk]; cbn [negb map_get].
  - destruct (String.eqb_spec k' k0); [contradiction | exact IH].
  - now rewrite IH.
Qed.

Lemma map_delete_keyed (k : string) (m : list (string * Product)) :
  keyed m -> keyed (map_delete k m).
Proof.
  intros [Hids Hnd]. unfold map_delete. split.
  - now apply WebSocketProps.Forall_filter_keep.
  - clear Hids. induction m as [|[k0 v0] m IH]; cbn [List.filter fst map];
      [constructor|].
    cbn [map fst] in Hnd. apply NoDup_cons in Hnd as [Hnot Hrest].
    destruct (negb (String.eqb k k0)); cbn [map fst]; [|now apply IH].
    apply NoDup_cons. split; [|now apply IH].
    intros Hin. apply Hnot.
    apply list_elem_of_In in Hin. apply list_elem_of_In.
    apply List.in_map_iff in Hin as (kv & Hk & Hin).
    apply List.filter_In in Hin as [Hin _].
    apply List.in_map_iff. now exists kv.
Qed.

(** X22: [removeProduct] answers false for an identifier that is not
    held and changes nothing; for one that is held it answers true, the
    record is gone, every other record and its alert stamp are as before, and
    the alert stamp of the identifier is forgotten, so that an empty stock
    under the same identifier is alerted on again at once, without regard to
    the 30 minutes. *)
Theorem removeProduct_forgets_the_record (st : InventoryManager)
  (productId : string) (env : InvEnv) :
  let st' := fst (fst (removeProduct st productId env)) in
  let answer := snd (fst (removeProduct st productId env)) in
  (map_get productId (inventory st) = None ->
   st' = st /\ answer = false
   /\ snd (removeProduct st productId env) = RemoveProductFailed)
  /\ (forall p : Product,
        map_get productId (inventory st) = Some p ->
        answer = true
        /\ snd (removeProduct st productId env) = ProductRemoved (name p)
        /\ map_get productId (inventory st') = None
        /\ stockAlerts st' !! productId = None
        /\ (forall k : string,
              k <> productId ->
              map_get k (inventory st') = map_get k (inventory st)
              /\ stockAlerts st' !! k = stockAlerts st !! k)
        /\ (keyed (inventory st) -> keyed (inventory st'))
        /\ (forall (q : Product) (env' : InvEnv),
              id q = productId -> inv_lowStockAlerts env' = true ->
              le (currentStock q) (Num (outOfStockThreshold st)) = true ->
              shown (checkStockLevel st' q env')
              = (shown st' ++ [OutOfStockAlert (name q)])%list)).
Proof.
  cbv zeta. unfold removeProduct.
  destruct (map_get productId (inventory st)) as [p|] eqn:E.
  - split; [discriminate|]. intros p0 E0. inversion E0; subst p0.
    cbn [fst snd].
    match goal with
    | |- context [saveInventoryData ?s env] => set (st1 := s)
    end.
    pose proof (saveInventoryData_frame st1 env) as F. cbv zeta in F.
    destruct F as (Ei & Ea & Es & _ & Eo & _).
    set (st2 := saveInventoryData st1 env) in *.
    rewrite Ei, Ea. subst st1. cbn [inventory stockAlerts] in *.
    split; [reflexivity|]. split; [reflexivity|].
    split; [apply map_get_delete|].
    split; [apply lookup_delete_eq|].
    split; [|split].
    + intros k Hk. split; [now apply map_get_delete_other|].
      now apply lookup_delete_ne.
    + apply map_delete_keyed.
    + intros q env' Hid Halerts Hout. unfold checkStockLevel.
      rewrite Halerts. cbn [negb]. rewrite Ea, Eo, Hid.
      cbn [outOfStockThreshold]. rewrite lookup_delete_eq, Hout.
      reflexivity.
  - split; [|discriminate]. intros _. repeat split.
Qed.

Lemma removeProduct_forgets_the_record_witness :
  let env := Scenario.inv_at (Scenario.noon + Scenario.hour) in
  map_get "nothing" (inventory Scenario.none_left) = None
  /\ fst (fst (removeProduct Scenario.none_left "nothing" env))
     = Scenario.none_left
  /\ map_get "product_1"
       (inventory (fst (fst (removeProduct Scenario.none_left "product_1" env))))
     = None
  /\ stockAlerts (fst (fst (removeProduct Scenario.none_left "product_1" env)))
     !! "product_1" = None.
Proof.
  intros env.
  assert (Hnone : map_get "nothing" (inventory Scenario.none_left) = None)
    by (vm_compute; reflexivity).
  split; [exact Hnone|].
  destruct (removeProduct_forgets_the_record Scenario.none_left "nothing" env)
    as (Hmissing & _).
  split; [exact (proj1 (Hmissing Hnone))|].
  destruct (removeProduct_forgets_the_record Scenario.none_left "product_1" env)
    as (_ & Hheld).
  destruct (map_get "product_1" (inventory Scenario.none_left)) as [p|] eqn:E;
    [|vm_compute in E; discriminate E].
  destruct (Hheld p eq_refl) as (_ & _ & Hgone & Hstamp & _).
  split; [exact Hgone | exact Hstamp].
Defined.

(** *** Import and export *)

Lemma import_records_distinct (records : list Product) (clock : nat -> Z) :
  forall (i : nat) (inv : list (string * Product)),
    NoDup (map fst inv ++ map import_key records) ->
    import_records records clock i inv
    = (inv ++ imap (fun j p => (import_key p, restamp p (clock (i + j)%nat)))
               records)%list.
Proof.
  induction records as [|p rest IH]; intros i inv Hnd; cbn [import_records].
  - cbn. now rewrite app_nil_r.
  - cbn [map] in Hnd.
    assert (Hnew : map_get (import_key p) inv = None).
    { apply map_get_None. intros Hin. apply NoDup_app in Hnd as (_ & Hsep & _).
      apply (Hsep (import_key p)); [now apply list_elem_of_In|]. now left. }
    rewrite (map_set_absent _ _ _ Hnew), IH.
    + rewrite imap_cons, <- app_assoc. cbn [app].
      replace (i + 0)%nat with i by lia.
      do 2 f_equal. apply imap_ext. intros j x _. cbn.
      now replace (S (i + j))%nat with (i + S j)%nat by lia.
    + rewrite List.map_app, <- app_assoc. exact Hnd.
Qed.

(** X23: [importInventory] takes the records as they are.  The records
    held before are all dropped and, the keys [id || name] of the imported
    records being distinct, the inventory is those records in their order,
    each under its key and changed in [lastUpdated] only: no record is
    validated or has its stock clamped, so the stocks held after an import
    are free of negative values exactly when the records given are.  The
    alert stamps are kept.  Anything but an array of records is refused and
    changes nothing. *)
Theorem importInventory_takes_records_as_given (st : InventoryManager)
  (records : list Product) (clock : nat -> Z) (env : InvEnv) :
  NoDup (map import_key records) ->
  let st' := fst (fst (importInventory st (Some records) clock env)) in
  snd (fst (importInventory st (Some records) clock env)) = true
  /\ inventory st'
     = imap (fun j p => (import_key p, restamp p (clock j))) records
  /\ stockAlerts st' = stockAlerts st
  /\ (stocks_not_negative st' <->
      Forall (fun p => not_negative (currentStock p)) records)
  /\ importInventory st None clock env = (st, false, ImportFailed).
Proof.
  intros Hnd. cbv zeta. cbn [importInventory fst snd].
  match goal with
  | |- context [saveInventoryData ?s env] => set (st1 := s)
  end.
  pose proof (saveInventoryData_frame st1 env) as F. cbv zeta in F.
  destruct F as (Ei & Ea & _).
  assert (Hinv : inventory st1
                 = imap (fun j p => (import_key p, restamp p (clock j))) records).
  { subst st1. cbn [with_inventory inventory].
    rewrite import_records_distinct by exact Hnd. reflexivity. }
  split; [reflexivity|]. split; [now rewrite Ei|].
  split; [now rewrite Ea|]. split; [|reflexivity].
  unfold stocks_not_negative. rewrite Ei, Hinv, !List.Forall_forall. split.
  - intros Hall p Hin.
    apply list_elem_of_In, list_elem_of_lookup in Hin as (j & Hj).
    specialize (Hall (import_key p, restamp p (clock j))). cbn in Hall.
    apply Hall. apply list_elem_of_In, list_elem_of_lookup. exists j.
    rewrite list_lookup_imap, Hj. reflexivity.
  - intros Hall kv Hin.
    apply list_elem_of_In, list_elem_of_lookup in Hin as (j & Hj).
    rewrite list_lookup_imap in Hj.
    destruct (records !! j) as [p|] eqn:Ep; [|discriminate Hj].
    cbn in Hj. inversion Hj; subst kv. cbn [snd restamp currentStock].
    apply Hall. apply list_elem_of_In, list_elem_of_lookup. now exists j.
Qed.

Lemma importInventory_takes_records_as_given_witness :
  let p :=
    mkProduct "product_7" "Cola" (Num (-3)) (Num 5) (Num 100) (Num 2)
      "beverages" "" 0 0 true (Num 0) None None in
  let st' :=
    fst (fst (importInventory Scenario.one_left (Some [p])
                (fun _ => Scenario.noon) (Scenario.inv_at Scenario.noon))) in
  NoDup (map import_key [p])
  /\ inventory st' = [("product_7", restamp p Scenario.noon)]
  /\ ~ stocks_not_negative st'.
Proof.
  intros p st'.
  assert (Hnd : NoDup (map import_key [p])) by apply NoDup_singleton.
  split; [exact Hnd|].
  destruct (importInventory_takes_records_as_given Scenario.one_left [p]
              (fun _ => Scenario.noon) (Scenario.inv_at Scenario.noon) Hnd)
    as (_ & Hinv & _ & Hiff & _).
  split; [exact Hinv|].
  intros Hpos. apply Hiff in Hpos. inversion Hpos as [|? ? Hp _]; subst.
  vm_compute in Hp. discriminate Hp.
Defined.

(** X24: what [exportInventory] writes, [importInventory] reads back:
    for an inventory whose records are stored under their own identifiers,
    none of them empty, importing the exported records gives the same
    identifiers in the same order, each with its record changed in
    [lastUpdated] only. *)
Theorem import_restores_export (st : InventoryManager) (now : Z)
  (clock : nat -> Z) (env : InvEnv) :
  keyed (inventory st) ->
  Forall (fun kv => fst kv <> "") (inventory st) ->
  let records := fst (fst (exportInventory st now)) in
  let st' := fst (fst (importInventory st (Some records) clock env)) in
  inventory st'
  = imap (fun j kv => (fst kv, restamp (snd kv) (clock j))) (inventory st).
Proof.
  intros [Hids Hnd] Hnames. cbv zeta.
  cbn [exportInventory importInventory fst].
  rewrite saveInventoryData_inventory. cbn [with_inventory inventory].
  assert (Hkey : forall kv, In kv (inventory st) -> import_key (snd kv) = fst kv).
  { intros kv Hin. rewrite List.Forall_forall in Hids, Hnames.
    unfold import_key. rewrite (Hids kv Hin).
    destruct (String.eqb_spec (fst kv) ""); [|reflexivity].
    now elim (Hnames kv Hin). }
  assert (Hkeys : map import_key (values (inventory st))
                  = map fst (inventory st)).
  { unfold values. rewrite List.map_map. apply List.map_ext_in. exact Hkey. }
  rewrite import_records_distinct by (cbn [map app]; now rewrite Hkeys).
  cbn [app]. unfold values.
  change (map snd (inventory st)) with (snd <$> inventory st).
  rewrite imap_fmap. apply imap_ext. intros j kv Hj. cbn.
  rewrite Hkey; [reflexivity|].
  apply list_elem_of_In, list_elem_of_lookup. now exists j.
Qed.

Lemma import_restores_export_witness :
  let st := Scenario.one_left in
  let st' :=
    fst (fst (importInventory st (Some (fst (fst (exportInventory st 0))))
                (fun _ => Scenario.noon + Scenario.hour)
                (Scenario.inv_at (Scenario.noon + Scenario.hour)))) in
  keyed (inventory st)
  /\ Forall (fun kv => fst kv <> "") (inventory st)
  /\ map fst (inventory st') = ["product_1"].
Proof.
  intros st st'.
  assert (Hk : keyed (inventory st)).
  { split; vm_compute; [repeat constructor | apply NoDup_singleton]. }
  assert (Hn : Forall (fun kv => fst kv <> "") (inventory st)).
  { vm_compute. repeat constructor. discriminate. }
  split; [exact Hk|]. split; [exact Hn|].
  subst st'.
  rewrite (import_restores_export st 0 (fun _ => Scenario.noon + Scenario.hour)
             (Scenario.inv_at (Scenario.noon + Scenario.hour)) Hk Hn).
  vm_compute. reflexivity.
Defined.

(** *** Search *)

(** X25: [searchProducts] finds every record by its own name, in any
    case and with white space around it; a query that is empty or made of
    white space returns every record; and a record returned is always one
    held whose name or category, in lower case, includes the query in lower
    case and trimmed. *)
Theorem searchProducts_finds_by_name (st : InventoryManager) :
  (forall (k : string) (p : Product) (query : string),
     In (k, p) (inventory st) ->
     normalized query = normalized (name p) ->
     In p (searchProducts st query))
  /\ (forall query : string,
        normalized query = "" ->
        searchProducts st query = values (inventory st))
  /\ (forall (query : string) (p : Product),
        In p (searchProducts st query) ->
        In p (values (inventory st))
        /\ (includes (toLowerCase (name p)) (normalized query) = true
            \/ includes (toLowerCase (category p)) (normalized query) = true)).
Proof.
  split; [|split].
  - intros k p query Hin Hq. unfold searchProducts.
    apply List.filter_In. split.
    + unfold values. apply List.in_map_iff. now exists (k, p).
    + fold (normalized query). rewrite Hq. unfold normalized.
      rewrite <- toLowerCase_trim.
      assert (Hsub : includes (toLowerCase (name p))
                       (toLowerCase (trim (name p))) = true).
      { rewrite toLowerCase_trim. apply includes_trim. }
      now rewrite Hsub.
  - intros query Hq. unfold searchProducts. fold (normalized query).
    rewrite Hq. apply AnalyticsProps.filter_keeps_all.
    apply List.Forall_forall. intros p _. now rewrite includes_empty.
  - intros query p Hin. unfold searchProducts in Hin.
    apply List.filter_In in Hin as [Hin Hmatch].
    split; [exact Hin|]. now apply orb_true_iff in Hmatch.
Qed.

Lemma searchProducts_finds_by_name_witness :
  normalized "  COLA classic" = normalized "Cola Classic"
  /\ map name (searchProducts Scenario.one_left "  COLA classic")
     = ["Cola Classic"]
  /\ normalized " " = ""
  /\ searchProducts Scenario.one_left " "
     = values (inventory Scenario.one_left).
Proof.
  destruct (searchProducts_finds_by_name Scenario.one_left)
    as (_ & Hall & _).
  split; [vm_compute; reflexivity|]. split; [vm_compute; reflexivity|].
  assert (Hblank : normalized " " = "") by (vm_compute; reflexivity).
  split; [exact Hblank | exact (Hall " " Hblank)].
Defined.

(** *** Statistics *)

Lemma validated_minStock (p : Product) :
  validateProductData p = [] -> not_negative (minStock p).
Proof.
  unfold validateProductData, not_negative.
  destruct (lt (minStock p) (Num 0)); [|reflexivity].
  intros E. apply app_eq_nil in E as [_ E].
  apply app_eq_nil in E as [_ E]. apply app_eq_nil in E as [_ E].
  discriminate.
Qed.

Lemma apply_keeps_minStock (st : InventoryManager) (op : Op) (env : InvEnv) :
  Forall (fun kv => not_negative (minStock (snd kv))) (inventory st) ->
  Forall (fun kv => not_negative (minStock (snd kv)))
    (inventory (apply st op env)).
Proof.
  intros Hst.
  assert (Hupdate : forall (s : InventoryManager) (i : string) (n : jsnum)
                      (r : string),
            Forall (fun kv => not_negative (minStock (snd kv))) (inventory s) ->
            Forall (fun kv => not_negative (minStock (snd kv)))
              (inventory (fst (updateStock s i n r env)))).
  { intros s i n r Hs. rewrite updateStock_inventory.
    destruct (map_get i (inventory s)) as [p|] eqn:E; [|exact Hs].
    apply map_set_Forall; [|exact Hs]. cbn [snd minStock].
    apply map_get_In in E. rewrite List.Forall_forall in Hs.
    exact (Hs _ E). }
  assert (Hadd : forall pd : ProductData,
            Forall (fun kv => not_negative (minStock (snd kv)))
              (inventory (fst (addProduct st pd env)))).
  { intros pd. unfold addProduct.
    destruct (build_product st pd env) as [p|]; [|exact Hst].
    destruct (validateProductData p) eqn:E; [|exact Hst].
    cbn [fst notify inventory].
    rewrite checkStockLevel_inventory, saveInventoryData_inventory.
    cbn [with_inventory inventory].
    apply map_set_Forall; [|exact Hst]. now apply validated_minStock. }
  destruct op as [saleData | productId newStock reason | pd]; cbn [apply].
  - unfold handleSaleEvent.
    destruct (negb (truthy (get saleData "productName"))); [exact Hst|].
    destruct (get saleData "productName") as [| | | |pn| |]; try exact Hst.
    destruct (findProductByName st pn) as [[key p]|] eqn:E.
    + apply Hupdate. cbn [with_inventory inventory].
      apply map_set_Forall; [|exact Hst]. cbn [snd minStock].
      apply findProductByName_stored in E.
      rewrite List.Forall_forall in Hst. exact (Hst _ E).
    + destruct (autoTrackEnabled st); [apply Hadd | exact Hst].
  - now apply Hupdate.
  - apply Hadd.
Qed.

Lemma run_keeps_minStock (ops : list (Op * InvEnv)) :
  forall st : InventoryManager,
    Forall (fun kv => not_negative (minStock (snd kv))) (inventory st) ->
    Forall (fun kv => not_negative (minStock (snd kv)))
      (inventory (run st ops)).
Proof.
  unfold run. induction ops as [|[op env] ops IH]; intros st Hst;
    [exact Hst|].
  cbn [fold_left fst snd]. apply IH. now apply apply_keeps_minStock.
Qed.

Lemma out_is_low (st : InventoryManager) (p : Product) :
  (0 <= lowStockThreshold st)%Q -> (outOfStockThreshold st <= 0)%Q ->
  not_negative (minStock p) ->
  is_out st p = true -> is_low st p = true.
Proof.
  unfold is_out, is_low, not_negative. intros Hlow Hout Hmin.
  destruct (currentStock p) as [|s]; [discriminate|].
  unfold le. rewrite !Qleb_true. intros Hs.
  assert (Hthreshold : (0 <= num_or (minStock p) (lowStockThreshold st))%Q).
  { destruct (minStock p) as [|m]; cbn [num_or]; [exact Hlow|].
    unfold lt in Hmin. apply Qltb_false in Hmin.
    destruct (Qis0 m); assumption. }
  lra.
Qed.

(** X26: over any sequence of sale events, stock updates and product
    additions, starting from an empty inventory, the statistics are
    consistent: the records counted out of stock are among those counted low
    on stock, which are among the active records counted, which are among the
    records held; and the lists of names given have the lengths of the
    counts. *)
Theorem inventory_counts_are_nested (ops : list (Op * InvEnv)) :
  let st := run new_inventory ops in
  let stats := getInventoryStats st in
  (outOfStockCount stats <= lowStockCount stats)%nat
  /\ (lowStockCount stats <= totalProducts stats)%nat
  /\ (totalProducts stats <= length (inventory st))%nat
  /\ length (outOfStockProducts stats) = outOfStockCount stats
  /\ length (lowStockProducts stats) = lowStockCount stats.
Proof.
  cbv zeta.
  destruct (run_keeps_keys ops new_inventory) as (_ & Hlow & Hout & _).
  cbv zeta in Hlow, Hout.
  pose proof (run_keeps_minStock ops new_inventory ltac:(constructor)) as Hmin.
  set (st := run new_inventory ops) in *.
  cbn [getInventoryStats outOfStockCount lowStockCount totalProducts
       outOfStockProducts lowStockProducts].
  split; [|split; [|split; [|split]]].
  - assert (Hin : forall p, In p (List.filter isActive (values (inventory st))) ->
                            is_out st p = true -> is_low st p = true).
    { intros p Hp. apply List.filter_In in Hp as [Hp _].
      unfold values in Hp. apply List.in_map_iff in Hp as (kv & <- & Hkv).
      rewrite List.Forall_forall in Hmin.
      apply out_is_low; [rewrite Hlow | rewrite Hout | exact (Hmin kv Hkv)];
        discriminate. }
    induction (List.filter isActive (values (inventory st))) as [|p l IH];
      cbn [List.filter]; [lia|].
    assert (IH' : (length (List.filter (is_out st) l)
                   <= length (List.filter (is_low st) l))%nat).
    { apply IH. intros q Hq. apply Hin. now right. }
    destruct (is_out st p) eqn:Eo.
    + rewrite (Hin p (or_introl eq_refl) Eo). cbn [length]. lia.
    + destruct (is_low st p); cbn [length]; lia.
  - apply filter_length_all.
  - unfold values. rewrite <- (length_map snd (inventory st)).
    apply filter_length_all.
  - apply length_map.
  - apply length_map.
Qed.

End InventoryExtras.

(** ** The stream client, further *)

Module WebSocketExtras.
Import JS Constants Helpers WebSocket QFacts WebSocketProps.

(** *** What holds of every state of a session *)

Lemma replay_app (s : CONNECTION_STATES) (l1 l2 : list Emitted) :
  replay s (l1 ++ l2) = replay (replay s l1) l2.
Proof.
  revert s. induction l1 as [|e l1 IH]; intros s; [reflexivity|].
  destruct e; cbn [app replay]; apply IH.
Qed.

Lemma chained_app (s : CONNECTION_STATES) (l1 l2 : list Emitted) :
  chained s (l1 ++ l2) <-> chained s l1 /\ chained (replay s l1) l2.
Proof.
  revert s. induction l1 as [|e l1 IH]; intros s; cbn [app chained replay].
  - tauto.
  - destruct e; try apply IH. rewrite IH. tauto.
Qed.

Lemma well_kept_same (w w' : World) :
  emitted w' = emitted w -> connectionState w' = connectionState w ->
  timers w' = timers w -> nextTimer w' = nextTimer w ->
  heartbeatInterval w' = heartbeatInterval w ->
  well_kept w -> well_kept w'.
Proof.
  unfold well_kept, in_step, heartbeat_held, timers_fresh.
  now intros -> -> -> -> ->.
Qed.

Lemma well_kept_emit (w : World) (e : Emitted) :
  (forall s s', e <> StateChange s s') -> well_kept w -> well_kept (emit w e).
Proof.
  intros He ((Hc & Hr) & Hh & Hf). split; [|split; assumption].
  unfold in_step. cbn [emit emitted connectionState].
  rewrite chained_app, replay_app. rewrite Hr.
  destruct e; cbn [chained replay]; try tauto.
  now elim (He state previousState).
Qed.

Lemma state_eqb_neq (a b : CONNECTION_STATES) : state_eqb a b = false -> a <> b.
Proof. destruct a, b; simpl; congruence. Qed.

Lemma well_kept_setConnectionState (w : World) (state : CONNECTION_STATES) :
  well_kept w -> well_kept (setConnectionState w state).
Proof.
  intros ((Hc & Hr) & Hh & Hf). unfold setConnectionState.
  destruct (state_eqb (connectionState w) state) eqn:E;
    [exact (conj (conj Hc Hr) (conj Hh Hf))|].
  apply state_eqb_neq in E. split; [|split; assumption].
  unfold in_step. cbn [emit set_state emitted connectionState].
  rewrite chained_app, replay_app, Hr. cbn [chained replay].
  repeat split; auto.
Qed.

Lemma NoDup_filter_ids (f : Timer -> bool) (l : list Timer) :
  NoDup (map timer_id l) -> NoDup (map timer_id (List.filter f l)).
Proof.
  induction l as [|t l IH]; cbn [List.filter map]; [auto|].
  intros Hnd. apply NoDup_cons in Hnd as [Hnot Hrest].
  destruct (f t); cbn [map]; [|auto].
  apply NoDup_cons. split; [|auto].
  intros Hin. apply Hnot.
  apply list_elem_of_In in Hin. apply list_elem_of_In.
  apply List.in_map_iff in Hin as (t' & Hid & Hin).
  apply List.filter_In in Hin as [Hin _].
  apply List.in_map_iff. now exists t'.
Qed.

Lemma well_kept_cancel (w : World) (i : nat) :
  well_kept w -> well_kept (cancel w i).
Proof.
  intros (Hs & Hh & Hf & Hnd).
  split; [exact Hs|]. split; [|split].
  - unfold heartbeat_held. cbn [cancel set_timers timers heartbeatInterval].
    now apply Forall_filter_keep.
  - cbn [cancel set_timers timers nextTimer]. now apply Forall_filter_keep.
  - cbn [cancel set_timers timers]. now apply NoDup_filter_ids.
Qed.

Lemma well_kept_schedule (w : World) (kind : TimerKind) (delay : Q) :
  kind <> HeartbeatInterval ->
  well_kept w -> well_kept (fst (schedule w kind delay)).
Proof.
  intros Hkind (Hs & Hh & Hf & Hnd).
  split; [exact Hs|]. split; [|split];
    cbn [schedule fst set_timers timers nextTimer heartbeatInterval].
  - unfold heartbeat_held.
    cbn [schedule fst set_timers timers nextTimer heartbeatInterval].
    apply List.Forall_app. split; [exact Hh|].
    constructor; [|constructor]. unfold is_heartbeat. cbn [timer_kind].
    destruct kind; try discriminate. congruence.
  - apply List.Forall_app. split.
    + eapply List.Forall_impl; [|exact Hf]. cbn. intros t Ht. lia.
    + constructor; [cbn; lia | constructor].
  - rewrite List.map_app. apply NoDup_app. split; [exact Hnd|]. split.
    + intros x Hx Hin. cbn in Hin. apply list_elem_of_singleton in Hin. subst x.
      apply list_elem_of_In, List.in_map_iff in Hx as (t & Hid & Hin).
      rewrite List.Forall_forall in Hf. specialize (Hf t Hin). lia.
    + apply NoDup_singleton.
Qed.

(** After [stopHeartbeat] no heartbeat interval is pending. *)
Lemma well_kept_stopHeartbeat (w : World) :
  well_kept w ->
  well_kept (stopHeartbeat w)
  /\ heartbeats (stopHeartbeat w) = []
  /\ heartbeatInterval (stopHeartbeat w) = None.
Proof.
  intros Hw.
  assert (Hfirst : let w1 := match heartbeatInterval w with
                             | Some i => set_heartbeatInterval (cancel w i) None
                             | None => w
                             end in
                   well_kept w1 /\ heartbeats w1 = []
                   /\ heartbeatInterval w1 = None).
  { cbv zeta. destruct (heartbeatInterval w) as [i|] eqn:E.
    - pose proof (well_kept_cancel w i Hw) as (Hs & Hh & Hf).
      assert (Hnone : heartbeats (cancel w i) = []).
      { destruct Hw as (_ & Hheld & _). unfold heartbeat_held in Hheld.
        rewrite E in Hheld. unfold heartbeats.
        cbn [cancel set_timers timers].
        induction (timers w) as [|t l IH]; [reflexivity|].
        inversion Hheld as [|? ? Ht Hl]; subst. cbn [List.filter].
        destruct (Nat.eqb_spec (timer_id t) i) as [Hi|Hi]; cbn [negb].
        - now apply IH.
        - cbn [List.filter]. destruct (is_heartbeat t) eqn:Eh.
          + specialize (Ht eq_refl). congruence.
          + now apply IH. }
      split; [|split; [exact Hnone | reflexivity]].
      split; [exact Hs|]. split; [|exact Hf].
      unfold heartbeat_held.
      cbn [set_heartbeatInterval timers heartbeatInterval].
      unfold heartbeats in Hnone.
      apply List.Forall_forall. intros t Hin Ht.
      assert (Hin' : In t (List.filter is_heartbeat (timers (cancel w i))))
        by (apply List.filter_In; now split).
      rewrite Hnone in Hin'. destruct Hin'.
    - split; [exact Hw|]. split; [|exact E].
      destruct Hw as (_ & Hheld & _). unfold heartbeat_held in Hheld.
      rewrite E in Hheld. unfold heartbeats.
      induction (timers w) as [|t l IH]; [reflexivity|].
      inversion Hheld as [|? ? Ht Hl]; subst. cbn [List.filter].
      destruct (is_heartbeat t); [specialize (Ht eq_refl); discriminate|].
      now apply IH. }
  cbv zeta in Hfirst. unfold stopHeartbeat.
  set (w1 := match heartbeatInterval w with
             | Some i => set_heartbeatInterval (cancel w i) None
             | None => w
             end) in *.
  destruct Hfirst as (Hw1 & Hnone & Hint).
  destruct (heartbeatTimer w1) as [j|];
    [|exact (conj Hw1 (conj Hnone Hint))].
  pose proof (well_kept_cancel w1 j Hw1) as Hc.
  split; [|split].
  - revert Hc. apply well_kept_same; reflexivity.
  - unfold heartbeats in *.
    cbn [set_heartbeatTimer cancel set_timers timers].
    clear - Hnone. induction (timers w1) as [|t l IH]; [reflexivity|].
    cbn [List.filter] in *. destruct (is_heartbeat t) eqn:E; [discriminate|].
    destruct (negb (Nat.eqb (timer_id t) j)); cbn [List.filter];
      rewrite ?E; now apply IH.
  - cbn [set_heartbeatTimer heartbeatInterval cancel set_timers]. exact Hint.
Qed.

Lemma well_kept_startHeartbeat (w : World) :
  well_kept w -> well_kept (startHeartbeat w).
Proof.
  intros Hw. unfold startHeartbeat.
  change (HEARTBEAT_INTERVAL =? 0)%Z with false. cbn iota.
  destruct (well_kept_stopHeartbeat w Hw) as ((Hs & Hh & Hf & Hnd) & Hnone & _).
  set (w1 := stopHeartbeat w) in *.
  cbn [schedule]. split; [exact Hs|]. split; [|split].
  - unfold heartbeat_held.
    cbn [set_heartbeatInterval set_timers timers heartbeatInterval].
    apply List.Forall_app. split.
    + apply List.Forall_forall. intros t Hin Ht.
      assert (Hin' : In t (heartbeats w1))
        by (apply List.filter_In; now split).
      rewrite Hnone in Hin'. destruct Hin'.
    + constructor; [|constructor]. reflexivity.
  - cbn [set_heartbeatInterval set_timers timers nextTimer].
    apply List.Forall_app. split.
    + eapply List.Forall_impl; [|exact Hf]. cbn. intros t Ht. lia.
    + constructor; [cbn; lia | constructor].
  - cbn [set_heartbeatInterval set_timers timers].
    rewrite List.map_app. apply NoDup_app. split; [exact Hnd|]. split.
    + intros x Hx Hin. cbn in Hin. apply list_elem_of_singleton in Hin. subst x.
      apply list_elem_of_In, List.in_map_iff in Hx as (t & Hid & Hin).
      rewrite List.Forall_forall in Hf. specialize (Hf t Hin). lia.
    + apply NoDup_singleton.
Qed.

Ltac unchanged H :=
  refine (well_kept_same _ _ _ _ _ _ _ H); reflexivity.

Lemma well_kept_clearConnectionTimeout (w : World) :
  well_kept w -> well_kept (clearConnectionTimeout w).
Proof.
  intros Hw. unfold clearConnectionTimeout.
  destruct (connectionTimeout w) as [i|]; [|exact Hw].
  pose proof (well_kept_cancel w i Hw) as Hc. unchanged Hc.
Qed.

Lemma well_kept_close_socket (w : World) (h : nat) :
  well_kept w -> well_kept (close_socket w h).
Proof.
  intros Hw. unfold close_socket.
  destruct (readyState w h); try exact Hw; unchanged Hw.
Qed.

Lemma well_kept_send (w : World) (data : jsval) :
  well_kept w -> well_kept (fst (send w data)).
Proof.
  intros Hw. unfold send.
  destruct (ws w); [destruct (ready_eqb _ _)|]; unchanged Hw.
Qed.

Lemma well_kept_transmit_all (h : nat) (queue : list jsval) :
  forall w : World,
    well_kept w ->
    well_kept (fold_left (fun acc message => transmit acc h message) queue w).
Proof.
  induction queue as [|message queue IH]; intros w Hw; [exact Hw|].
  cbn [fold_left]. apply IH. unchanged Hw.
Qed.

Lemma well_kept_flushQueue (w : World) :
  well_kept w -> well_kept (flushQueue w).
Proof.
  intros Hw. unfold flushQueue.
  destruct (ws w); [destruct (ready_eqb _ _)|]; try exact Hw.
  apply well_kept_transmit_all. unchanged Hw.
Qed.

Lemma well_kept_handleReconnect (w : World) (random : Q) :
  well_kept w -> well_kept (handleReconnect w random).
Proof.
  intros Hw. unfold handleReconnect.
  destruct (isManualClose w); [exact Hw|].
  destruct (_ <=? _)%nat.
  - apply well_kept_emit; [discriminate|].
    now apply well_kept_setConnectionState.
  - cbv zeta. apply well_kept_schedule; [discriminate|].
    apply well_kept_setConnectionState. unchanged Hw.
Qed.

Lemma well_kept_connect (w : World) (c : Ctx) :
  well_kept w -> well_kept (connect w c).
Proof.
  intros Hw. unfold connect.
  destruct (_ || _); [exact Hw|]. cbv zeta.
  assert (H2 : well_kept (setConnectionState (set_isManualClose w false)
                            CONNECTING)).
  { apply well_kept_setConnectionState. unchanged Hw. }
  destruct (at_ctorThrows c); [now apply well_kept_handleReconnect|].
  set (w2 := setConnectionState (set_isManualClose w false) CONNECTING) in *.
  set (w3 := set_ws (set_sockets w2 (sockets w2 ++ [SOCK_CONNECTING])%list)
               (Some (length (sockets w2)))).
  assert (H3 : well_kept w3) by (subst w3; unchanged H2).
  pose proof (well_kept_schedule w3 ConnectionTimeout 10000
                ltac:(discriminate) H3) as H4.
  destruct (schedule w3 ConnectionTimeout 10000) as [w4 i] eqn:E.
  cbn [fst] in H4. unchanged H4.
Qed.

Lemma well_kept_disconnect (w : World) :
  well_kept w -> well_kept (disconnect w).
Proof.
  intros Hw. unfold disconnect. cbv zeta.
  apply well_kept_setConnectionState.
  assert (H1 : well_kept (set_isManualClose w true)) by unchanged Hw.
  apply well_kept_stopHeartbeat in H1 as (H2 & _).
  apply well_kept_clearConnectionTimeout in H2.
  set (w3 := clearConnectionTimeout (stopHeartbeat (set_isManualClose w true)))
    in *.
  destruct (ws w3) as [h|]; [|exact H2].
  pose proof (well_kept_close_socket w3 h H2) as H4. unchanged H4.
Qed.

Lemma well_kept_onOpen (w : World) : well_kept w -> well_kept (onOpen w).
Proof.
  intros Hw. unfold onOpen. cbv zeta.
  apply well_kept_emit; [discriminate|].
  apply well_kept_flushQueue, well_kept_startHeartbeat.
  assert (H2 : well_kept (setConnectionState (clearConnectionTimeout w)
                            CONNECTED))
    by now apply well_kept_setConnectionState,
         well_kept_clearConnectionTimeout.
  unchanged H2.
Qed.

Lemma well_kept_onClose (w : World) (random : Q) :
  well_kept w -> well_kept (onClose w random).
Proof.
  intros Hw. unfold onClose. cbv zeta.
  assert (H3 : well_kept (emit (clearConnectionTimeout (stopHeartbeat w)) Close)).
  { apply well_kept_emit; [discriminate|].
    apply well_kept_clearConnectionTimeout.
    now apply well_kept_stopHeartbeat in Hw as (H1 & _). }
  destruct (isManualClose _); [exact H3|].
  now apply well_kept_handleReconnect.
Qed.

Lemma well_kept_updateUrl (w : World) (newUrl : string) :
  well_kept w -> well_kept (updateUrl w newUrl).
Proof.
  intros Hw. unfold updateUrl.
  destruct (String.eqb newUrl (url w)); [exact Hw|]. cbv zeta.
  assert (H1 : well_kept (set_url w newUrl)) by unchanged Hw.
  destruct (isConnected w); [|exact H1].
  apply well_kept_schedule; [discriminate|]. now apply well_kept_disconnect.
Qed.

Lemma well_kept_reset (w : World) (c : Ctx) :
  well_kept w -> well_kept (reset w c).
Proof.
  intros Hw. unfold reset. cbv zeta.
  assert (H1 : well_kept (set_messageQueue (set_attempts w 0) []))
    by unchanged Hw.
  destruct (isConnected _).
  - apply well_kept_schedule; [discriminate|]. now apply well_kept_disconnect.
  - now apply well_kept_connect.
Qed.

Lemma well_kept_destroy (w : World) : well_kept w -> well_kept (destroy w).
Proof.
  intros Hw. unfold destroy. cbv zeta.
  assert (H1 : well_kept (set_isManualClose w true)) by unchanged Hw.
  apply well_kept_stopHeartbeat in H1 as (H2 & _).
  apply well_kept_disconnect in H2. unchanged H2.
Qed.

Lemma well_kept_fire (w : World) (i : nat) (c : Ctx) :
  well_kept w -> well_kept (fire w i c).
Proof.
  intros Hw. unfold fire. destruct (find_timer w i) as [t|]; [|exact Hw].
  pose proof (well_kept_cancel w i Hw) as Hc.
  destruct (timer_kind t); cbn [callback].
  - destruct (ws (cancel w i)) as [h|]; [|exact Hc].
    destruct (ready_eqb _ _); [|exact Hc].
    now apply well_kept_handleReconnect, well_kept_close_socket.
  - destruct (isManualClose (cancel w i)); [exact Hc|].
    now apply well_kept_connect.
  - destruct (ws_is w SOCK_OPEN); [now apply well_kept_send | exact Hw].
  - now apply well_kept_connect.
Qed.

Lemma well_kept_call (w : World) (c : Call) (ctx : Ctx) :
  well_kept w -> well_kept (call w c ctx).
Proof.
  intros Hw. destruct c; cbn [call].
  - now apply well_kept_connect.
  - now apply well_kept_disconnect.
  - now apply well_kept_send.
  - now apply well_kept_updateUrl.
  - now apply well_kept_reset.
  - now apply well_kept_destroy.
Qed.

Section Sessions.
Context `{Host}.

Lemma well_kept_onMessage (w : World) (raw : string) (json : option jsval)
  (now : Z) : well_kept w -> well_kept (onMessage w raw json now).
Proof.
  intros Hw. unfold onMessage. cbv zeta.
  destruct (_ && _); [destruct (validateSaleData _); [|exact Hw]|];
    apply well_kept_emit; try discriminate; exact Hw.
Qed.

Lemma well_kept_react (w : World) (e : Happening) (c : Ctx) :
  well_kept w -> well_kept (react w e c).
Proof.
  intros Hw. destruct e as [i | h | h | h | h raw json]; cbn [react].
  - now apply well_kept_fire.
  - destruct (ready_eqb _ _); [|exact Hw].
    apply well_kept_onOpen. unchanged Hw.
  - destruct (_ && _); [|exact Hw].
    apply well_kept_onClose. unchanged Hw.
  - destruct (_ <? _)%nat; [|exact Hw].
    apply well_kept_emit; [discriminate | exact Hw].
  - destruct (ready_eqb _ _); [|exact Hw]. now apply well_kept_onMessage.
Qed.

Lemma well_kept_session (steps : list (Step * Ctx)) :
  forall w : World, well_kept w -> well_kept (session w steps).
Proof.
  induction steps as [|[s ctx] steps IH]; intros w Hw; [exact Hw|].
  cbn [session]. apply IH. destruct s as [c | e]; cbn [step].
  - now apply well_kept_call.
  - now apply well_kept_react.
Qed.

Lemma well_kept_new (url : string) (maxAttempts : nat) (delay : Q) :
  well_kept (new_world url maxAttempts delay).
Proof.
  split; [split; [exact I | reflexivity]|].
  split; [constructor|]. split; constructor.
Qed.

(** X27: over a whole session of the client, whatever its owner calls
    and whatever timers and sockets do, the [stateChange] events tell the
    state exactly: each names as previous state the state announced by the
    one before it (disconnected for the first) and announces a different
    one, and the last one announces the state the manager is in. *)
Theorem stateChange_events_tell_the_state (url : string) (maxAttempts : nat)
  (delay : Q) (steps : list (Step * Ctx)) :
  let w := session (new_world url maxAttempts delay) steps in
  chained DISCONNECTED (emitted w)
  /\ replay DISCONNECTED (emitted w) = connectionState w.
Proof.
  cbv zeta.
  destruct (well_kept_session steps _ (well_kept_new url maxAttempts delay))
    as (Hstep & _).
  exact Hstep.
Qed.

Lemma one_heartbeat (w : World) :
  well_kept w ->
  (length (heartbeats w) <= 1)%nat
  /\ (forall t : Timer,
        In t (heartbeats w) -> heartbeatInterval w = Some (timer_id t))
  /\ (heartbeatInterval w = None -> heartbeats w = []).
Proof.
  intros (_ & Hheld & _ & Hnd). unfold heartbeat_held in Hheld.
  assert (Hin : forall t : Timer,
            In t (heartbeats w) -> heartbeatInterval w = Some (timer_id t)).
  { intros t Ht. apply List.filter_In in Ht as [Ht Hk].
    rewrite List.Forall_forall in Hheld. now apply Hheld. }
  split; [|split; [exact Hin|]].
  - unfold heartbeats in *.
    destruct (heartbeatInterval w) as [i|].
    + assert (Hsame : forall t, In t (List.filter is_heartbeat (timers w)) ->
                                timer_id t = i).
      { intros t Ht. specialize (Hin t Ht). congruence. }
      pose proof (NoDup_filter_ids is_heartbeat (timers w) Hnd) as Hnd'.
      destruct (List.filter is_heartbeat (timers w)) as [|a [|b l]];
        cbn [length]; try lia.
      exfalso. cbn [map] in Hnd'. apply NoDup_cons in Hnd' as [Hnot _].
      apply Hnot. rewrite (Hsame a), <- (Hsame b); cbn; auto.
      now left.
    + destruct (List.filter is_heartbeat (timers w)) as [|a l];
        cbn [length]; [lia|].
      specialize (Hin a (or_introl eq_refl)). discriminate.
  - intros Hnone. destruct (heartbeats w) as [|a l] eqn:E; [reflexivity|].
    specialize (Hin a (or_introl eq_refl)). congruence.
Qed.

(** X28: over a whole session of the client, at most one heartbeat
    interval is pending at any time; one that is pending is the one whose
    handle the manager holds, so that [stopHeartbeat] cancels it, and when
    the manager holds no handle none is pending.  In particular none is
    pending after [disconnect()]. *)
Theorem at_most_one_heartbeat (url : string) (maxAttempts : nat)
  (delay : Q) (steps : list (Step * Ctx)) :
  let w := session (new_world url maxAttempts delay) steps in
  (length (heartbeats w) <= 1)%nat
  /\ (forall t : Timer,
        In t (heartbeats w) -> heartbeatInterval w = Some (timer_id t))
  /\ (heartbeatInterval w = None -> heartbeats w = [])
  /\ heartbeats (stopHeartbeat w) = []
  /\ heartbeats (disconnect w) = [].
Proof.
  cbv zeta.
  pose proof (well_kept_session steps _ (well_kept_new url maxAttempts delay))
    as Hw.
  set (w := session (new_world url maxAttempts delay) steps) in *.
  destruct (one_heartbeat w Hw) as (H1 & H2 & H3).
  split; [exact H1|]. split; [exact H2|]. split; [exact H3|].
  split; [now apply well_kept_stopHeartbeat|].
  destruct (one_heartbeat (disconnect w) (well_kept_disconnect w Hw))
    as (_ & _ & Hnone).
  apply Hnone. now destruct (disconnect_frame w) as (_ & _ & _ & _ & -> & _).
Qed.

End Sessions.

(** *** The queue of messages *)

Lemma nth_update_nth {A : Type} (n : nat) (x d : A) (l : list A) :
  (n < length l)%nat -> nth n (update_nth n x l) d = x.
Proof.
  revert n. induction l as [|y l IH]; intros [|n] Hn; cbn in *; try lia.
  - reflexivity.
  - apply IH. lia.
Qed.

Lemma sendAll_queues (messages : list jsval) :
  forall (w : World) (h : nat),
    ws w = Some h -> ready_eqb (readyState w h) SOCK_OPEN = false ->
    let w' := sendAll w messages in
    messageQueue w' = (messageQueue w ++ messages)%list
    /\ sent w' = sent w /\ ws w' = ws w /\ sockets w' = sockets w
    /\ timers w' = timers w /\ emitted w' = emitted w.
Proof.
  unfold sendAll.
  induction messages as [|m messages IH]; intros w h Hws Hready; cbv zeta.
  - cbn. now rewrite app_nil_r.
  - cbn [fold_left].
    assert (Hstep : fst (send w m)
                    = set_messageQueue w (messageQueue w ++ [m])%list).
    { unfold send. now rewrite Hws, Hready. }
    rewrite Hstep.
    specialize (IH (set_messageQueue w (messageQueue w ++ [m])%list) h Hws
                  Hready).
    cbv zeta in IH. destruct IH as (-> & -> & -> & -> & -> & ->).
    cbn [set_messageQueue messageQueue sent ws sockets timers emitted].
    now rewrite <- app_assoc.
Qed.

Lemma transmit_all_sent (h : nat) (queue : list jsval) :
  forall w : World,
    let w' := fold_left (fun acc message => transmit acc h message) queue w in
    sent w' = (sent w ++ map (pair h) queue)%list
    /\ messageQueue w' = messageQueue w
    /\ reconnectAttempts w' = reconnectAttempts w
    /\ connectionState w' = connectionState w.
Proof.
  induction queue as [|m queue IH]; intros w; cbv zeta.
  - cbn. now rewrite app_nil_r.
  - cbn [fold_left map]. specialize (IH (transmit w h m)). cbv zeta in IH.
    destruct IH as (-> & -> & -> & ->).
    cbn [transmit sent messageQueue reconnectAttempts connectionState].
    now rewrite <- app_assoc.
Qed.

(** What [onOpen] does before it empties the queue leaves the socket,
    the queue and the frames sent as they are. *)
Lemma before_flush (w : World) :
  let w4 :=
    startHeartbeat
      (set_attempts (setConnectionState (clearConnectionTimeout w) CONNECTED) 0)
  in
  ws w4 = ws w /\ sockets w4 = sockets w
  /\ messageQueue w4 = messageQueue w /\ sent w4 = sent w
  /\ reconnectAttempts w4 = 0%nat /\ connectionState w4 = CONNECTED.
Proof.
  cbv zeta. unfold startHeartbeat.
  change (HEARTBEAT_INTERVAL =? 0)%Z with false. cbn iota.
  cbn [schedule set_heartbeatInterval ws sockets messageQueue sent
       reconnectAttempts connectionState set_timers].
  assert (Hstop : forall v : World,
            ws (stopHeartbeat v) = ws v /\ sockets (stopHeartbeat v) = sockets v
            /\ messageQueue (stopHeartbeat v) = messageQueue v
            /\ sent (stopHeartbeat v) = sent v
            /\ reconnectAttempts (stopHeartbeat v) = reconnectAttempts v
            /\ connectionState (stopHeartbeat v) = connectionState v).
  { intros v. unfold stopHeartbeat.
    destruct (heartbeatInterval v); cbn;
      destruct (heartbeatTimer v); cbn; repeat split; reflexivity. }
  assert (Hclear : ws (clearConnectionTimeout w) = ws w
                   /\ sockets (clearConnectionTimeout w) = sockets w
                   /\ messageQueue (clearConnectionTimeout w) = messageQueue w
                   /\ sent (clearConnectionTimeout w) = sent w).
  { unfold clearConnectionTimeout.
    destruct (connectionTimeout w); repeat split; reflexivity. }
  assert (Hset : forall v : World,
            ws (setConnectionState v CONNECTED) = ws v
            /\ sockets (setConnectionState v CONNECTED) = sockets v
            /\ messageQueue (setConnectionState v CONNECTED) = messageQueue v
            /\ sent (setConnectionState v CONNECTED) = sent v
            /\ connectionState (setConnectionState v CONNECTED) = CONNECTED).
  { intros v. unfold setConnectionState.
    destruct (state_eqb (connectionState v) CONNECTED) eqn:E.
    - apply state_eqb_eq in E. repeat split; auto.
    - repeat split; reflexivity. }
  destruct (Hstop (set_attempts
                     (setConnectionState (clearConnectionTimeout w) CONNECTED) 0))
    as (-> & -> & -> & -> & -> & ->).
  cbn [set_attempts ws sockets messageQueue sent reconnectAttempts
       connectionState].
  destruct (Hset (clearConnectionTimeout w)) as (-> & -> & -> & -> & ->).
  destruct Hclear as (-> & -> & -> & ->).
  repeat split; reflexivity.
Qed.

Section Opening.
Context `{Host}.

(** X29: messages handed to [send] while the socket is still connecting
    are not transmitted but queued, in order, behind those already queued;
    when that socket opens, every queued message is transmitted on it, oldest
    first, the queue is left empty, the count of reconnection attempts is
    back to 0 and the state is connected. *)
Theorem queued_messages_leave_in_order (w : World) (h : nat)
  (messages : list jsval) (c : Ctx) :
  ws w = Some h -> readyState w h = SOCK_CONNECTING ->
  let w1 := sendAll w messages in
  let w2 := react w1 (SocketOpened h) c in
  (messageQueue w1 = (messageQueue w ++ messages)%list /\ sent w1 = sent w)
  /\ messageQueue w2 = []
  /\ sent w2 = (sent w ++ map (pair h) (messageQueue w ++ messages))%list
  /\ reconnectAttempts w2 = 0%nat
  /\ connectionState w2 = CONNECTED.
Proof.
  intros Hws Hready. cbv zeta.
  assert (Hclosed : ready_eqb (readyState w h) SOCK_OPEN = false)
    by now rewrite Hready.
  pose proof (sendAll_queues messages w h Hws Hclosed) as F1. cbv zeta in F1.
  set (w1 := sendAll w messages) in *.
  destruct F1 as (Hq & Hs & Hw & Hk & _).
  split; [split; assumption|].
  assert (Hh : (h < length (sockets w))%nat).
  { unfold readyState in Hready.
    destruct (Nat.lt_ge_cases h (length (sockets w))) as [Hlt|Hge];
      [exact Hlt|].
    rewrite List.nth_overflow in Hready by exact Hge. discriminate Hready. }
  set (v := set_sockets w1 (update_nth h SOCK_OPEN (sockets w))).
  pose proof (before_flush v) as F2. cbv zeta in F2.
  set (w4 := startHeartbeat
               (set_attempts
                  (setConnectionState (clearConnectionTimeout v) CONNECTED) 0))
    in *.
  destruct F2 as (Hw4 & Hk4 & Hq4 & Hs4 & Ha4 & Hc4).
  subst v. cbn [set_sockets ws sockets messageQueue sent] in Hw4, Hk4, Hq4, Hs4.
  assert (Hopen : react w1 (SocketOpened h) c
                  = emit (fold_left
                            (fun acc message => transmit acc h message)
                            (messageQueue w4) (set_messageQueue w4 []))
                      Connected).
  { cbn [react]. unfold readyState. rewrite Hk.
    fold (readyState w h). rewrite Hready. cbn [ready_eqb].
    unfold onOpen. cbv zeta. fold w4. unfold flushQueue.
    rewrite Hw4, Hw, Hws. unfold readyState. rewrite Hk4.
    rewrite nth_update_nth by exact Hh. reflexivity. }
  rewrite Hopen.
  pose proof (transmit_all_sent h (messageQueue w4) (set_messageQueue w4 []))
    as F3.
  cbv zeta in F3. destruct F3 as (Hs5 & Hq5 & Ha5 & Hc5).
  cbn [emit messageQueue sent reconnectAttempts connectionState].
  rewrite Hs5, Hq5, Ha5, Hc5.
  cbn [set_messageQueue messageQueue sent reconnectAttempts connectionState].
  rewrite Hs4, Hq4, Hs, Hq. repeat split; assumption.
Qed.

End Opening.

Lemma queued_messages_leave_in_order_witness :
  let w := connect Scenario.feed0 (Scenario.step_at Scenario.noon) in
  let c := Scenario.step_at (Scenario.noon + 1) in
  let w2 :=
    @react Reference.utcHost (sendAll w [JStr "a"; JStr "b"]) (SocketOpened 0) c
  in
  ws w = Some 0%nat /\ readyState w 0 = SOCK_CONNECTING
  /\ messageQueue w2 = [] /\ sent w2 = [(0%nat, JStr "a"); (0%nat, JStr "b")].
Proof.
  intros w c w2.
  assert (Hws : ws w = Some 0%nat) by (vm_compute; reflexivity).
  assert (Hready : readyState w 0 = SOCK_CONNECTING) by (vm_compute; reflexivity).
  split; [exact Hws|]. split; [exact Hready|].
  destruct (@queued_messages_leave_in_order Reference.utcHost w 0%nat
              [JStr "a"; JStr "b"] c Hws Hready) as (_ & Hq & Hs & _).
  split; [exact Hq|]. apply (eq_trans Hs). vm_compute. reflexivity.
Defined.

End WebSocketExtras.

(** ** From a message to the engine *)

Module AppExtras.
Import JS Constants Sales Helpers Analytics WebSocket App QFacts AnalyticsProps.

Lemma assoc_set_prop (k k' : string) (v : jsval) (fs : list (string * jsval)) :
  assoc k' (set_prop k v fs)
  = if String.eqb k' k then Some v else assoc k' fs.
Proof.
  induction fs as [|[k0 v0] fs IH]; cbn [set_prop assoc].
  - reflexivity.
  - destruct (String.eqb_spec k k0) as [->|Hk]; cbn [assoc].
    + now destruct (String.eqb k' k0).
    + rewrite IH. destruct (String.eqb_spec k' k0) as [->|Hk'];
        [|reflexivity].
      destruct (String.eqb_spec k0 k); [congruence | reflexivity].
Qed.

Lemma get_enrichedSale (fs : list (string * jsval)) (timestamp now : Z)
  (freshId : string) (k : string) :
  get (enrichedSale (JObj fs) timestamp now freshId) k
  = if String.eqb k "id" then JStr freshId
    else if String.eqb k "timestamp"
         then JNum (Num (inject_Z (if (timestamp =? 0)%Z then now else timestamp)))
         else get (JObj fs) k.
Proof.
  unfold enrichedSale, get. cbn [own_properties].
  rewrite !assoc_set_prop.
  destruct (String.eqb k "id"); [reflexivity|].
  now destruct (String.eqb k "timestamp").
Qed.

Lemma looksLikeSale_object (data : jsval) :
  looksLikeSale data = true ->
  exists fs : list (string * jsval), data = JObj fs.
Proof.
  unfold looksLikeSale. destruct data as [| |b|n|s|xs|fs]; cbn;
    rewrite ?andb_false_r; try discriminate.
  intros _. now exists fs.
Qed.

Section Pipeline.
Context `{Host} `{Presentation}.

(** X30: a payload that the client dispatches as a message event and
    that [handleWebSocketMessage] takes for a sale is never refused by the
    engine.  [handleSale] hands [addSale] the payload with its [timestamp]
    replaced by the instant of receipt and with a new [id]; the name and the
    price are those of the payload, so with a clock within the range of
    dates the object passes validation again, [addSale] puts its enriched
    form in front of the working set, and the inventory, which reads the
    name and the price only, is updated as it would be for the payload
    itself. *)
Theorem dispatched_sale_is_accepted (w : World) (raw : string)
  (json : option jsval) (receipt now : Z) (freshId : string)
  (m : AnalyticsManager) (env : AddEnv) :
  let data := decoded raw json in
  let stamp := if (receipt =? 0)%Z then now else receipt in
  let sale := enrichedSale data receipt now freshId in
  onMessage w raw json receipt = emit w (Message data raw receipt) ->
  looksLikeSale data = true ->
  (Z.abs stamp <= 8640000000000000)%Z ->
  validateSaleData sale = []
  /\ get sale "productName" = get data "productName"
  /\ get sale "price" = get data "price"
  /\ get sale "timestamp" = JNum (Num (inject_Z stamp))
  /\ get sale "id" = JStr freshId
  /\ salesData (fst (addSale m sale env))
     = enrichSaleData sale (env_now env) (env_freshId env) :: salesData m
  /\ (forall (st : Inventory.InventoryManager) (ienv : Inventory.InvEnv),
        Inventory.handleSaleEvent st sale ienv
        = Inventory.handleSaleEvent st data ienv).
Proof.
  intros data stamp sale Hdispatched Hlooks Hclock.
  destruct (looksLikeSale_object data Hlooks) as (fs & Hdata).
  assert (Hvalid : validateSaleData data = []).
  { unfold onMessage in Hdispatched. fold (decoded raw json) in Hdispatched.
    fold data in Hdispatched. unfold looksLikeSale in Hlooks.
    rewrite Hlooks in Hdispatched.
    destruct (validateSaleData data); [reflexivity|].
    exfalso. apply (f_equal (fun v => length (emitted v))) in Hdispatched.
    cbn [emit emitted] in Hdispatched. rewrite List.length_app in Hdispatched.
    cbn [length] in Hdispatched. lia. }
  assert (Hname : get sale "productName" = get data "productName").
  { subst sale. rewrite Hdata, get_enrichedSale. reflexivity. }
  assert (Hprice : get sale "price" = get data "price").
  { subst sale. rewrite Hdata, get_enrichedSale. reflexivity. }
  assert (Hstamp : get sale "timestamp" = JNum (Num (inject_Z stamp))).
  { subst sale. rewrite Hdata, get_enrichedSale. reflexivity. }
  assert (Hid : get sale "id" = JStr freshId).
  { subst sale. rewrite Hdata, get_enrichedSale. reflexivity. }
  assert (Hagain : validateSaleData sale = []).
  { unfold validateSaleData in *.
    rewrite Hdata in Hvalid. cbn [truthy typeof jstype_eqb negb orb] in Hvalid.
    rewrite <- Hdata in Hvalid.
    replace (negb (truthy sale) || negb (jstype_eqb (typeof sale) TObject))
      with false by reflexivity.
    apply app_eq_nil in Hvalid as [Hn Hrest].
    apply app_eq_nil in Hrest as [Hp _].
    rewrite Hname, Hprice, Hn, Hp, Hstamp. cbn [app is_undefined negb].
    cbn [newDate ToNumber TimeClip].
    assert (Hrange : Qleb (Qabs (inject_Z stamp)) (inject_Z 8640000000000000)
                     = true).
    { apply Qleb_true. apply Qabs_Qle_condition.
      change (- inject_Z 8640000000000000)%Q
        with (inject_Z (- 8640000000000000)).
      rewrite <- !Zle_Qle. lia. }
    now rewrite Hrange. }
  split; [exact Hagain|]. split; [exact Hname|]. split; [exact Hprice|].
  split; [exact Hstamp|]. split; [exact Hid|]. split.
  - now destruct (addSale_accepted m sale env Hagain) as (Hd & _).
  - intros st ienv. unfold Inventory.handleSaleEvent.
    now rewrite Hname, Hprice.
Qed.

End Pipeline.

Lemma dispatched_sale_is_accepted_witness :
  let raw := "a sale of Cola" in
  let sale := enrichedSale Scenario.cola Scenario.noon 0 "sale_9" in
  @onMessage Reference.utcHost Scenario.feed_connected raw (Some Scenario.cola)
    Scenario.noon
  = emit Scenario.feed_connected (Message Scenario.cola raw Scenario.noon)
  /\ looksLikeSale Scenario.cola = true
  /\ @validateSaleData Reference.utcHost sale = []
  /\ get sale "timestamp" = JNum (Num (inject_Z Scenario.noon)).
Proof.
  intros raw sale.
  assert (Hd : @onMessage Reference.utcHost Scenario.feed_connected raw
                 (Some Scenario.cola) Scenario.noon
               = emit Scenario.feed_connected
                   (Message Scenario.cola raw Scenario.noon))
    by (vm_compute; reflexivity).
  assert (Hl : looksLikeSale Scenario.cola = true) by (vm_compute; reflexivity).
  split; [exact Hd|]. split; [exact Hl|].
  destruct (@dispatched_sale_is_accepted Reference.utcHost
              Reference.countingView Scenario.feed_connected raw
              (Some Scenario.cola) Scenario.noon 0 "sale_9" Scenario.manager0
              (Scenario.at_instant Scenario.noon) Hd Hl)
    as (Hv & _ & _ & Hs & _).
  - vm_compute. discriminate.
  - split; [exact Hv | exact Hs].
Defined.

End AppExtras.
